(** * LLM-Buddy: prompt-to-file association engine

    A shallow embedding of the parts of [combiner2.py],
    [llm-proxy-recorder/prompt_database.py] and
    [llm-proxy-recorder/server/app.py] that carry the prompt records, the
    active-prompt session, the change-significance detector and the snapshot
    codec, followed by the properties established about them.

    A Python string is the [string] of the bytes of its UTF-8 encoding, so
    that substring tests, comparisons and splitting at line feeds are the
    same on both sides; the two methods that consult the Unicode tables,
    [str.lower] and [str.strip], are taken from the runtime. Python
    dictionaries used as maps are [gmap]s; Python objects that are shared
    by reference (prompt records) live in an explicit heap of locations. *)

From Stdlib Require Import ZArith Lia List Ascii String Bool.
From stdpp Require Import base option list gmap strings.

Local Open Scope Z_scope.

(* ===================================================================== *)
(** * Text primitives of the Python runtime *)
(* ===================================================================== *)

Module Text.

(** The line feed, the only character [re.MULTILINE] and
    [str.lstrip('\n')] look at. *)
Definition LF : ascii := "010"%char.

(** [needle in hay] on Python strings: [needle] occurs as a substring. *)
Fixpoint contains (needle hay : string) : bool :=
  match hay with
  | EmptyString => String.prefix needle hay
  | String _ rest => String.prefix needle hay || contains needle rest
  end.

(** The text has ASCII characters only. *)
Fixpoint is_ascii (s : string) : bool :=
  match s with
  | EmptyString => true
  | String c rest => (N_of_ascii c <? 128)%N && is_ascii rest
  end.

(** What [str.lower()] does to one character of an ASCII text. *)
Definition lower_ascii (c : ascii) : ascii :=
  let n := N_of_ascii c in
  if ((65 <=? n)%N && (n <=? 90)%N)%bool then ascii_of_N (n + 32) else c.

(** What [s.lower()] gives for an ASCII text [s]. *)
Fixpoint ascii_lower (s : string) : string :=
  match s with
  | EmptyString => EmptyString
  | String c rest => String (lower_ascii c) (ascii_lower rest)
  end.

(** Truthiness of a Python string: the empty string is false. *)
Definition truthy (s : string) : bool :=
  match s with EmptyString => false | _ => true end.

(** [any(ind in hay for ind in inds)]. *)
Definition any_in (inds : list string) (hay : string) : bool :=
  existsb (fun ind => contains ind hay) inds.

(** [s.lstrip('\n')]: every leading line feed is removed. *)
Fixpoint lstrip_newlines (s : string) : string :=
  match s with
  | String c rest => if Ascii.eqb c LF then lstrip_newlines rest else s
  | EmptyString => EmptyString
  end.

(** The ASCII characters [str.strip()] removes: tab to carriage return,
    the four separators 28 to 31, and the space. *)
Definition is_ascii_space (c : ascii) : bool :=
  let n := N_of_ascii c in
  ((9 <=? n)%N && (n <=? 13)%N) || ((28 <=? n)%N && (n <=? 32)%N).

Fixpoint ascii_lstrip (s : string) : string :=
  match s with
  | String c rest => if is_ascii_space c then ascii_lstrip rest else s
  | EmptyString => EmptyString
  end.

(** What [s.strip()] gives for an ASCII text [s]: the white space at both
    ends is removed. *)
Definition ascii_strip (s : string) : string :=
  String.rev (ascii_lstrip (String.rev (ascii_lstrip s))).

(** ["\n".join(items)]. *)
Fixpoint join_lines (items : list string) : string :=
  match items with
  | [] => EmptyString
  | [x] => x
  | x :: rest => x +:+ String LF (join_lines rest)
  end.

(** [s.split("\n")]: the lines of [s]; a string with [n] line feeds has
    [n + 1] lines. *)
Fixpoint split_lines (s : string) : list string :=
  match s with
  | EmptyString => [EmptyString]
  | String c rest =>
      if Ascii.eqb c LF then EmptyString :: split_lines rest
      else match split_lines rest with
           | l :: ls => String c l :: ls
           | [] => [String c EmptyString]
           end
  end.

End Text.

(** [str.lower()] and [str.strip()]. What they do to a character outside
    ASCII is decided by the Unicode tables of the interpreter ([strip]
    removes U+00A0 and U+3000 among others, [lower] maps U+212A to [k]);
    on ASCII text they are the two functions above. *)
Class PyStr : Type := {
  lower : string -> string;
  strip : string -> string;
  lower_of_ascii :
    forall s, Text.is_ascii s = true -> lower s = Text.ascii_lower s;
  strip_of_ascii :
    forall s, Text.is_ascii s = true -> strip s = Text.ascii_strip s
}.

(* ===================================================================== *)
(** * Source inference ([App.refresh_prompt_history]) *)
(* ===================================================================== *)

Module SourceInference.
Import Text.

(** An ordered decision list: the first rule whose predicate holds gives
    the label. *)
Definition rule : Type := (string -> string -> bool) * string.

Fixpoint first_match (rules : list rule) (default : string)
    (llm_used description : string) : string :=
  match rules with
  | [] => default
  | (p, label) :: rest =>
      if p llm_used description then label
      else first_match rest default llm_used description
  end.

Section WithStr.
Context `{PyStr}.

(** The label computed for one prompt in the loop body of
    [App.refresh_prompt_history], from [prompt.llm_used] and
    [prompt.description]. The branches follow the [if]/[elif] chain of
    the source in order. *)
Definition infer_source (llm_used description : string) : string :=
  if contains "Auto-recorded from Claude Desktop" description then
    "Claude Desktop"
  else if truthy description && contains "Claude Desktop" description then
    "Claude Desktop"
  else if String.eqb llm_used "Claude"
          && (contains "via" description
              || contains "proxy" (lower description)) then
    "Web Browser"
  else if contains "ChatGPT" llm_used then
    "Web Browser"
  else if String.eqb llm_used "Claude" then
    if any_in ["mcp"; "auto-recorded"; "claude desktop"] (lower description)
    then "Claude Desktop"
    else if any_in ["web"; "proxy"; "browser"; "captured"; "via"; "claude.ai"]
                   (lower description)
    then "Web Browser"
    else "Claude Desktop"
  else
    "Web Browser".

(** The eight rules with the case sensitivity the source gives each
    check: rules 1, 2 and 4 and the ["via"] test of rule 3 look at the
    text as written, the other substring tests at the lowered
    description. *)
Definition source_rules : list rule :=
  [ (fun _ d => contains "Auto-recorded from Claude Desktop" d, "Claude Desktop");
    (fun _ d => contains "Claude Desktop" d, "Claude Desktop");
    (fun l d => String.eqb l "Claude"
                && (contains "via" d || contains "proxy" (lower d)), "Web Browser");
    (fun l _ => contains "ChatGPT" l, "Web Browser");
    (fun l d => String.eqb l "Claude"
                && any_in ["mcp"; "auto-recorded"; "claude desktop"] (lower d),
     "Claude Desktop");
    (fun l d => String.eqb l "Claude"
                && any_in ["web"; "proxy"; "browser"; "captured"; "via"; "claude.ai"]
                          (lower d), "Web Browser");
    (fun l _ => String.eqb l "Claude", "Claude Desktop");
    (fun _ _ => true, "Web Browser") ].

(** The decision list as section 4.3 of the specification words it:
    every substring check is made without regard to case, the two
    comparisons of [llm_used] with ["Claude"] are equalities. *)
Definition icontains (needle hay : string) : bool :=
  contains (lower needle) (lower hay).

Definition spec_rules : list rule :=
  [ (fun _ d => icontains "Auto-recorded from Claude Desktop" d, "Claude Desktop");
    (fun _ d => icontains "Claude Desktop" d, "Claude Desktop");
    (fun l d => String.eqb l "Claude"
                && (icontains "via" d || icontains "proxy" d), "Web Browser");
    (fun l _ => icontains "ChatGPT" l, "Web Browser");
    (fun l d => String.eqb l "Claude"
                && existsb (fun i => icontains i d)
                           ["mcp"; "auto-recorded"; "claude desktop"],
     "Claude Desktop");
    (fun l d => String.eqb l "Claude"
                && existsb (fun i => icontains i d)
                           ["web"; "proxy"; "browser"; "captured"; "via"; "claude.ai"],
     "Web Browser");
    (fun l _ => String.eqb l "Claude", "Claude Desktop");
    (fun _ _ => true, "Web Browser") ].

Definition infer_source_spec : string -> string -> string :=
  first_match spec_rules "Unknown".

End WithStr.
End SourceInference.

(* ===================================================================== *)
(** * Files as the program reads them *)
(* ===================================================================== *)

Module Files.

(** The outcome of [open(path).read()]: the text, or the message of the
    exception that was raised. *)
Inductive read_result : Type :=
| ReadOk (content : string)
| ReadError (message : string).

Definition filesystem : Type := string -> read_result.

End Files.

(* ===================================================================== *)
(** * Snapshot codec ([build_combined_text], [parse_combined_file]) *)
(* ===================================================================== *)

Module SnapshotCodec.
Import Text Files.

(** What the [try]/[except] around [f.read()] appends for one file. *)
Definition file_text (fs : filesystem) (file_path : string) : string :=
  match fs file_path with
  | ReadOk content => content
  | ReadError e => "Error reading file: " +:+ e
  end.

(** The items appended to [lines] by the loop over [selected_files]. *)
Fixpoint file_items (fs : filesystem) (selected_files : list string)
    : list string :=
  match selected_files with
  | [] => []
  | file_path :: rest =>
      ("### " +:+ file_path) :: "" :: file_text fs file_path :: ""
        :: file_items fs rest
  end.

Definition build_combined_text (fs : filesystem)
    (selected_files : list string) (header footer : string) : string :=
  let lines := if truthy header then [header; ""] else [] in
  let lines := lines ++ file_items fs selected_files in
  let lines := if truthy footer then lines ++ [footer] else lines in
  join_lines lines.

(** The group captured when a whole line matches [^### (.+?)$]: the line
    starts with ["### "] and at least one more character follows. With
    [re.MULTILINE] the anchors sit at line feeds, and [.] never matches
    one, so a match is always one entire line. *)
Definition header_capture (line : string) : option string :=
  match line with
  | String "#" (String "#" (String "#" (String " " (String c rest)))) =>
      Some (String c rest)
  | _ => None
  end.

(** [glue l blocks] puts the line [l] and its line feed in front of the
    first block. *)
Definition glue (l : string) (blocks : list string) : list string :=
  match blocks with
  | [] => [l]
  | b :: bs => (l +:+ String LF b) :: bs
  end.

(** The pieces [re.split] returns, computed line by line: the text
    before the first matching line, then for every matching line its
    captured group and the text up to the next matching line. *)
Fixpoint blocks_of_lines (lines : list string) : list string :=
  match lines with
  | [] => []
  | l :: rest =>
      match header_capture l with
      | Some path => "" :: path :: glue "" (blocks_of_lines rest)
      | None => glue l (blocks_of_lines rest)
      end
  end.

(** [re.split(r'^### (.+?)$', content, flags=re.MULTILINE)]. *)
Definition re_split_headers (content : string) : list string :=
  blocks_of_lines (split_lines content).

(** [range(start, stop, step)] for a positive step. *)
Definition py_range (start stop step : nat) : list nat :=
  map (fun k => (start + k * step)%nat)
      (seq 0 ((stop - start + step - 1) / step)%nat).

Section WithStr.
Context `{PyStr}.

(** One turn of the loop of [parse_combined_file] at index [i]. *)
Definition parse_step (file_blocks : list string)
    (files_dict : gmap string string) (i : nat) : gmap string string :=
  if (i + 1 <? length file_blocks)%nat then
    match file_blocks !! i, file_blocks !! (i + 1)%nat with
    | Some path, Some body =>
        <[strip path := lstrip_newlines body]> files_dict
    | _, _ => files_dict
    end
  else files_dict.

Definition parse_content (content : string) : gmap string string :=
  let file_blocks := re_split_headers content in
  foldl (parse_step file_blocks) ∅ (py_range 1 (length file_blocks) 2).

(** [parse_combined_file]: a file that cannot be read gives the empty
    dictionary. *)
Definition parse_combined_file (fs : filesystem) (filepath : string)
    : gmap string string :=
  match fs filepath with
  | ReadOk content => parse_content content
  | ReadError _ => ∅
  end.

(** The (path, content) pairs that follow the first block, in order. *)
Fixpoint block_pairs (blocks : list string) : list (string * string) :=
  match blocks with
  | path :: body :: rest =>
      (strip path, lstrip_newlines body) :: block_pairs rest
  | _ => []
  end.

(** The value a key is left with after the pairs were stored in order:
    the one of its last occurrence. *)
Fixpoint last_binding (k : string) (pairs : list (string * string))
    : option string :=
  match pairs with
  | [] => None
  | (k', v) :: rest =>
      match last_binding k rest with
      | Some w => Some w
      | None => if String.eqb k k' then Some v else None
      end
  end.

(** No line of the text is taken for a file header by the decoder. *)
Definition plain_text (s : string) : Prop :=
  Forall (fun l => header_capture l = None) (split_lines s).

(** The text has no line feed in it. *)
Fixpoint one_line (s : string) : bool :=
  match s with
  | EmptyString => true
  | String c rest => negb (Ascii.eqb c LF) && one_line rest
  end.

(** A path the codec can carry: not empty, on one line, and left as it
    is by [str.strip]. *)
Definition clean_path (file_path : string) : Prop :=
  file_path ≠ "" /\ one_line file_path = true /\ strip file_path = file_path.

End WithStr.
End SnapshotCodec.

(* ===================================================================== *)
(** * Library functions the program calls *)
(* ===================================================================== *)

(** The functions of the Python standard library and of [tiktoken] that the
    modelled code calls but does not define. A point in time is a number of
    microseconds; [None] stands for the [ValueError] the two parsers raise
    on a string they reject. *)
Class PyRuntime : Type := {
  uuid4 : nat -> string;                        (* the n-th identifier drawn *)
  fromisoformat : string -> option Z;           (* datetime.fromisoformat,
                                                   see [call_fromisoformat] *)
  strptime : string -> string -> option Z;      (* datetime.strptime(s, fmt) *)
  isoformat : Z -> string;                      (* datetime.isoformat *)
  md5_hexdigest : string -> string;             (* hashlib.md5(..).hexdigest() *)
  count_tokens : string -> Z                    (* count_tokens of combiner2 *)
}.

(* ===================================================================== *)
(** * Date-times in ISO format *)
(* ===================================================================== *)

Module IsoFormat.

(** The fields of a [datetime] without time zone. *)
Record DateTime : Type := {
  year : Z; month : Z; day : Z;
  hour : Z; minute : Z; second : Z; microsecond : Z
}.

(** The Gregorian calendar, as [datetime] validates a date. *)
Definition is_leap (y : Z) : bool :=
  ((y mod 4 =? 0) && negb (y mod 100 =? 0)) || (y mod 400 =? 0).

Definition days_in_month (y m : Z) : Z :=
  if m =? 2 then (if is_leap y then 29 else 28)
  else if (m =? 4) || (m =? 6) || (m =? 9) || (m =? 11) then 30
  else 31.

(** The field ranges [datetime] accepts ([MINYEAR] is 1, [MAXYEAR] 9999). *)
Definition valid (t : DateTime) : bool :=
  (1 <=? year t) && (year t <=? 9999)
  && (1 <=? month t) && (month t <=? 12)
  && (1 <=? day t) && (day t <=? days_in_month (year t) (month t))
  && (0 <=? hour t) && (hour t <=? 23)
  && (0 <=? minute t) && (minute t <=? 59)
  && (0 <=? second t) && (second t <=? 59)
  && (0 <=? microsecond t) && (microsecond t <=? 999999).

(** The number of days from 1970-01-01 to the given date. *)
Definition days_from_civil (y m d : Z) : Z :=
  let y' := if m <=? 2 then y - 1 else y in
  let era := y' / 400 in
  let yoe := y' - era * 400 in
  let mp := (m + 9) mod 12 in
  let doy := (153 * mp + 2) / 5 + d - 1 in
  let doe := yoe * 365 + yoe / 4 - yoe / 100 + doy in
  era * 146097 + doe - 719468.

(** The point in time, in microseconds since 1970-01-01T00:00:00. *)
Definition to_microseconds (t : DateTime) : Z :=
  (((days_from_civil (year t) (month t) (day t) * 24 + hour t) * 60
    + minute t) * 60 + second t) * 1000000 + microsecond t.

(** The value of a decimal digit. *)
Definition digit (c : ascii) : option Z :=
  let n := N_of_ascii c in
  if ((48 <=? n)%N && (n <=? 57)%N)%bool then Some (Z.of_N n - 48) else None.

(** The number a run of decimal digits denotes. *)
Fixpoint digits_from (acc : Z) (cs : list ascii) : option Z :=
  match cs with
  | [] => Some acc
  | c :: rest =>
      match digit c with
      | Some d => digits_from (10 * acc + d) rest
      | None => None
      end
  end.

Definition number (cs : list ascii) : option Z := digits_from 0 cs.

(** The point in time the seven digit runs denote, when they are digits
    and in range. *)
Definition datetime_of_fields (y mo d hh mi ss us : list ascii) : option Z :=
  match number y, number mo, number d, number hh, number mi, number ss,
        number us with
  | Some y, Some mo, Some d, Some hh, Some mi, Some ss, Some us =>
      let t := {| year := y; month := mo; day := d; hour := hh;
                  minute := mi; second := ss; microsecond := us |} in
      if valid t then Some (to_microseconds t) else None
  | _, _, _, _, _, _, _ => None
  end.

(** The punctuation of [YYYY-MM-DD*HH:MM:SS], with ["T"] or a space
    between date and time. *)
Definition separators (s1 s2 sep c1 c2 : ascii) : bool :=
  Ascii.eqb s1 "-" && Ascii.eqb s2 "-"
  && (Ascii.eqb sep "T" || Ascii.eqb sep " ")
  && Ascii.eqb c1 ":" && Ascii.eqb c2 ":".

(** [datetime.fromisoformat] on the strings [YYYY-MM-DDTHH:MM:SS] and
    [YYYY-MM-DD HH:MM:SS], with or without a fraction [.ffffff] of six
    digits: the part of the documented format that [datetime.isoformat]
    and [str(datetime)] write. [None] on every other string. *)
Definition iso_datetime (s : string) : option Z :=
  match list_ascii_of_string s with
  | [y1; y2; y3; y4; s1; m1; m2; s2; d1; d2; sep; h1; h2; c1; n1; n2; c2;
     e1; e2] =>
      if separators s1 s2 sep c1 c2
      then datetime_of_fields [y1; y2; y3; y4] [m1; m2] [d1; d2] [h1; h2]
                              [n1; n2] [e1; e2] []
      else None
  | [y1; y2; y3; y4; s1; m1; m2; s2; d1; d2; sep; h1; h2; c1; n1; n2; c2;
     e1; e2; dot; f1; f2; f3; f4; f5; f6] =>
      if separators s1 s2 sep c1 c2 && Ascii.eqb dot "."
      then datetime_of_fields [y1; y2; y3; y4] [m1; m2] [d1; d2] [h1; h2]
                              [n1; n2] [e1; e2] [f1; f2; f3; f4; f5; f6]
      else None
  | _ => None
  end.

(** The decimal digit of a value from 0 to 9. *)
Definition digit_char (d : Z) : ascii := ascii_of_N (Z.to_N (48 + d)).

Definition two_digits (n : Z) : list ascii :=
  [digit_char (n / 10); digit_char (n mod 10)].

Definition four_digits (n : Z) : list ascii :=
  [digit_char (n / 1000); digit_char (n / 100 mod 10);
   digit_char (n / 10 mod 10); digit_char (n mod 10)].

Definition six_digits (n : Z) : list ascii :=
  [digit_char (n / 100000); digit_char (n / 10000 mod 10);
   digit_char (n / 1000 mod 10); digit_char (n / 100 mod 10);
   digit_char (n / 10 mod 10); digit_char (n mod 10)].

(** [t.isoformat(sep)] with the fraction written ([fraction]) or left
    out, as [isoformat] does for a time of zero microseconds. *)
Definition iso_text (sep : ascii) (fraction : bool) (t : DateTime) : string :=
  string_of_list_ascii
    (four_digits (year t) ++ "-"%char :: two_digits (month t)
     ++ "-"%char :: two_digits (day t)
     ++ sep :: two_digits (hour t) ++ ":"%char :: two_digits (minute t)
     ++ ":"%char :: two_digits (second t)
     ++ (if fraction then "."%char :: six_digits (microsecond t) else [])).

End IsoFormat.

(* ===================================================================== *)
(** * Prompt records and the prompt database *)
(* ===================================================================== *)

Module Prompts.
Import Text IsoFormat.

Record RetroNote : Type := {
  note_files : list string;
  note_token_change : Z;
  note_notes : string
}.

(** A scalar as [json.load] hands it over. *)
Inductive json_scalar : Type :=
| JString (s : string)
| JNumber (z : Z)
| JNull.

(** One object of a prompt file after [json.load]. Every key any writer
    of the repository produces has a field; [None] means the key is
    absent. The value of ["id"] may be [null] (inner [None]); text and
    list values have the JSON type their writers give them. *)
Record JsonPrompt : Type := {
  j_id : option (option string);
  j_timestamp : option json_scalar;
  j_prompt_text : option string;
  j_description : option string;
  j_model : option string;
  j_files : option (list string);
  j_source : option string;
  j_llm_used : option string;
  j_associated_files : option (list string);
  j_file_changes : option (gmap string Z);
  j_retroactive_notes : option (gmap string RetroNote)
}.

Definition key_if {A} (name : string) (field : option A) : list string :=
  match field with Some _ => [name] | None => [] end.

(** The keys of the object. *)
Definition keys (o : JsonPrompt) : list string :=
  key_if "id" (j_id o) ++ key_if "timestamp" (j_timestamp o)
  ++ key_if "prompt_text" (j_prompt_text o)
  ++ key_if "description" (j_description o)
  ++ key_if "model" (j_model o) ++ key_if "files" (j_files o)
  ++ key_if "source" (j_source o) ++ key_if "llm_used" (j_llm_used o)
  ++ key_if "associated_files" (j_associated_files o)
  ++ key_if "file_changes" (j_file_changes o)
  ++ key_if "retroactive_notes" (j_retroactive_notes o).

(** [p.get("id")]: [None] when the key is absent or [null]. *)
Definition get_id (p : JsonPrompt) : option string :=
  match j_id p with Some v => v | None => None end.

(** A prompt file on disk. *)
Inductive json_file : Type :=
| Missing
| Corrupt
| Parsed (data : list JsonPrompt).

(** [PromptRecord]. [rec_id] is the attribute [id]; it is [None] only for
    a record imported from an object without an identifier. *)
Record PromptRecord : Type := {
  rec_id : option string;
  timestamp : Z;
  prompt_text : string;
  llm_used : string;
  description : string;
  associated_files : list string;
  file_changes : gmap string Z;
  retroactive_notes : gmap string RetroNote;
  source : string
}.

Definition with_association (file_path : string) (token_change : Z)
    (r : PromptRecord) : PromptRecord :=
  {| rec_id := rec_id r; timestamp := timestamp r;
     prompt_text := prompt_text r; llm_used := llm_used r;
     description := description r;
     associated_files := associated_files r ++ [file_path];
     file_changes := <[file_path := token_change]> (file_changes r);
     retroactive_notes := retroactive_notes r; source := source r |}.

(** [extends r r']: every file associated in [r] is still associated in
    [r'], with the delta it had. The order in which live monitoring
    leaves a record behind. *)
Definition extends (r r' : PromptRecord) : Prop :=
  (forall p, p ∈ associated_files r -> p ∈ associated_files r')
  /\ (forall p, p ∈ associated_files r ->
                file_changes r' !! p = file_changes r !! p).

Section WithRuntime.
Context `{PyRuntime}.

(** [PromptRecord.__init__], given the identifier it draws and the
    current time. *)
Definition init_record (uuid : string) (now : Z)
    (prompt_text llm_used description : string) : PromptRecord :=
  {| rec_id := Some uuid; timestamp := now;
     prompt_text := prompt_text; llm_used := llm_used;
     description := description;
     associated_files := []; file_changes := ∅;
     retroactive_notes := ∅; source := "Unknown" |}.

(** [PromptRecord.to_dict]. *)
Definition to_dict (r : PromptRecord) : JsonPrompt :=
  {| j_id := Some (rec_id r);
     j_timestamp := Some (JString (isoformat (timestamp r)));
     j_prompt_text := Some (prompt_text r);
     j_description := Some (description r);
     j_model := None; j_files := None; j_source := None;
     j_llm_used := Some (llm_used r);
     j_associated_files := Some (associated_files r);
     j_file_changes := Some (file_changes r);
     j_retroactive_notes := Some (retroactive_notes r) |}.

(** ** Timestamp parsing in [PromptRecord.from_dict] *)

Inductive exn : Type := ValueError | TypeError.

Inductive outcome (A : Type) : Type :=
| Returns (a : A)
| Raises (e : exn).
Global Arguments Returns {A} a.
Global Arguments Raises {A} e.

(** [datetime.fromisoformat(timestamp_str)]: a string in one of the
    encodings of [iso_datetime] gives the time it denotes; what the
    function makes of any other string is left to the runtime. *)
Definition call_fromisoformat (s : string) : outcome Z :=
  match iso_datetime s with
  | Some d => Returns d
  | None =>
      match fromisoformat s with
      | Some d => Returns d
      | None => Raises ValueError
      end
  end.

(** The [for fmt in formats] loop: the first format that parses wins,
    a [ValueError] moves on to the next one. *)
Fixpoint try_formats (s : string) (formats : list string) : option Z :=
  match formats with
  | [] => None
  | fmt :: rest =>
      match strptime s fmt with
      | Some d => Some d
      | None => try_formats s rest
      end
  end.

Definition formats : list string :=
  [ "%Y-%m-%d %H:%M:%S"; "%Y-%m-%d %H:%M:%S.%f";
    "%Y-%m-%dT%H:%M:%S"; "%Y-%m-%dT%H:%M:%S.%f" ].

(** The body of the [try] block. On a value that is not a string the
    test ['T' in timestamp_str] raises [TypeError]. *)
Definition parse_timestamp_body (now : Z) (timestamp_str : json_scalar)
    : outcome Z :=
  match timestamp_str with
  | JString s =>
      if contains "T" s then call_fromisoformat s
      else if contains " " s then call_fromisoformat s
      else match try_formats s formats with
           | Some d => Returns d
           | None => Returns now
           end
  | JNumber _ | JNull => Raises TypeError
  end.

(** The [try] block with its handler
    [except (ValueError, TypeError)]. *)
Definition parse_timestamp (now : Z) (timestamp_str : json_scalar) : Z :=
  match parse_timestamp_body now timestamp_str with
  | Returns d => d
  | Raises ValueError | Raises TypeError => now
  end.

(** [PromptRecord.from_dict]. [n] is the number of identifiers drawn so
    far: the constructor draws one, and the default argument of
    [data.get("id", ...)] is evaluated and draws the next. *)
Definition from_dict (now : Z) (n : nat) (data : JsonPrompt)
    : PromptRecord :=
  let record := init_record (uuid4 n) now "" "" "" in
  {| rec_id := match j_id data with
               | Some v => v
               | None => Some (uuid4 (S n))
               end;
     timestamp :=
       parse_timestamp now (default (JString "") (j_timestamp data));
     prompt_text := default "" (j_prompt_text data);
     llm_used := default "Unknown" (j_model data);
     description := default "" (j_description data);
     associated_files := default [] (j_files data);
     file_changes := default ∅ (j_file_changes data);
     retroactive_notes := default ∅ (j_retroactive_notes data);
     source := source record |}.

(** ** The database *)

(** [PromptDatabase] together with the part of the Python process and
    of the disk it works on: the heap of record objects, the counter
    of identifiers drawn, and [prompt_database.json]. [prompts] and
    [active_prompt] hold references into the heap. *)
Record DbState : Type := {
  heap : gmap nat PromptRecord;
  prompts : list nat;
  active_prompt : option nat;
  uuid_drawn : nat;
  prompt_database_json : json_file;
  writable : bool
}.

Definition set_heap (h : gmap nat PromptRecord) (st : DbState) : DbState :=
  {| heap := h; prompts := prompts st; active_prompt := active_prompt st;
     uuid_drawn := uuid_drawn st;
     prompt_database_json := prompt_database_json st;
     writable := writable st |}.

Definition set_prompts (ps : list nat) (st : DbState) : DbState :=
  {| heap := heap st; prompts := ps; active_prompt := active_prompt st;
     uuid_drawn := uuid_drawn st;
     prompt_database_json := prompt_database_json st;
     writable := writable st |}.

Definition set_active_prompt (a : option nat) (st : DbState) : DbState :=
  {| heap := heap st; prompts := prompts st; active_prompt := a;
     uuid_drawn := uuid_drawn st;
     prompt_database_json := prompt_database_json st;
     writable := writable st |}.

Definition set_uuid_drawn (n : nat) (st : DbState) : DbState :=
  {| heap := heap st; prompts := prompts st;
     active_prompt := active_prompt st; uuid_drawn := n;
     prompt_database_json := prompt_database_json st;
     writable := writable st |}.

Definition set_prompt_database_json (f : json_file) (st : DbState)
    : DbState :=
  {| heap := heap st; prompts := prompts st;
     active_prompt := active_prompt st; uuid_drawn := uuid_drawn st;
     prompt_database_json := f; writable := writable st |}.

(** [PromptDatabase.__init__] in a fresh process. *)
Definition empty_db (disk : json_file) : DbState :=
  {| heap := ∅; prompts := []; active_prompt := None; uuid_drawn := 0;
     prompt_database_json := disk; writable := true |}.

(** A new object on the heap. *)
Definition alloc (r : PromptRecord) (st : DbState) : nat * DbState :=
  let l := fresh (dom (heap st)) in
  (l, set_heap (<[l := r]> (heap st)) st).

(** The records [self.prompts] refers to, in order. *)
Definition records (st : DbState) : list PromptRecord :=
  omap (fun l => heap st !! l) (prompts st).

(** [PromptRecord(prompt_text, llm_used, description)]. *)
Definition new_prompt_record (now : Z)
    (prompt_text llm_used description : string) (st : DbState)
    : nat * DbState :=
  let r := init_record (uuid4 (uuid_drawn st)) now
                       prompt_text llm_used description in
  alloc r (set_uuid_drawn (S (uuid_drawn st)) st).

(** [PromptDatabase.save]: the whole collection is written; [False]
    when the write raises. *)
Definition save (st : DbState) : bool * DbState :=
  if writable st
  then (true, set_prompt_database_json
                (Parsed (map to_dict (records st))) st)
  else (false, st).

(** [PromptDatabase.add_prompt]. *)
Definition add_prompt (prompt_record : nat) (st : DbState)
    : nat * DbState :=
  let st := set_prompts (prompts st ++ [prompt_record]) st in
  let st := set_active_prompt (Some prompt_record) st in
  (prompt_record, snd (save st)).

(** [PromptDatabase.associate_file_with_active_prompt]. *)
Definition associate_file_with_active_prompt (file_path : string)
    (token_change : Z) (st : DbState) : bool * DbState :=
  match active_prompt st with
  | Some l =>
      match heap st !! l with
      | Some r =>
          if bool_decide (file_path ∉ associated_files r) then
            let r' := with_association file_path token_change r in
            let st := set_heap (<[l := r']> (heap st)) st in
            (true, snd (save st))
          else (false, st)
      | None => (false, st)
      end
  | None => (false, st)
  end.

(** [PromptDatabase.clear_active_prompt]. *)
Definition clear_active_prompt (st : DbState) : DbState :=
  set_active_prompt None st.

(** The list comprehension [[PromptRecord.from_dict(p) for p in data]]:
    each record becomes a new object. *)
Fixpoint from_dict_all (now : Z) (data : list JsonPrompt) (st : DbState)
    : list nat * DbState :=
  match data with
  | [] => ([], st)
  | p :: rest =>
      let r := from_dict now (uuid_drawn st) p in
      let '(l, st) :=
        alloc r (set_uuid_drawn (S (S (uuid_drawn st))) st) in
      let '(ls, st) := from_dict_all now rest st in
      (l :: ls, st)
  end.

(** [any(existing.id == p.get("id") for existing in self.prompts)]. *)
Definition id_exists (p : JsonPrompt) (st : DbState) : bool :=
  existsb (fun existing => bool_decide (rec_id existing = get_id p))
          (records st).

(** One turn of the loop over [claude_data]. *)
Definition import_claude_prompt (now : Z) (st : DbState) (p : JsonPrompt)
    : DbState :=
  if id_exists p st then st
  else
    let '(l, st) :=
      new_prompt_record now (default "" (j_prompt_text p))
        (default "Claude Desktop" (j_model p))
        (default "" (j_description p)) st in
    let st :=
      set_heap
        (alter (fun record =>
                  {| rec_id := get_id p; timestamp := timestamp record;
                     prompt_text := prompt_text record;
                     llm_used := llm_used record;
                     description := description record;
                     associated_files :=
                       match j_files p with
                       | Some files => files
                       | None => associated_files record
                       end;
                     file_changes := file_changes record;
                     retroactive_notes := retroactive_notes record;
                     source := source record |}) l (heap st)) st in
    set_prompts (prompts st ++ [l]) st.

(** The first half of [PromptDatabase.load]: [prompt_database.json]. *)
Definition load_primary (now : Z) (st : DbState) : bool * DbState :=
  match prompt_database_json st with
  | Parsed data =>
      let '(ls, st) := from_dict_all now data st in
      (true, set_prompts ls st)
  | Corrupt => (false, st)
  | Missing => (false, st)
  end.

(** The second half: [claude_prompts.json]. *)
Definition load_claude (now : Z) (claude_prompts_json : json_file)
    (loaded : bool) (st : DbState) : bool * DbState :=
  match claude_prompts_json with
  | Parsed claude_data =>
      (true, foldl (import_claude_prompt now) st claude_data)
  | Corrupt => (loaded, st)
  | Missing => (loaded, st)
  end.

(** [PromptDatabase.load]. *)
Definition load (now : Z) (claude_prompts_json : json_file)
    (st : DbState) : bool * DbState :=
  let '(loaded, st) := load_primary now st in
  load_claude now claude_prompts_json loaded st.

(** ** Notions used to state the properties of [load] *)

(** Every reference held in [prompts] points to an object. *)
Definition well_formed (st : DbState) : Prop :=
  forall l, l ∈ prompts st -> is_Some (heap st !! l).

(** The identifiers in the collection, in order. *)
Definition record_ids (st : DbState) : list (option string) :=
  rec_id <$> records st.

(** What a record says, apart from the time it was created. *)
Definition content (r : PromptRecord)
    : option string * string * string * string * list string :=
  (rec_id r, prompt_text r, llm_used r, description r, associated_files r).

(** The records the list comprehension over the primary file builds,
    [n] identifiers having been drawn before. *)
Fixpoint from_dict_list (now : Z) (n : nat) (data : list JsonPrompt)
    : list PromptRecord :=
  match data with
  | [] => []
  | p :: rest => from_dict now n p :: from_dict_list now (S (S n)) rest
  end.

(** The record one turn of the loop over [claude_data] leaves on the heap:
    the constructor's record after the assignments to [id] and
    [associated_files]. *)
Definition imported_record (now : Z) (p : JsonPrompt) : PromptRecord :=
  {| rec_id := get_id p; timestamp := now;
     prompt_text := default "" (j_prompt_text p);
     llm_used := default "Claude Desktop" (j_model p);
     description := default "" (j_description p);
     associated_files := default [] (j_files p);
     file_changes := ∅; retroactive_notes := ∅; source := "Unknown" |}.

(** The loop over [claude_data] seen on the list of records alone. *)
Definition merge_step (now : Z) (recs : list PromptRecord) (p : JsonPrompt)
    : list PromptRecord :=
  if existsb (fun existing => bool_decide (rec_id existing = get_id p)) recs
  then recs
  else recs ++ [imported_record now p].

(** The identifiers the collection holds when the pass over
    [claude_prompts.json] starts are pairwise distinct: those of the
    primary file when it is read (every object carrying one), those
    already in memory otherwise. *)
Definition primary_ids_distinct (st : DbState) : Prop :=
  match prompt_database_json st with
  | Parsed data =>
      Forall (fun p => is_Some (j_id p)) data /\ NoDup (get_id <$> data)
  | Corrupt | Missing => NoDup (record_ids st)
  end.

(** ** The JSON writer of the proxy recorder *)

(** The object [_add_to_json_db] of [llm-proxy-recorder/prompt_database.py]
    appends to [claude_prompts.json]. *)
Definition new_prompt (prompt_id timestamp prompt_text llm_name : string)
    (description : option string) (associated_files : list string)
    (source : string) : JsonPrompt :=
  {| j_id := Some (Some prompt_id);
     j_timestamp := Some (JString timestamp);
     j_prompt_text := Some prompt_text;
     j_description :=
       Some (match description with
             | Some d => if truthy d then d
                         else "Prompt from " +:+ llm_name
             | None => "Prompt from " +:+ llm_name
             end);
     j_model := Some llm_name;
     j_files := Some associated_files;
     j_source := Some source;
     j_llm_used := None; j_associated_files := None;
     j_file_changes := None; j_retroactive_notes := None |}.

(** [_add_to_json_db] on the contents of [claude_prompts.json];
    [writable] says whether [open(self.json_path, "w")] succeeds. Every
    exception is caught: a file that cannot be parsed, or cannot be
    opened for writing, makes the method return [False] and leaves the
    file as it was. *)
Definition _add_to_json_db (prompt_id timestamp prompt_text llm_name : string)
    (description : option string) (associated_files : list string)
    (source : string) (writable : bool) (file : json_file)
    : bool * json_file :=
  let entry := new_prompt prompt_id timestamp prompt_text llm_name
                          description associated_files source in
  match file with
  | Missing =>
      if writable then (true, Parsed [entry]) else (false, Missing)
  | Parsed prompts =>
      if writable then (true, Parsed (prompts ++ [entry]))
      else (false, Parsed prompts)
  | Corrupt => (false, Corrupt)
  end.

(** ** The HTTP endpoint [POST /record_prompt] *)

Record RecordRequest : Type := {
  promptText : option string;
  llmName : option string;
  modelName : option string;
  pageTitle : option string
}.

Definition truthy_opt (o : option string) : bool :=
  match o with Some s => truthy s | None => false end.

(** The branch of [record_prompt] of [server/app.py] taken when the
    prompt database is available. Returns the new record. *)
Definition record_prompt (now : Z) (data : RecordRequest) (st : DbState)
    : nat * DbState :=
  let prompt_text := default "" (promptText data) in
  let llm_used := default "Unknown LLM" (llmName data) in
  let llm_used :=
    if truthy_opt (modelName data)
    then llm_used +:+ " (" +:+ default "" (modelName data) +:+ ")"
    else llm_used in
  let description := "Prompt from " +:+ llm_used in
  let description :=
    if truthy_opt (pageTitle data)
    then description +:+ " - " +:+ default "" (pageTitle data)
    else description in
  let '(prompt_record, st) :=
    new_prompt_record now prompt_text llm_used description st in
  let '(_, st) := add_prompt prompt_record st in
  (prompt_record, snd (save st)).

End WithRuntime.
End Prompts.

(* ===================================================================== *)
(** * File-change monitoring ([EnhancedFileChangeHandler]) *)
(* ===================================================================== *)

Module Monitor.
Import Text Files Prompts.

(** The fields of [AutoBackupConfig] the handler reads and writes.
    [file_hashes] maps a path to its baseline [(hash, token_count)]. *)
Record AutoBackupConfig : Type := {
  min_token_change : Z;
  cooldown_minutes : Z;
  last_backup_time : option Z;
  file_hashes : gmap string (string * Z)
}.

Definition set_file_hashes (h : gmap string (string * Z))
    (c : AutoBackupConfig) : AutoBackupConfig :=
  {| min_token_change := min_token_change c;
     cooldown_minutes := cooldown_minutes c;
     last_backup_time := last_backup_time c; file_hashes := h |}.

Definition set_last_backup_time (t : option Z) (c : AutoBackupConfig)
    : AutoBackupConfig :=
  {| min_token_change := min_token_change c;
     cooldown_minutes := cooldown_minutes c;
     last_backup_time := t; file_hashes := file_hashes c |}.

(** The significance rule as section 4.5 of the specification words it
    (steps 3 to 5): the delta reported for a file when it is judged
    significant, [None] when it is not. *)
Definition significance_spec (min_change : Z)
    (baseline : option (string * Z)) (current_hash : string)
    (current_tokens : Z) : option Z :=
  match baseline with
  | None => Some current_tokens
  | Some (baseline_hash, baseline_tokens) =>
      if String.eqb current_hash baseline_hash then None
      else if Z.abs (current_tokens - baseline_tokens) >=? min_change
           then Some (Z.abs (current_tokens - baseline_tokens))
           else None
  end.

Section WithRuntime.
Context `{PyRuntime}.

(** The handler, the application objects it reaches, and the log of
    the auto-backups it has triggered (each with its list of changed
    files), newest last. *)
Record Handler : Type := {
  config : AutoBackupConfig;
  pending_changes : gset string;
  prompt_database : DbState;
  backups : list (list (string * Z))
}.

(** [timedelta(minutes=m)] in microseconds. *)
Definition minutes (m : Z) : Z := m * 60000000.

(** [count_tokens_in_file]: 0 when the file cannot be read. *)
Definition count_tokens_in_file (fs : filesystem) (filepath : string) : Z :=
  match fs filepath with
  | ReadOk text => count_tokens text
  | ReadError _ => 0
  end.

(** The cooldown test at the top of [_process_changes]. *)
Definition cooldown_active (now : Z) (c : AutoBackupConfig) : bool :=
  match last_backup_time c with
  | Some last => now - last <? minutes (cooldown_minutes c)
  | None => false
  end.

(** One turn of the loop of [_check_for_significant_changes]; a file
    that cannot be opened raises, is logged, and leaves everything as
    it was. *)
Definition check_file (fs : filesystem)
    (acc : list (string * Z) * AutoBackupConfig) (file_path : string)
    : list (string * Z) * AutoBackupConfig :=
  let '(significant_changes, c) := acc in
  match fs file_path with
  | ReadError _ => acc
  | ReadOk content =>
      let current_hash := md5_hexdigest content in
      let current_tokens := count_tokens_in_file fs file_path in
      let significant_changes :=
        match file_hashes c !! file_path with
        | Some (prev_hash, prev_tokens) =>
            if bool_decide (current_hash ≠ prev_hash) then
              let token_change := Z.abs (current_tokens - prev_tokens) in
              if min_token_change c <=? token_change
              then significant_changes ++ [(file_path, token_change)]
              else significant_changes
            else significant_changes
        | None => significant_changes ++ [(file_path, current_tokens)]
        end in
      (significant_changes,
       set_file_hashes
         (<[file_path := (current_hash, current_tokens)]> (file_hashes c)) c)
  end.

(** [_check_for_significant_changes] over the pending paths, visited in
    the order [paths]. *)
Definition check_paths (fs : filesystem) (paths : list string)
    (c : AutoBackupConfig) : list (string * Z) * AutoBackupConfig :=
  foldl (check_file fs) ([], c) paths.

Definition _check_for_significant_changes (fs : filesystem) (h : Handler)
    : list (string * Z) * AutoBackupConfig :=
  check_paths fs (elements (pending_changes h)) (config h).

(** The association loop of [trigger_auto_backup_with_prompts]. *)
Definition associate_changed (l : nat) (st : DbState)
    (change : string * Z) : DbState :=
  match heap st !! l with
  | Some prompt =>
      if bool_decide (change.1 ∉ associated_files prompt)
      then set_heap (<[l := with_association change.1 change.2 prompt]>
                       (heap st)) st
      else st
  | None => st
  end.

(** [App.trigger_auto_backup_with_prompts], as far as the monitored
    state goes: the last backup time, the associations with the active
    prompt and the record of the backup. The text of the backup file,
    the note and the windows are left out. *)
Definition trigger_auto_backup_with_prompts (now : Z)
    (changed_files : list (string * Z)) (h : Handler) : Handler :=
  let db :=
    match active_prompt (prompt_database h) with
    | Some l =>
        snd (save (foldl (associate_changed l) (prompt_database h)
                         changed_files))
    | None => prompt_database h
    end in
  {| config := set_last_backup_time (Some now) (config h);
     pending_changes := pending_changes h;
     prompt_database := db;
     backups := backups h ++ [changed_files] |}.

(** The loop of [_process_changes] that associates every pending path
    with the active prompt, passing the file's current token count. *)
Definition associate_pending (fs : filesystem) (st : DbState)
    (file_path : string) : DbState :=
  snd (associate_file_with_active_prompt file_path
         (count_tokens_in_file fs file_path) st).

(** [_process_changes]. *)
Definition _process_changes (fs : filesystem) (now : Z) (h : Handler)
    : Handler :=
  if bool_decide (pending_changes h = ∅) then h
  else if cooldown_active now (config h) then h
  else
    let db :=
      match active_prompt (prompt_database h) with
      | Some _ =>
          foldl (associate_pending fs) (prompt_database h)
                (elements (pending_changes h))
      | None => prompt_database h
      end in
    let '(significant_changes, c) := _check_for_significant_changes fs h in
    let h := {| config := c; pending_changes := pending_changes h;
                prompt_database := db; backups := backups h |} in
    let h :=
      match significant_changes with
      | [] => h
      | _ :: _ => trigger_auto_backup_with_prompts now significant_changes h
      end in
    {| config := config h; pending_changes := ∅;
       prompt_database := prompt_database h; backups := backups h |}.

End WithRuntime.
End Monitor.

(* ===================================================================== *)
(** * A fixed runtime for evaluating the model on concrete inputs *)
(* ===================================================================== *)

Module Sample.
Import Text Files Prompts Monitor.

(** Identifiers ["u"], ["uu"], ...; parsers that reject every string left
    to them; a digest that is the text itself; one token per character. *)
Fixpoint repeat_u (n : nat) : string :=
  match n with O => "u" | S k => String "u" (repeat_u k) end.

#[export] Instance sample_runtime : PyRuntime := {|
  uuid4 := repeat_u;
  fromisoformat := fun _ => None;
  strptime := fun _ _ => None;
  isoformat := fun _ => "2025-05-09T23:15:44";
  md5_hexdigest := fun text => text;
  count_tokens := fun text => Z.of_nat (String.length text)
|}.

(** A runtime whose [lower] and [strip] are the ASCII ones on every
    text. *)
#[export] Instance sample_str : PyStr := {|
  lower := ascii_lower;
  strip := ascii_strip;
  lower_of_ascii := fun _ _ => eq_refl;
  strip_of_ascii := fun _ _ => eq_refl
|}.

(** A record that already holds ["/a.py"] with delta 5. *)
Definition sample_record : PromptRecord :=
  {| rec_id := Some "A"; timestamp := 0; prompt_text := "first";
     llm_used := "Claude"; description := "";
     associated_files := ["/a.py"]; file_changes := {["/a.py" := 5]};
     retroactive_notes := ∅; source := "Unknown" |}.

(** A record without associations. *)
Definition blank_record : PromptRecord :=
  {| rec_id := Some "B"; timestamp := 0; prompt_text := "second";
     llm_used := "Claude"; description := "";
     associated_files := []; file_changes := ∅;
     retroactive_notes := ∅; source := "Unknown" |}.

Definition db_with (r : PromptRecord) (active : option nat) : DbState :=
  {| heap := {[0%nat := r]}; prompts := [0%nat]; active_prompt := active;
     uuid_drawn := 0; prompt_database_json := Missing; writable := true |}.

(** Two files on disk. *)
Definition sample_fs : filesystem := fun p =>
  if String.eqb p "/a.py" then ReadOk "print(1)"
  else if String.eqb p "/b/c.txt" then ReadOk "hello"
  else ReadError "[Errno 2] No such file or directory".

(** A handler with one pending path, a five-minute cooldown, a threshold
    of 3 tokens and, when [last] is given, a previous backup at that
    time. *)
Definition sample_handler (last : option Z) (baseline : gmap string (string * Z))
    (db : DbState) : Handler :=
  {| config := {| min_token_change := 3; cooldown_minutes := 5;
                  last_backup_time := last; file_hashes := baseline |};
     pending_changes := {["/a.py"]};
     prompt_database := db; backups := [] |}.

(** A second record that carries the identifier of [sample_record]. *)
Definition clashing_record : PromptRecord :=
  {| rec_id := Some "A"; timestamp := 0; prompt_text := "second";
     llm_used := "Claude"; description := "";
     associated_files := []; file_changes := ∅;
     retroactive_notes := ∅; source := "Unknown" |}.

(** [prompt_database.json] as [save] writes a collection in which two
    records carry the identifier ["A"]. *)
Definition duplicated_primary : json_file :=
  Parsed [to_dict sample_record; to_dict clashing_record].

(** [claude_prompts.json] as the proxy channel writes it: an entry with
    the identifier ["A"] and another text, and a new entry ["C"]. *)
Definition sample_claude : json_file :=
  Parsed [ new_prompt "A" "2025-05-09T23:15:44" "changed" "Claude" None []
                      "Web Browser";
           new_prompt "C" "2025-05-09 23:15:44" "third" "Claude" None
                      ["/a.py"] "Web Browser" ].

(** The two files of the round-trip example of the specification, and a
    file whose text has a line that starts with ["### "]. *)
Definition snapshot_fs : filesystem := fun p =>
  if String.eqb p "/a.py" then ReadOk ("print(1)" +:+ String LF "")
  else if String.eqb p "/b/c.txt" then ReadOk "hello"
  else if String.eqb p "/d.md" then
    ReadOk ("intro" +:+ String LF "### notes" +:+ String LF "body")
  else ReadError "[Errno 2] No such file or directory".

End Sample.

(* ===================================================================== *)
(** * Further operations on the prompt database *)
(* ===================================================================== *)

Module Session.
Import Text Prompts.

(** [r] with [file_path] appended to [associated_files] and no delta
    recorded, as the endpoint [/associate_prompt] leaves it. *)
Definition with_file (file_path : string) (r : PromptRecord) : PromptRecord :=
  {| rec_id := rec_id r; timestamp := timestamp r;
     prompt_text := prompt_text r; llm_used := llm_used r;
     description := description r;
     associated_files := associated_files r ++ [file_path];
     file_changes := file_changes r;
     retroactive_notes := retroactive_notes r; source := source r |}.

Section WithRuntime.
Context `{PyRuntime}.

(** [prompt.id == prompt_id] for the object at [l]. *)
Definition has_id (st : DbState) (prompt_id : option string) (l : nat) : bool :=
  match heap st !! l with
  | Some r => bool_decide (rec_id r = prompt_id)
  | None => false
  end.

(** [PromptDatabase.get_prompt]: the first record of [self.prompts] with
    the identifier, [None] when the loop ends without one. *)
Definition get_prompt (prompt_id : string) (st : DbState) : option nat :=
  snd <$> list_find (fun l => has_id st (Some prompt_id) l = true) (prompts st).

(** [file_path in p.associated_files] for the object at [l]. *)
Definition mentions (st : DbState) (file_path : string) (l : nat) : bool :=
  match heap st !! l with
  | Some r => bool_decide (file_path ∈ associated_files r)
  | None => false
  end.

(** [PromptDatabase.get_prompts_for_file]. *)
Definition get_prompts_for_file (file_path : string) (st : DbState)
    : list nat :=
  filter (fun l => mentions st file_path l = true) (prompts st).

(** [App.set_active_prompt], from the identifier of the selected row on:
    the focus moves only when [get_prompt] finds the record. *)
Definition select_active_prompt (prompt_id : string) (st : DbState)
    : DbState :=
  match get_prompt prompt_id st with
  | Some l => set_active_prompt (Some l) st
  | None => st
  end.

(** [App.delete_prompt], from the identifier of the selected row on: the
    first record with the identifier is popped; the focus is cleared
    before that when the active prompt carries the identifier. *)
Definition delete_prompt (prompt_id : string) (st : DbState) : DbState :=
  match list_find (fun l => has_id st (Some prompt_id) l = true) (prompts st) with
  | Some (i, _) =>
      let st :=
        match active_prompt st with
        | Some a =>
            if has_id st (Some prompt_id) a then clear_active_prompt st else st
        | None => st
        end in
      snd (save (set_prompts (delete i (prompts st)) st))
  | None => st
  end.

(** ** The endpoints of [server/app.py] *)

Inductive response : Type :=
| Associated            (* 200, "File ... associated with prompt ..." *)
| AlreadyAssociated     (* 200, "File ... already associated ..." *)
| MissingArgument       (* 400 *)
| PromptNotFound.       (* 404 *)

Definition status (r : response) : nat :=
  match r with
  | Associated | AlreadyAssociated => 200
  | MissingArgument => 400
  | PromptNotFound => 404
  end%nat.

Record AssociateRequest : Type := {
  req_prompt_id : option string;
  req_file_path : option string
}.

(** [associate_prompt], with the prompt database available. *)
Definition associate_prompt (data : AssociateRequest) (st : DbState)
    : response * DbState :=
  if negb (truthy_opt (req_prompt_id data))
     || negb (truthy_opt (req_file_path data))
  then (MissingArgument, st)
  else
    let prompt_id := default "" (req_prompt_id data) in
    let file_path := default "" (req_file_path data) in
    match get_prompt prompt_id st with
    | None => (PromptNotFound, st)
    | Some l =>
        match heap st !! l with
        | Some prompt =>
            if bool_decide (file_path ∉ associated_files prompt)
            then (Associated,
                  snd (save (set_heap (<[l := with_file file_path prompt]>
                                         (heap st)) st)))
            else (AlreadyAssociated, st)
        | None => (PromptNotFound, st)
        end
    end.


End WithRuntime.
End Session.

(* ===================================================================== *)
(** * Concrete databases for evaluating the further operations *)
(* ===================================================================== *)

Module SessionSample.
Import Text Files Prompts Monitor Sample.

(** A collection of two records, ["A"] and ["B"], without focus. *)
Definition two_prompts : DbState :=
  {| heap := {[0%nat := sample_record; 1%nat := blank_record]};
     prompts := [0%nat; 1%nat]; active_prompt := None;
     uuid_drawn := 0; prompt_database_json := Missing; writable := true |}.

(** A session in which record ["A"] is active and [prompt_database.json]
    holds what [save] wrote for it. *)
Definition saved_session : DbState :=
  {| heap := {[0%nat := sample_record]}; prompts := [0%nat];
     active_prompt := Some 0%nat; uuid_drawn := 0;
     prompt_database_json := Parsed [to_dict sample_record];
     writable := true |}.


End SessionSample.

(* ===================================================================== *)
(** * Watching files ([EnhancedFileChangeHandler.on_modified]) *)
(* ===================================================================== *)

(** [fnmatch.fnmatch] and [os.path.basename], which the handler calls and
    the repository does not define. *)
Class OsRuntime : Type := {
  fnmatch : string -> string -> bool;
  basename : string -> string
}.

Module Watch.
Import Text Files Prompts Monitor.

(** A [watchdog] event, as far as the handler reads it. *)
Record Event : Type := {
  is_directory : bool;
  src_path : string
}.

(** [s.startswith(prefix)]. *)
Definition startswith (s prefix : string) : bool := String.prefix prefix s.

Section WithRuntime.
Context `{PyRuntime} `{OsRuntime}.

(** The handler with the rest of what [on_modified] reads and writes: the
    three lists of the configuration, the attribute
    [_processing_scheduled] ([None] while the object does not have it,
    as [__init__] leaves it), and [due], the number of callbacks handed
    to [master.after] that have not run yet. *)
Record Watcher : Type := {
  handler : Handler;
  monitor_files : list string;
  monitor_folders : list string;
  ignored_patterns : list string;
  _processing_scheduled : option bool;
  due : nat
}.

(** [EnhancedFileChangeHandler(app, config)]. *)
Definition new_watcher (c : AutoBackupConfig) (db : DbState)
    (files folders patterns : list string) : Watcher :=
  {| handler := {| config := c; pending_changes := ∅;
                   prompt_database := db; backups := [] |};
     monitor_files := files; monitor_folders := folders;
     ignored_patterns := patterns;
     _processing_scheduled := None; due := 0 |}.

Definition _matches_pattern (filename pattern : string) : bool :=
  fnmatch (basename filename) pattern.

(** The loop over [ignored_patterns], [true] when it returns [False]
    from [_should_monitor_file]. *)
Fixpoint ignored (file_path : string) (patterns : list string) : bool :=
  match patterns with
  | [] => false
  | pattern :: rest =>
      if _matches_pattern file_path pattern then true
      else ignored file_path rest
  end.

(** The loop over [monitor_folders] and the [return False] after it. *)
Fixpoint in_monitored_folder (file_path : string) (folders : list string)
    (patterns : list string) : bool :=
  match folders with
  | [] => false
  | folder :: rest =>
      if startswith file_path folder
      then negb (ignored file_path patterns)
      else in_monitored_folder file_path rest patterns
  end.

Definition _should_monitor_file (w : Watcher) (file_path : string) : bool :=
  if bool_decide (file_path ∈ monitor_files w) then true
  else in_monitored_folder file_path (monitor_folders w) (ignored_patterns w).

(** [self.pending_changes.add(path)]. *)
Definition add_pending (path : string) (w : Watcher) : Watcher :=
  {| handler := {| config := config (handler w);
                   pending_changes := pending_changes (handler w) ∪ {[path]};
                   prompt_database := prompt_database (handler w);
                   backups := backups (handler w) |};
     monitor_files := monitor_files w; monitor_folders := monitor_folders w;
     ignored_patterns := ignored_patterns w;
     _processing_scheduled := _processing_scheduled w; due := due w |}.

(** [self._processing_scheduled = True] followed by
    [self.app.master.after(1000, self._process_changes)]. *)
Definition schedule (w : Watcher) : Watcher :=
  {| handler := handler w;
     monitor_files := monitor_files w; monitor_folders := monitor_folders w;
     ignored_patterns := ignored_patterns w;
     _processing_scheduled := Some true; due := S (due w) |}.

(** [on_modified]. [hasattr] asks whether the attribute exists, not what
    it holds. *)
Definition on_modified (event : Event) (w : Watcher) : Watcher :=
  if is_directory event then w
  else if negb (_should_monitor_file w (src_path event)) then w
  else
    let w := add_pending (src_path event) w in
    match _processing_scheduled w with
    | None => schedule w
    | Some _ => w
    end.

(** [_process_changes] with its first statement,
    [self._processing_scheduled = False]. *)
Definition _process_changes (fs : filesystem) (now : Z) (w : Watcher)
    : Watcher :=
  {| handler := Monitor._process_changes fs now (handler w);
     monitor_files := monitor_files w; monitor_folders := monitor_folders w;
     ignored_patterns := ignored_patterns w;
     _processing_scheduled := Some false; due := due w |}.

(** What happens to the handler: a file-system event arrives, or the
    event loop runs a callback that is due, with the files as they are
    then. *)
Inductive action : Type :=
| Modified (event : Event)
| Elapsed (fs : filesystem) (now : Z).

Definition step (w : Watcher) (a : action) : Watcher :=
  match a with
  | Modified event => on_modified event w
  | Elapsed fs now =>
      match due w with
      | O => w
      | S n =>
          _process_changes fs now
            {| handler := handler w;
               monitor_files := monitor_files w;
               monitor_folders := monitor_folders w;
               ignored_patterns := ignored_patterns w;
               _processing_scheduled := _processing_scheduled w; due := n |}
      end
  end.

Definition run (actions : list action) (w : Watcher) : Watcher :=
  foldl step w actions.

End WithRuntime.
End Watch.

(* ===================================================================== *)
(** * eADR notes ([load_eadr_notes], [save_eadr_note], [delete_eadr_note]) *)
(* ===================================================================== *)

Module Notes.
Import Text.

(** One object of [eadr_notes.json], with the three keys [save_eadr_note]
    writes. *)
Record Note : Type := {
  note_timestamp : string;
  note_project : string;
  note_text : string
}.

(** [eadr_notes.json]: absent, not parseable, or a list of notes. *)
Inductive notes_file : Type :=
| NoNotesFile
| CorruptNotes
| ParsedNotes (notes : list Note).

(** The file and whether it can be opened for writing. *)
Record NotesDisk : Type := {
  eadr_notes_json : notes_file;
  notes_writable : bool
}.

Definition load_eadr_notes (disk : NotesDisk) : list Note :=
  match eadr_notes_json disk with
  | ParsedNotes notes => notes
  | CorruptNotes => []
  | NoNotesFile => []
  end.

(** [json.dump(notes, f)] inside the [try]. *)
Definition write_notes (notes : list Note) (disk : NotesDisk)
    : option NotesDisk :=
  if notes_writable disk
  then Some {| eadr_notes_json := ParsedNotes notes;
               notes_writable := notes_writable disk |}
  else None.

(** [save_eadr_note(note_text, project_name)]; [timestamp] is
    [datetime.now().strftime("%Y-%m-%d %H:%M:%S")]. *)
Definition save_eadr_note (timestamp note_text project_name : string)
    (disk : NotesDisk) : bool * NotesDisk :=
  let notes := load_eadr_notes disk in
  let new_note := {| note_timestamp := timestamp;
                     note_project := project_name;
                     note_text := note_text |} in
  let notes := notes ++ [new_note] in
  match write_notes notes disk with
  | Some disk => (true, disk)
  | None => (false, disk)
  end.

(** [delete_eadr_note(note_index)]: the pair it returns and the disk. *)
Definition delete_eadr_note (note_index : Z) (disk : NotesDisk)
    : (bool * option Note) * NotesDisk :=
  let notes := load_eadr_notes disk in
  if (0 <=? note_index) && (note_index <? Z.of_nat (length notes)) then
    match notes !! Z.to_nat note_index with
    | Some deleted_note =>
        match write_notes (delete (Z.to_nat note_index) notes) disk with
        | Some disk => ((true, Some deleted_note), disk)
        | None => ((false, None), disk)
        end
    | None => ((false, None), disk)
    end
  else ((false, None), disk).

End Notes.

(* ===================================================================== *)
(** * The recorder of [auto_claude_recorder.py] *)
(* ===================================================================== *)

Module AutoRecorder.
Import Text Prompts.

(** The module's globals and the file at [DB_PATH]. [ids_drawn] counts the
    calls of [uuid.uuid4]. *)
Record Recorder : Type := {
  claude_prompts_json : json_file;
  db_writable : bool;
  active_files : list string;
  auto_record_enabled : bool;
  ids_drawn : nat
}.

Definition set_claude_prompts_json (f : json_file) (r : Recorder)
    : Recorder :=
  {| claude_prompts_json := f; db_writable := db_writable r;
     active_files := active_files r;
     auto_record_enabled := auto_record_enabled r;
     ids_drawn := ids_drawn r |}.

(** The entries [load_prompts] hands over for a file. *)
Definition entries_read (f : json_file) : list JsonPrompt :=
  match f with Parsed data => data | Corrupt | Missing => [] end.

(** What [auto_record_prompt] answers. *)
Inductive answer : Type :=
| Recorded (prompt_id : string)   (* success, "Prompt recorded successfully" *)
| Disabled                        (* "Auto-recording is disabled" *)
| EmptyPrompt                     (* "Empty prompt text" *)
| NotRecorded.                    (* "Failed to record prompt" *)

Definition success (a : answer) : bool :=
  match a with Recorded _ => true | _ => false end.

Section WithRuntime.
Context `{PyRuntime} `{PyStr}.

(** [load_prompts]: a missing file is created empty; a file that cannot
    be parsed, or cannot be created, gives the empty list. *)
Definition load_prompts (r : Recorder) : list JsonPrompt * Recorder :=
  match claude_prompts_json r with
  | Parsed data => (data, r)
  | Missing =>
      if db_writable r then ([], set_claude_prompts_json (Parsed []) r)
      else ([], r)
  | Corrupt => ([], r)
  end.

(** [save_prompt]. *)
Definition save_prompt (prompt_data : JsonPrompt) (r : Recorder)
    : bool * Recorder :=
  let '(prompts, r) := load_prompts r in
  let prompts := prompts ++ [prompt_data] in
  if db_writable r
  then (true, set_claude_prompts_json (Parsed prompts) r)
  else (false, r).

(** The dictionary [auto_record_prompt] builds, [metadata] being left at
    its default. *)
Definition prompt_data (prompt_id : string) (now : Z)
    (prompt_text description : string) (files : list string) : JsonPrompt :=
  {| j_id := Some (Some prompt_id);
     j_timestamp := Some (JString (isoformat now));
     j_prompt_text := Some prompt_text;
     j_description :=
       Some (if truthy description then description
             else "Auto-recorded from Claude Desktop");
     j_model := Some "Claude";
     j_files := Some files;
     j_source := Some "Claude Desktop";
     j_llm_used := None; j_associated_files := None;
     j_file_changes := None; j_retroactive_notes := None |}.

(** [auto_record_prompt(prompt_text, description)]. *)
Definition auto_record_prompt (now : Z) (prompt_text description : string)
    (r : Recorder) : answer * Recorder :=
  if negb (auto_record_enabled r) then (Disabled, r)
  else if negb (truthy (strip prompt_text)) then (EmptyPrompt, r)
  else
    let prompt_id := uuid4 (ids_drawn r) in
    let r := {| claude_prompts_json := claude_prompts_json r;
                db_writable := db_writable r;
                active_files := active_files r;
                auto_record_enabled := auto_record_enabled r;
                ids_drawn := S (ids_drawn r) |} in
    let entry := prompt_data prompt_id now prompt_text description
                             (active_files r) in
    let '(ok, r) := save_prompt entry r in
    (if ok then Recorded prompt_id else NotRecorded, r).

(** [toggle_auto_recording(enabled)]. *)
Definition toggle_auto_recording (enabled : bool) (r : Recorder) : Recorder :=
  {| claude_prompts_json := claude_prompts_json r;
     db_writable := db_writable r; active_files := active_files r;
     auto_record_enabled := enabled; ids_drawn := ids_drawn r |}.

(** [register_active_files(file_paths)]. *)
Definition register_active_files (file_paths : list string) (r : Recorder)
    : Recorder :=
  {| claude_prompts_json := claude_prompts_json r;
     db_writable := db_writable r; active_files := file_paths;
     auto_record_enabled := auto_record_enabled r;
     ids_drawn := ids_drawn r |}.

End WithRuntime.
End AutoRecorder.

(* ===================================================================== *)
(** * Importing from the extension server ([App.import_all_prompts]) *)
(* ===================================================================== *)

Module ExtensionImport.
Import Text Prompts Session.

(** The three counters of [import_all_prompts]. *)
Record ImportCounts : Type := {
  imported_count : nat;
  updated_count : nat;
  unchanged_count : nat
}.

(** [existing_prompt] after the assignments of the update branch. *)
Definition updated_record (prompt_text llm_used description : string)
    (existing : PromptRecord) : PromptRecord :=
  {| rec_id := rec_id existing; timestamp := timestamp existing;
     prompt_text := prompt_text; llm_used := llm_used;
     description := description;
     associated_files := associated_files existing;
     file_changes := file_changes existing;
     retroactive_notes := retroactive_notes existing;
     source := source existing |}.

(** [new_prompt] after [new_prompt.id = prompt_id] and the loop that
    appends the associated files. *)
Definition with_id_and_files (prompt_id : option string)
    (files : list string) (new_prompt : PromptRecord) : PromptRecord :=
  {| rec_id := prompt_id; timestamp := timestamp new_prompt;
     prompt_text := prompt_text new_prompt; llm_used := llm_used new_prompt;
     description := description new_prompt;
     associated_files := associated_files new_prompt ++ files;
     file_changes := file_changes new_prompt;
     retroactive_notes := retroactive_notes new_prompt;
     source := source new_prompt |}.

Section WithRuntime.
Context `{PyRuntime}.

(** The list under ["prompts"] in the answer of [GET /prompts]
    ([get_prompts] of [server/app.py]). *)
Definition get_prompts (st : DbState) : list JsonPrompt :=
  map (fun prompt =>
         {| j_id := Some (rec_id prompt);
            j_timestamp := Some (JString (isoformat (timestamp prompt)));
            j_prompt_text := Some (prompt_text prompt);
            j_description := Some (description prompt);
            j_model := None; j_files := None; j_source := None;
            j_llm_used := Some (llm_used prompt);
            j_associated_files := Some (associated_files prompt);
            j_file_changes := None; j_retroactive_notes := None |})
      (records st).

(** One turn of the loop over [prompts] in [import_all_prompts]. *)
Definition import_prompt (now : Z) (acc : ImportCounts * DbState)
    (prompt : JsonPrompt) : ImportCounts * DbState :=
  let '(counts, st) := acc in
  let prompt_id := get_id prompt in
  let prompt_text' := default "" (j_prompt_text prompt) in
  let llm_used' := default "Unknown LLM" (j_llm_used prompt) in
  let description' :=
    default "Imported from browser extension" (j_description prompt) in
  match list_find (fun l => has_id st prompt_id l = true) (prompts st) with
  | Some (_, l) =>
      match heap st !! l with
      | Some existing_prompt =>
          if bool_decide (prompt_text existing_prompt ≠ prompt_text')
             || bool_decide (llm_used existing_prompt ≠ llm_used')
          then
            ({| imported_count := imported_count counts;
                updated_count := S (updated_count counts);
                unchanged_count := unchanged_count counts |},
             set_heap (<[l := updated_record prompt_text' llm_used'
                                description' existing_prompt]> (heap st)) st)
          else
            ({| imported_count := imported_count counts;
                updated_count := updated_count counts;
                unchanged_count := S (unchanged_count counts) |}, st)
      | None => acc
      end
  | None =>
      let '(l, st) :=
        new_prompt_record now prompt_text' llm_used' description' st in
      let st :=
        set_heap (alter (with_id_and_files prompt_id
                           (default [] (j_associated_files prompt)))
                        l (heap st)) st in
      ({| imported_count := S (imported_count counts);
          updated_count := updated_count counts;
          unchanged_count := unchanged_count counts |},
       set_prompts (prompts st ++ [l]) st)
  end.

(** [App.import_all_prompts], from the list of the server's answer on:
    the counters it reports and the database. *)
Definition import_all_prompts (now : Z) (prompts : list JsonPrompt)
    (st : DbState) : ImportCounts * DbState :=
  let '(counts, st) :=
    foldl (import_prompt now)
          ({| imported_count := 0; updated_count := 0;
              unchanged_count := 0 |}, st) prompts in
  if (0 <? imported_count counts)%nat || (0 <? updated_count counts)%nat
  then (counts, snd (save st))
  else (counts, st).

(** The first record of the collection with the identifier of [prompt]
    has its text and its model name. *)
Definition in_step (st : DbState) (prompt : JsonPrompt) : Prop :=
  exists i l existing,
    list_find (fun l => has_id st (get_id prompt) l = true) (prompts st)
    = Some (i, l)
    /\ heap st !! l = Some existing
    /\ prompt_text existing = default "" (j_prompt_text prompt)
    /\ llm_used existing = default "Unknown LLM" (j_llm_used prompt).

End WithRuntime.
End ExtensionImport.

(* ===================================================================== *)
(** * Associating files by hand ([App.perform_retroactive_association],
      [App.associate_files_with_prompt]) *)
(* ===================================================================== *)

Module Manual.
Import Text Prompts Session.

(** The [if]/[elif] chain over [token_option]. *)
Definition token_change_of (token_option : string) (custom_token : Z) : Z :=
  if String.eqb token_option "Auto" then 100
  else if String.eqb token_option "Minor (<50)" then 25
  else if String.eqb token_option "Moderate (50-200)" then 100
  else if String.eqb token_option "Major (>200)" then 300
  else if String.eqb token_option "Custom" then custom_token
  else 0.

(** [prompt] after [prompt.retroactive_notes[timestamp] = {...}]. *)
Definition with_note (timestamp : string) (note : RetroNote)
    (prompt : PromptRecord) : PromptRecord :=
  {| rec_id := rec_id prompt; timestamp := Prompts.timestamp prompt;
     prompt_text := prompt_text prompt; llm_used := llm_used prompt;
     description := description prompt;
     associated_files := associated_files prompt;
     file_changes := file_changes prompt;
     retroactive_notes := <[timestamp := note]> (retroactive_notes prompt);
     source := source prompt |}.

Section WithRuntime.
Context `{PyRuntime}.

(** One turn of the loop [for file_path in selected_files] over the
    object at [l], with the counter [newly_added]. *)
Definition add_file (l : nat) (token_change : Z) (acc : nat * DbState)
    (file_path : string) : nat * DbState :=
  let '(newly_added, st) := acc in
  match heap st !! l with
  | Some prompt =>
      if bool_decide (file_path ∉ associated_files prompt)
      then (S newly_added,
            set_heap (<[l := with_association file_path token_change prompt]>
                        (heap st)) st)
      else acc
  | None => acc
  end.

(** [App.perform_retroactive_association], from the list of the selected
    files on; [timestamp] is [datetime.now().strftime("%Y-%m-%d %H:%M:%S")].
    The result is [None] when the function returns after an error or a
    warning, and the count [newly_added] otherwise. The eADR note and the
    windows are left out. *)
Definition perform_retroactive_association (prompt_index : Z)
    (selected_files : list string) (token_option : string) (custom_token : Z)
    (notes timestamp : string) (st : DbState) : option nat * DbState :=
  if (prompt_index <? 0) || (Z.of_nat (length (prompts st)) <=? prompt_index)
  then (None, st)
  else
    match prompts st !! Z.to_nat prompt_index with
    | None => (None, st)
    | Some l =>
        match selected_files with
        | [] => (None, st)
        | _ :: _ =>
            let token_change := token_change_of token_option custom_token in
            let '(newly_added, st) :=
              foldl (add_file l token_change) (0%nat, st) selected_files in
            let st := snd (save st) in
            let st :=
              if truthy notes then
                snd (save (set_heap
                             (alter (with_note timestamp
                                       {| note_files := selected_files;
                                          note_token_change := token_change;
                                          note_notes := notes |})
                                    l (heap st)) st))
              else st in
            (Some newly_added, st)
        end
    end.

(** [App.associate_files_with_prompt], from the identifier of the selected
    row and the files chosen in the dialog on. *)
Definition associate_files_with_prompt (prompt_id : string)
    (selected_files : list string) (st : DbState) : DbState :=
  match get_prompt prompt_id st with
  | None => st
  | Some l =>
      match selected_files with
      | [] => st
      | _ :: _ =>
          snd (save (snd (foldl (add_file l 0) (0%nat, st) selected_files)))
      end
  end.

End WithRuntime.
End Manual.

(* ===================================================================== *)
(** * Concrete recorders, notes and server answers *)
(* ===================================================================== *)

Module ChannelSample.
Import Text Files Prompts Session Notes AutoRecorder ExtensionImport Sample.

(** No notes file yet, in a directory that can be written. *)
Definition no_notes : NotesDisk :=
  {| eadr_notes_json := NoNotesFile; notes_writable := true |}.

(** The recorder right after start, with ["/a.py"] registered and no
    file at [DB_PATH]. *)
Definition fresh_recorder : Recorder :=
  {| claude_prompts_json := Missing; db_writable := true;
     active_files := ["/a.py"]; auto_record_enabled := true;
     ids_drawn := 0 |}.

(** What [GET /prompts] answers when the server holds one record ["A"]
    with the text ["second"]. *)
Definition server_answer : list JsonPrompt :=
  get_prompts (db_with clashing_record None).

End ChannelSample.

(* ===================================================================== *)
(** * Pruning old auto-backups ([App.prune_old_auto_backups]) *)
(* ===================================================================== *)

Module Retention.
Import Text.

(** A file of the directory [backup]: its name, the time
    [os.path.getmtime] gives for it, and whether [os.remove] can delete
    it. *)
Record BackupFile : Type := {
  filename : string;
  mod_time : Z;
  removable : bool
}.

(** [s.startswith(prefix)] and [s.endswith(suffix)]. *)
Definition startswith (s prefix : string) : bool := String.prefix prefix s.

Definition endswith (s suffix : string) : bool :=
  (String.length suffix <=? String.length s)%nat
  && String.eqb (String.substring (String.length s - String.length suffix)
                                  (String.length suffix) s) suffix.

(** The test of the loop over [os.listdir(backup_dir)]. *)
Definition is_auto_backup (name : string) : bool :=
  startswith name "auto_backup_" && endswith name ".md".

(** [auto_backups.sort(key=lambda x: x[1], reverse=True)]: a stable sort,
    newest first; entries with equal times keep the order they had. *)
Fixpoint insert_newest_first (x : string * Z) (sorted : list (string * Z))
    : list (string * Z) :=
  match sorted with
  | [] => [x]
  | y :: rest =>
      if x.2 <? y.2 then y :: insert_newest_first x rest else x :: sorted
  end.

Definition sort_newest_first (entries : list (string * Z))
    : list (string * Z) :=
  foldr insert_newest_first [] entries.

(** The entries are in the order the sort leaves them in: none is newer
    than one before it. *)
Fixpoint newest_first (entries : list (string * Z)) : Prop :=
  match entries with
  | [] => True
  | x :: rest => Forall (fun y => y.2 <= x.2) rest /\ newest_first rest
  end.

(** [items[start:]] for an integer [start] of either sign. *)
Definition slice_from {A} (start : Z) (items : list A) : list A :=
  if 0 <=? start then drop (Z.to_nat start) items
  else drop (length items - Z.to_nat (- start)) items.

(** [os.remove(filepath)] inside its [try]: the file goes when it is there
    and can be removed; otherwise the error is logged and the directory
    stays as it is. *)
Definition remove_file (listing : list BackupFile) (entry : string * Z)
    : list BackupFile :=
  if existsb (fun f => String.eqb (filename f) entry.1 && removable f) listing
  then filter (fun f => filename f ≠ entry.1) listing
  else listing.

(** [prune_old_auto_backups]; [None] stands for a missing directory
    [backup]. *)
Definition prune_old_auto_backups (max_backups : Z)
    (backup_dir : option (list BackupFile)) : option (list BackupFile) :=
  match backup_dir with
  | None => None
  | Some listing =>
      let auto_backups :=
        map (fun f => (filename f, mod_time f))
            (filter (fun f => is_auto_backup (filename f) = true) listing) in
      let auto_backups := sort_newest_first auto_backups in
      if max_backups <? Z.of_nat (length auto_backups)
      then Some (foldl remove_file listing (slice_from max_backups auto_backups))
      else Some listing
  end.

End Retention.

(* ===================================================================== *)
(** * Recording a prompt: in the application and over HTTP *)
(* ===================================================================== *)

Module App.
Import Text Prompts Monitor.

(** [prompt_record] after the loop
    [for file_path in self.filtered_files: ...append(file_path)]. *)
Definition with_filtered_files (filtered_files : list string)
    (prompt_record : PromptRecord) : PromptRecord :=
  {| rec_id := rec_id prompt_record; timestamp := timestamp prompt_record;
     prompt_text := prompt_text prompt_record;
     llm_used := llm_used prompt_record;
     description := description prompt_record;
     associated_files := associated_files prompt_record ++ filtered_files;
     file_changes := file_changes prompt_record;
     retroactive_notes := retroactive_notes prompt_record;
     source := source prompt_record |}.

Section WithRuntime.
Context `{PyRuntime} `{PyStr}.

(** [App.record_prompt] of [combiner2.py]. [prompt_text] and
    [description] are the texts of the two entry fields, [llm_used] the
    name chosen, [use_all_files] the check box and [filtered_files] the
    files selected. [self.prompt_database] is the database the file-change
    handler reaches through [self.app]. Returns the new record, [None]
    when the prompt is empty and nothing is recorded. *)
Definition record_prompt (now : Z) (prompt_text description llm_used : string)
    (use_all_files : bool) (filtered_files : list string) (h : Handler)
    : option nat * Handler :=
  let prompt_text := strip prompt_text in
  if truthy prompt_text then
    let description := strip description in
    let '(prompt_record, st) :=
      new_prompt_record now prompt_text llm_used description
                        (prompt_database h) in
    let st :=
      if use_all_files
      then set_heap (alter (with_filtered_files filtered_files)
                           prompt_record (heap st)) st
      else st in
    let '(_, st) := add_prompt prompt_record st in
    (Some prompt_record,
     {| config := config h; pending_changes := pending_changes h;
        prompt_database := st; backups := backups h |})
  else (None, h).

End WithRuntime.
End App.

Module ExtensionServer.
Import Text Prompts Monitor.

Section WithRuntime.
Context `{PyRuntime}.




End WithRuntime.
End ExtensionServer.

(* ===================================================================== *)
(** * A running application and server, and a posted prompt *)
(* ===================================================================== *)

Module FocusSample.
Import Text Files Prompts Monitor ExtensionServer Sample.



End FocusSample.

(* ===================================================================== *)
(** * Properties: source inference *)
(* ===================================================================== *)

Section SourceInferenceFacts.
Import Text SourceInference.
Context `{PyStr}.

Lemma contains_in_empty (needle : string) :
  truthy needle = true -> contains needle "" = false.
Proof. destruct needle; [discriminate | reflexivity]. Qed.

Lemma app_cons (c : ascii) (a b : string) :
  String c a +:+ b = String c (a +:+ b).
Proof. reflexivity. Qed.

Lemma app_empty_l (b : string) : "" +:+ b = b.
Proof. reflexivity. Qed.

Lemma contains_cons (needle : string) (c : ascii) (s : string) :
  contains needle s = true -> contains needle (String c s) = true.
Proof. intros Hs. cbn [contains]. rewrite Hs. apply orb_true_r. Qed.

Lemma prefix_contains (needle s : string) :
  String.prefix needle s = true -> contains needle s = true.
Proof. destruct s; cbn [contains]; intros ->; reflexivity. Qed.

(** A text that starts with [a +:+ b] contains [b]. *)
Lemma prefix_app_contains (a b s : string) :
  String.prefix (a +:+ b) s = true -> contains b s = true.
Proof.
  revert s. induction a as [| c a IH]; intros s Hp.
  - rewrite app_empty_l in Hp. now apply prefix_contains.
  - rewrite app_cons in Hp. destruct s as [| c' s]; [discriminate |].
    cbn [String.prefix] in Hp. destruct (ascii_dec c c'); [| discriminate].
    apply contains_cons. now apply IH.
Qed.

Lemma contains_app_r (a b s : string) :
  contains (a +:+ b) s = true -> contains b s = true.
Proof.
  induction s as [| c s IH]; cbn [contains].
  - apply prefix_app_contains.
  - intros [Hp | Hr]%orb_true_iff.
    + apply (prefix_app_contains a b (String c s)) in Hp.
      cbn [contains] in Hp. exact Hp.
    + rewrite (IH Hr). apply orb_true_r.
Qed.

Lemma first_match_source_rules (llm_used description : string) :
  infer_source llm_used description
  = first_match source_rules "Unknown" llm_used description.
Proof.
  unfold infer_source, source_rules, first_match.
  destruct (contains "Auto-recorded from Claude Desktop" description);
    [reflexivity |].
  assert (Hd : (truthy description && contains "Claude Desktop" description)%bool
               = contains "Claude Desktop" description).
  { destruct description; [| reflexivity].
    now rewrite contains_in_empty. }
  rewrite Hd.
  destruct (contains "Claude Desktop" description); [reflexivity |].
  destruct (String.eqb llm_used "Claude"); simpl.
  - destruct (contains "via" description || contains "proxy" (lower description))%bool;
      [reflexivity |].
    destruct (contains "ChatGPT" llm_used); [reflexivity |].
    destruct (any_in ["mcp"; "auto-recorded"; "claude desktop"] (lower description));
      [reflexivity |].
    destruct (any_in ["web"; "proxy"; "browser"; "captured"; "via"; "claude.ai"]
                     (lower description)); reflexivity.
  - destruct (contains "ChatGPT" llm_used); reflexivity.
Qed.

(** C6 (amended): the label shown for a prompt is computed from
    [llm_used] and [description] by the ordered eight-rule list, first
    match wins, in which rules 1, 2 and 4 and the "via" test of rule 3
    compare the text as written and the remaining substring checks are
    made on [description.lower()], with the [str.lower] of the
    interpreter. "Claude" with "captured via proxy" gives Web Browser,
    with "Auto-recorded from Claude Desktop" gives Claude Desktop, with
    an empty description gives Claude Desktop, never Unknown; and every
    [llm_used] other than "Claude" gives Web Browser unless the
    description contains "Claude Desktop". *)
Theorem infer_source_ordered_rules :
  (forall llm_used description,
      infer_source llm_used description
      = first_match source_rules "Unknown" llm_used description)
  /\ infer_source "Claude" "captured via proxy" = "Web Browser"
  /\ infer_source "Claude" "Auto-recorded from Claude Desktop" = "Claude Desktop"
  /\ infer_source "Claude" "" = "Claude Desktop"
  /\ (forall llm_used description,
        infer_source llm_used description <> "Unknown")
  /\ (forall llm_used description,
        infer_source llm_used description =
        if String.eqb llm_used "Claude"
        then infer_source "Claude" description
        else if contains "Claude Desktop" description
             then "Claude Desktop" else "Web Browser").
Proof.
  split; [exact first_match_source_rules |].
  do 2 (split; [reflexivity |]).
  split.
  { unfold infer_source. cbn [truthy andb contains String.prefix orb].
    now rewrite (lower_of_ascii "" eq_refl). }
  split.
  - intros l d. unfold infer_source.
    repeat match goal with
           | |- context [if ?b then _ else _] => destruct b
           end; discriminate.
  - intros l d. destruct (String.eqb_spec l "Claude") as [-> | Hne];
      [reflexivity |].
    unfold infer_source.
    apply String.eqb_neq in Hne. rewrite Hne. simpl.
    destruct (contains "Auto-recorded from Claude Desktop" d) eqn:Hauto.
    + assert (contains "Claude Desktop" d = true) as ->; [| reflexivity].
      now apply (contains_app_r "Auto-recorded from ").
    + destruct d; [now destruct (contains "ChatGPT" l) |].
      cbn [truthy andb].
      now destruct (contains "Claude Desktop" (String a d)),
                   (contains "ChatGPT" l).
Qed.

(** Whatever the interpreter does outside ASCII, the decision list of
    section 4.3 and the program part on this ASCII description. *)
Lemma infer_source_differs_from_spec :
  infer_source_spec "Gemini" "claude desktop notes" = "Claude Desktop"
  /\ infer_source "Gemini" "claude desktop notes" = "Web Browser".
Proof.
  split; [| reflexivity].
  unfold infer_source_spec, spec_rules, first_match, icontains.
  rewrite !lower_of_ascii by reflexivity. reflexivity.
Qed.

End SourceInferenceFacts.

Section SourceInferenceExamples.
Import Text SourceInference Sample.

(** C6, as the text of section 4.3 reads: with every substring check made
    without regard to case, a prompt of Gemini whose description says
    "claude desktop notes" is a Claude Desktop prompt by rule 2. The
    program compares the description as written and reaches its last
    branch. *)
Lemma infer_source_case_sensitive_counterexample :
  infer_source_spec "Gemini" "claude desktop notes" = "Claude Desktop"
  /\ infer_source "Gemini" "claude desktop notes" = "Web Browser"
  /\ ~ (forall llm_used description,
          infer_source llm_used description
          = infer_source_spec llm_used description).
Proof.
  split; [reflexivity | split; [reflexivity |]].
  intros Heq. specialize (Heq "Gemini" "claude desktop notes").
  vm_compute in Heq. discriminate.
Qed.

End SourceInferenceExamples.

(* ===================================================================== *)
(** * Properties: the active-prompt session *)
(* ===================================================================== *)

Section SessionFacts.
Import Text Prompts.
Context `{PyRuntime}.

Lemma save_heap (st : DbState) : heap (save st).2 = heap st.
Proof. unfold save. now destruct (writable st). Qed.

Lemma save_prompts (st : DbState) : prompts (save st).2 = prompts st.
Proof. unfold save. now destruct (writable st). Qed.

Lemma save_active_prompt (st : DbState) :
  active_prompt (save st).2 = active_prompt st.
Proof. unfold save. now destruct (writable st). Qed.

(** Without an active prompt the call fails and leaves the state as it
    is. *)
Lemma associate_idle (file_path : string) (token_change : Z) (st : DbState) :
  active_prompt st = None ->
  associate_file_with_active_prompt file_path token_change st = (false, st).
Proof. intros Hidle. unfold associate_file_with_active_prompt. now rewrite Hidle. Qed.

(** A path that is already associated makes the call fail as well. *)
Lemma associate_present (file_path : string) (token_change : Z)
    (st : DbState) (l : nat) (r : PromptRecord) :
  active_prompt st = Some l -> heap st !! l = Some r ->
  file_path ∈ associated_files r ->
  associate_file_with_active_prompt file_path token_change st = (false, st).
Proof.
  intros Hact Hr Hin. unfold associate_file_with_active_prompt.
  rewrite Hact, Hr. rewrite bool_decide_eq_false_2; [reflexivity | auto].
Qed.

(** A new path is appended, its delta stored, and the store written. *)
Lemma associate_new (file_path : string) (token_change : Z)
    (st : DbState) (l : nat) (r : PromptRecord) :
  active_prompt st = Some l -> heap st !! l = Some r ->
  file_path ∉ associated_files r ->
  associate_file_with_active_prompt file_path token_change st
  = (true, (save (set_heap (<[l := with_association file_path token_change r]>
                              (heap st)) st)).2).
Proof.
  intros Hact Hr Hin. unfold associate_file_with_active_prompt.
  rewrite Hact, Hr. now rewrite bool_decide_eq_true_2.
Qed.

Lemma associate_active_prompt (file_path : string) (token_change : Z)
    (st : DbState) :
  active_prompt (associate_file_with_active_prompt file_path token_change st).2
  = active_prompt st.
Proof.
  unfold associate_file_with_active_prompt.
  destruct (active_prompt st) as [l |] eqn:Hact; [| exact Hact].
  destruct (heap st !! l) as [r |]; [| exact Hact].
  case_bool_decide; cbn [snd]; [| exact Hact].
  rewrite save_active_prompt. exact Hact.
Qed.

Lemma associate_prompts (file_path : string) (token_change : Z)
    (st : DbState) :
  prompts (associate_file_with_active_prompt file_path token_change st).2
  = prompts st.
Proof.
  unfold associate_file_with_active_prompt.
  destruct (active_prompt st) as [l |]; [| reflexivity].
  destruct (heap st !! l) as [r |]; [| reflexivity].
  case_bool_decide; cbn [snd]; [| reflexivity].
  now rewrite save_prompts.
Qed.

(** Only the active record is touched. *)
Lemma associate_other (file_path : string) (token_change : Z)
    (st : DbState) (l l' : nat) :
  active_prompt st = Some l -> l' ≠ l ->
  heap (associate_file_with_active_prompt file_path token_change st).2 !! l'
  = heap st !! l'.
Proof.
  intros Hact Hne. unfold associate_file_with_active_prompt. rewrite Hact.
  destruct (heap st !! l) as [r |]; [| reflexivity].
  case_bool_decide; cbn [snd]; [| reflexivity].
  rewrite save_heap. cbn [heap set_heap].
  now rewrite lookup_insert_ne.
Qed.

(** C2 (amended): [associate_file_with_active_prompt] returns the failure
    indicator and changes nothing when no prompt is active (in particular
    after [clear_active_prompt]), and also when
    the path is already among the active record's [associated_files]
    (the delta recorded first is kept, a repeat call does not overwrite
    it); otherwise it appends the path to [associated_files], sets
    [file_changes[file_path]] to the given delta, leaves every other
    record alone and returns success. *)
Theorem associate_file_with_active_prompt_cases
    (file_path : string) (token_change : Z) (st : DbState) :
  (active_prompt st = None ->
     associate_file_with_active_prompt file_path token_change st = (false, st))
  /\ associate_file_with_active_prompt file_path token_change
       (clear_active_prompt st) = (false, clear_active_prompt st)
  /\ (forall l r,
        active_prompt st = Some l -> heap st !! l = Some r ->
        file_path ∈ associated_files r ->
        associate_file_with_active_prompt file_path token_change st = (false, st))
  /\ (forall l r,
        active_prompt st = Some l -> heap st !! l = Some r ->
        file_path ∉ associated_files r ->
        exists st' r',
          associate_file_with_active_prompt file_path token_change st = (true, st')
          /\ heap st' !! l = Some r'
          /\ associated_files r' = associated_files r ++ [file_path]
          /\ file_changes r' !! file_path = Some token_change
          /\ (forall other, other ≠ file_path ->
                file_changes r' !! other = file_changes r !! other)
          /\ (forall l', l' ≠ l -> heap st' !! l' = heap st !! l')
          /\ prompts st' = prompts st
          /\ active_prompt st' = Some l).
Proof.
  split; [apply associate_idle |].
  split; [now apply associate_idle |].
  split; [intros l r; apply associate_present |].
  intros l r Hact Hr Hnew.
  eexists _, (with_association file_path token_change r).
  split; [exact (associate_new _ _ _ _ _ Hact Hr Hnew) |].
  rewrite save_heap, save_prompts, save_active_prompt. cbn.
  split; [apply lookup_insert_eq |].
  split; [reflexivity |].
  split; [apply lookup_insert_eq |].
  split; [intros other Hne; now apply lookup_insert_ne |].
  split; [intros l' Hne; now apply lookup_insert_ne |].
  split; [reflexivity | exact Hact].
Qed.

End SessionFacts.

(* ===================================================================== *)
(** * Properties: the change-significance detector *)
(* ===================================================================== *)

Section DetectorFacts.
Import Text Files Prompts Monitor.
Context `{PyRuntime}.

(** What one turn of the loop does to the list of significant changes
    and to the configuration. *)
Lemma check_file_min (fs : filesystem) acc c p :
  min_token_change (check_file fs (acc, c) p).2 = min_token_change c.
Proof. unfold check_file. now destruct (fs p). Qed.

Lemma check_file_last_backup (fs : filesystem) acc c p :
  last_backup_time (check_file fs (acc, c) p).2 = last_backup_time c.
Proof. unfold check_file. now destruct (fs p). Qed.

Lemma check_file_other (fs : filesystem) acc c p q :
  q ≠ p ->
  file_hashes (check_file fs (acc, c) p).2 !! q = file_hashes c !! q.
Proof.
  intros Hne. unfold check_file. destruct (fs p); [| reflexivity].
  cbn. now rewrite lookup_insert_ne.
Qed.

Lemma check_file_baseline (fs : filesystem) acc c p content :
  fs p = ReadOk content ->
  file_hashes (check_file fs (acc, c) p).2 !! p
  = Some (md5_hexdigest content, count_tokens content).
Proof.
  intros Hp. unfold check_file, count_tokens_in_file. rewrite Hp. cbn.
  apply lookup_insert_eq.
Qed.

Lemma check_file_unreadable (fs : filesystem) acc c p e :
  fs p = ReadError e -> check_file fs (acc, c) p = (acc, c).
Proof. intros Hp. unfold check_file. now rewrite Hp. Qed.

Lemma check_file_verdict (fs : filesystem) acc c p content q d :
  fs p = ReadOk content ->
  (q, d) ∈ (check_file fs (acc, c) p).1 <->
  (q, d) ∈ acc
  \/ (q = p
      /\ significance_spec (min_token_change c) (file_hashes c !! p)
           (md5_hexdigest content) (count_tokens content) = Some d).
Proof.
  intros Hp. unfold check_file, count_tokens_in_file, significance_spec.
  rewrite Hp.
  destruct (file_hashes c !! p) as [[ph pt] |]; cbn [fst].
  - case_bool_decide as Hh.
    + apply String.eqb_neq in Hh. rewrite Hh.
      rewrite Z.geb_leb.
      destruct (min_token_change c <=? Z.abs (count_tokens content - pt)).
      * rewrite elem_of_app, list_elem_of_singleton. split.
        -- intros [? | [= -> ->]]; [now left | now right].
        -- intros [? | [-> [= <-]]]; [now left | now right].
      * split; [now left | now intros [? | [_ ?]]].
    + assert (md5_hexdigest content = ph) as Heq
        by (destruct (decide (md5_hexdigest content = ph)); [done | contradiction]).
      apply String.eqb_eq in Heq. rewrite Heq.
      split; [now left | now intros [? | [_ ?]]].
  - rewrite elem_of_app, list_elem_of_singleton. split.
    + intros [? | [= -> ->]]; [now left | now right].
    + intros [? | [-> [= <-]]]; [now left | now right].
Qed.

Lemma check_file_unreadable_elem (fs : filesystem) acc c p e q d :
  fs p = ReadError e ->
  (q, d) ∈ (check_file fs (acc, c) p).1 <-> (q, d) ∈ acc.
Proof. intros Hp. now rewrite (check_file_unreadable _ _ _ _ _ Hp). Qed.

(** The loop over a duplicate-free list of paths: every path is judged
    against the baseline it had before the loop started. *)
Lemma check_loop_spec (fs : filesystem) (paths : list string) :
  NoDup paths ->
  forall acc c,
    let res := foldl (check_file fs) (acc, c) paths in
    min_token_change res.2 = min_token_change c
    /\ last_backup_time res.2 = last_backup_time c
    /\ (forall q, q ∉ paths -> file_hashes res.2 !! q = file_hashes c !! q)
    /\ (forall q content, q ∈ paths -> fs q = ReadOk content ->
          file_hashes res.2 !! q
          = Some (md5_hexdigest content, count_tokens content))
    /\ (forall q e, q ∈ paths -> fs q = ReadError e ->
          file_hashes res.2 !! q = file_hashes c !! q)
    /\ (forall q d,
          (q, d) ∈ res.1 <->
          (q, d) ∈ acc
          \/ (q ∈ paths
              /\ exists content, fs q = ReadOk content
                 /\ significance_spec (min_token_change c)
                      (file_hashes c !! q) (md5_hexdigest content)
                      (count_tokens content) = Some d)).
Proof.
  induction 1 as [| p paths Hnotin Hnodup IH]; intros acc c.
  - cbn. do 3 (split; [done |]).
    split; [intros q content Hq; by apply elem_of_nil in Hq |].
    split; [intros q e Hq; by apply elem_of_nil in Hq |].
    intros q d. split; [now left |].
    intros [? | [Hq _]]; [done | by apply elem_of_nil in Hq].
  - cbn [foldl].
    destruct (check_file fs (acc, c) p) as [acc1 c1] eqn:Hstep.
    specialize (IH acc1 c1). cbn zeta in IH.
    destruct IH as (IHmin & IHlast & IHother & IHbase & IHerr & IHsig).
    pose proof (check_file_min fs acc c p) as Hmin.
    pose proof (check_file_last_backup fs acc c p) as Hlast.
    rewrite Hstep in Hmin, Hlast. cbn [snd] in Hmin, Hlast.
    assert (Hoth : forall q, q ≠ p -> file_hashes c1 !! q = file_hashes c !! q).
    { intros q Hq. pose proof (check_file_other fs acc c p q Hq) as Ho.
      now rewrite Hstep in Ho. }
    cbn zeta.
    split; [congruence |]. split; [congruence |].
    split; [| split; [| split]].
    + intros q Hq. apply not_elem_of_cons in Hq as [Hqp Hq].
      rewrite IHother by done. now apply Hoth.
    + intros q content Hq Hfs. apply elem_of_cons in Hq as [-> | Hq].
      * rewrite IHother by done.
        pose proof (check_file_baseline fs acc c p content Hfs) as Hb.
        now rewrite Hstep in Hb.
      * now apply IHbase.
    + intros q e Hq Hfs. apply elem_of_cons in Hq as [-> | Hq].
      * rewrite IHother by done.
        pose proof (check_file_unreadable fs acc c p e Hfs) as Hu.
        rewrite Hstep in Hu. now injection Hu as _ ->.
      * rewrite (IHerr q e Hq Hfs). apply Hoth. intros ->. contradiction.
    + intros q d. rewrite IHsig. rewrite Hmin.
      assert (Hacc1 : (q, d) ∈ acc1 <->
                      (q, d) ∈ acc
                      \/ (q = p /\ exists content, fs p = ReadOk content
                          /\ significance_spec (min_token_change c)
                               (file_hashes c !! p) (md5_hexdigest content)
                               (count_tokens content) = Some d)).
      { destruct (fs p) as [content | e] eqn:Hfs.
        - pose proof (check_file_verdict fs acc c p content q d Hfs) as Hv.
          rewrite Hstep in Hv. cbn [fst] in Hv. rewrite Hv.
          split; intros [? | [-> Hs]]; try (now left); right; split; try done.
          + now exists content.
          + destruct Hs as (content' & [= <-] & Hs). exact Hs.
        - pose proof (check_file_unreadable_elem fs acc c p e q d Hfs) as Hv.
          rewrite Hstep in Hv. cbn [fst] in Hv. rewrite Hv.
          split; [now left |]. intros [? | [_ (? & ? & _)]]; [done | discriminate]. }
      rewrite Hacc1. split.
      * intros [[? | [-> Hs]] | [Hq (content & Hfs & Hs)]].
        -- now left.
        -- right. split; [apply elem_of_cons; now left | exact Hs].
        -- right. split; [apply elem_of_cons; now right |].
           exists content. split; [done |].
           rewrite <- Hoth; [done |]. intros ->. contradiction.
      * intros [? | [Hq (content & Hfs & Hs)]]; [now left; left |].
        apply elem_of_cons in Hq as [-> | Hq].
        -- left; right. split; [done |]. now exists content.
        -- right. split; [done |]. exists content. split; [done |].
           rewrite Hoth; [done |]. intros ->. contradiction.
Qed.

(** C3 (amended): in [_check_for_significant_changes], for every pending
    file that can be read, the change is reported as significant with
    delta [d] exactly when the rule of section 4.5 says so: without a
    baseline it is significant with the current token count as delta;
    with a baseline and an unchanged hash it is not significant; with a
    changed hash it is significant if and only if the absolute token
    difference is at least [min_token_change], so a difference equal to
    the threshold is significant and one less is not; in each case the
    baseline of the file becomes its current hash and token count. A
    pending file that cannot be read is not reported, with or without a
    baseline, and its baseline stays as it was. *)
Theorem significant_changes_rule (fs : filesystem) (h : Handler)
    (file_path : string) :
  file_path ∈ pending_changes h ->
  let reported := (_check_for_significant_changes fs h).1 in
  let baseline := file_hashes (config h) !! file_path in
  let baseline' :=
    file_hashes (_check_for_significant_changes fs h).2 !! file_path in
  (forall content,
      fs file_path = ReadOk content ->
      let current_hash := md5_hexdigest content in
      let current_tokens := count_tokens content in
      (forall d, (file_path, d) ∈ reported <->
                 significance_spec (min_token_change (config h)) baseline
                   current_hash current_tokens = Some d)
      /\ (baseline = None -> (file_path, current_tokens) ∈ reported)
      /\ (forall prev_tokens,
            baseline = Some (current_hash, prev_tokens) ->
            forall d, (file_path, d) ∉ reported)
      /\ (forall prev_hash prev_tokens,
            baseline = Some (prev_hash, prev_tokens) ->
            current_hash ≠ prev_hash ->
            ((exists d, (file_path, d) ∈ reported) <->
             Z.abs (current_tokens - prev_tokens)
             >= min_token_change (config h))
            /\ (Z.abs (current_tokens - prev_tokens)
                = min_token_change (config h) ->
                (file_path, min_token_change (config h)) ∈ reported)
            /\ (Z.abs (current_tokens - prev_tokens)
                = min_token_change (config h) - 1 ->
                forall d, (file_path, d) ∉ reported))
      /\ baseline' = Some (current_hash, current_tokens))
  /\ (forall e,
        fs file_path = ReadError e ->
        (forall d, (file_path, d) ∉ reported) /\ baseline' = baseline).
Proof.
  intros Hpending reported baseline baseline'.
  destruct (check_loop_spec fs (elements (pending_changes h))
              (NoDup_elements _) [] (config h))
    as (_ & _ & _ & Hbase & Herr & Hsig).
  assert (Hin : file_path ∈ elements (pending_changes h))
    by now apply elem_of_elements.
  split.
  - intros content Hfs current_hash current_tokens.
    assert (Hrule : forall d, (file_path, d) ∈ reported <->
               significance_spec (min_token_change (config h)) baseline
                 current_hash current_tokens = Some d).
    { intros d. subst reported.
      unfold _check_for_significant_changes, check_paths.
      rewrite Hsig. split.
      - intros [Hnil | [_ (content' & Hfs' & Hs)]].
        + by apply elem_of_nil in Hnil.
        + rewrite Hfs in Hfs'. injection Hfs' as <-. exact Hs.
      - intros Hs. right. split; [exact Hin |]. now exists content. }
    split; [exact Hrule |].
    split; [| split; [| split]].
    + intros Hb. apply Hrule. now rewrite Hb.
    + intros prev_tokens Hb d Hd. apply Hrule in Hd. rewrite Hb in Hd.
      cbn in Hd. now rewrite String.eqb_refl in Hd.
    + intros prev_hash prev_tokens Hb Hne.
      apply String.eqb_neq in Hne.
      assert (Hcases : forall d, (file_path, d) ∈ reported <->
                (Z.abs (current_tokens - prev_tokens)
                 >= min_token_change (config h)
                 /\ d = Z.abs (current_tokens - prev_tokens))).
      { intros d. rewrite Hrule, Hb. cbn. rewrite Hne.
        destruct (Z.geb_spec (Z.abs (current_tokens - prev_tokens))
                    (min_token_change (config h))) as [Hge | Hlt].
        - split; [intros [= <-]; split; [lia | done] | intros [_ ->]; done].
        - split; [discriminate | intros [? _]; lia]. }
      split; [| split].
      * split.
        -- intros [d Hd]. now apply Hcases in Hd as [? _].
        -- intros Hge. eexists. apply Hcases. split; [exact Hge | reflexivity].
      * intros Heq. apply Hcases. split; [lia | now rewrite Heq].
      * intros Heq d Hd. apply Hcases in Hd as [Hge _]. lia.
    + exact (Hbase file_path content Hin Hfs).
  - intros e Hfs. split; [| exact (Herr file_path e Hin Hfs)].
    intros d Hd. subst reported.
    unfold _check_for_significant_changes, check_paths in Hd.
    apply Hsig in Hd as [Hnil | [_ (content & Hfs' & _)]].
    + by apply elem_of_nil in Hnil.
    + congruence.
Qed.

End DetectorFacts.

(* ===================================================================== *)
(** * Properties: batch processing, cooldown and association *)
(* ===================================================================== *)

Section BatchFacts.
Import Text Files Prompts Monitor.
Context `{PyRuntime}.

Lemma extends_refl (r : PromptRecord) : extends r r.
Proof. split; auto. Qed.

Lemma extends_trans (r1 r2 r3 : PromptRecord) :
  extends r1 r2 -> extends r2 r3 -> extends r1 r3.
Proof.
  intros [Hf12 Hc12] [Hf23 Hc23]. split; [auto |].
  intros p Hp. rewrite Hc23 by auto. now apply Hc12.
Qed.

Lemma extends_with_association (file_path : string) (d : Z) (r : PromptRecord) :
  file_path ∉ associated_files r ->
  extends r (with_association file_path d r).
Proof.
  intros Hnew. split; cbn.
  - intros p Hp. apply elem_of_app. now left.
  - intros p Hp. apply lookup_insert_ne. intros ->. contradiction.
Qed.

(** One call of [associate_file_with_active_prompt] on an active record:
    the record is extended and holds the path afterwards; a path that was
    new is recorded with the delta passed. *)
Lemma associate_step (file_path : string) (d : Z) (st : DbState)
    (l : nat) (r : PromptRecord) :
  active_prompt st = Some l -> heap st !! l = Some r ->
  exists r',
    heap (associate_file_with_active_prompt file_path d st).2 !! l = Some r'
    /\ extends r r'
    /\ file_path ∈ associated_files r'
    /\ (file_path ∉ associated_files r ->
        file_changes r' !! file_path = Some d).
Proof.
  intros Hact Hr.
  destruct (decide (file_path ∈ associated_files r)) as [Hin | Hnew].
  - rewrite (associate_present _ _ _ _ _ Hact Hr Hin). exists r.
    split; [exact Hr |]. split; [apply extends_refl |].
    split; [exact Hin | contradiction].
  - rewrite (associate_new _ _ _ _ _ Hact Hr Hnew). cbn [snd].
    rewrite save_heap. cbn [heap set_heap].
    exists (with_association file_path d r).
    split; [apply lookup_insert_eq |].
    split; [now apply extends_with_association |].
    split; [cbn; apply elem_of_app; right; apply list_elem_of_singleton; reflexivity |].
    intros _. cbn. apply lookup_insert_eq.
Qed.

(** The association loop of [_process_changes]. *)
Lemma associate_pending_loop (fs : filesystem) (paths : list string) :
  forall (st : DbState) (l : nat) (r : PromptRecord),
    active_prompt st = Some l -> heap st !! l = Some r ->
    let st' := foldl (associate_pending fs) st paths in
    active_prompt st' = Some l
    /\ prompts st' = prompts st
    /\ (forall l', l' ≠ l -> heap st' !! l' = heap st !! l')
    /\ exists r',
         heap st' !! l = Some r'
         /\ extends r r'
         /\ (forall p, p ∈ paths -> p ∈ associated_files r')
         /\ (forall p, p ∈ paths -> p ∉ associated_files r ->
               file_changes r' !! p = Some (count_tokens_in_file fs p)).
Proof.
  induction paths as [| q paths IH]; intros st l r Hact Hr; cbn [foldl].
  - cbn zeta. do 3 (split; [done |]). exists r.
    split; [done |]. split; [apply extends_refl |].
    split; intros p Hp; by apply elem_of_nil in Hp.
  - destruct (associate_step q (count_tokens_in_file fs q) st l r Hact Hr)
      as (r1 & Hr1 & Hext1 & Hq1 & Hnew1).
    fold (associate_pending fs st q) in Hr1.
    assert (Hact1 : active_prompt (associate_pending fs st q) = Some l).
    { unfold associate_pending. now rewrite associate_active_prompt. }
    destruct (IH _ l r1 Hact1 Hr1) as (Hact' & Hps' & Hoth' & r' & Hr' & Hext' & Hall' & Hval').
    cbn zeta. split; [exact Hact' |].
    split; [rewrite Hps'; unfold associate_pending; apply associate_prompts |].
    split.
    { intros l' Hne. rewrite Hoth' by done. unfold associate_pending.
      exact (associate_other _ _ _ l l' Hact Hne). }
    exists r'. split; [exact Hr' |].
    split; [now apply (extends_trans r r1 r') |].
    split.
    + intros p [-> | Hp]%elem_of_cons; [now apply Hext' | now apply Hall'].
    + intros p Hp Hnew.
      destruct (decide (p = q)) as [-> | Hne].
      * destruct Hext' as [_ Hch]. rewrite Hch by done. now apply Hnew1.
      * apply elem_of_cons in Hp as [-> | Hp]; [done |].
        destruct (decide (p ∈ associated_files r1)) as [Hin1 | Hnot1].
        -- (* p entered with q's step: impossible, only q did *)
           exfalso.
           destruct (decide (q ∈ associated_files r)) as [Hqin | Hqnew].
           ++ unfold associate_pending in Hr1.
              rewrite (associate_present _ _ _ _ _ Hact Hr Hqin) in Hr1.
              cbn in Hr1. rewrite Hr in Hr1. injection Hr1 as <-. contradiction.
           ++ unfold associate_pending in Hr1.
              rewrite (associate_new _ _ _ _ _ Hact Hr Hqnew) in Hr1.
              cbn [snd] in Hr1. rewrite save_heap in Hr1. cbn in Hr1.
              rewrite lookup_insert_eq in Hr1. injection Hr1 as <-.
              cbn in Hin1. apply elem_of_app in Hin1 as [? | Hs]; [done |].
              apply list_elem_of_singleton in Hs. done.
        -- now apply Hval'.
Qed.

(** The association loop of [trigger_auto_backup_with_prompts]. *)
Lemma associate_changed_loop (changed_files : list (string * Z)) :
  forall (st : DbState) (l : nat) (r : PromptRecord),
    heap st !! l = Some r ->
    let st' := foldl (associate_changed l) st changed_files in
    active_prompt st' = active_prompt st
    /\ prompts st' = prompts st
    /\ (forall l', l' ≠ l -> heap st' !! l' = heap st !! l')
    /\ exists r', heap st' !! l = Some r' /\ extends r r'.
Proof.
  induction changed_files as [| [p d] rest IH]; intros st l r Hr; cbn [foldl].
  - cbn zeta. do 3 (split; [done |]). exists r. split; [done | apply extends_refl].
  - assert (Hstep : associate_changed l st (p, d)
                    = if bool_decide (p ∉ associated_files r)
                      then set_heap (<[l := with_association p d r]> (heap st)) st
                      else st)
      by (unfold associate_changed; now rewrite Hr).
    rewrite Hstep. clear Hstep.
    case_bool_decide as Hnew.
    + destruct (IH (set_heap (<[l := with_association p d r]> (heap st)) st) l
                   (with_association p d r)) as (Ha & Hp & Ho & r' & Hr' & He).
      { cbn. apply lookup_insert_eq. }
      cbn zeta. split; [exact Ha |]. split; [exact Hp |].
      split.
      { intros l' Hne. rewrite Ho by done. cbn. now apply lookup_insert_ne. }
      exists r'. split; [exact Hr' |].
      eapply extends_trans; [| exact He]. now apply extends_with_association.
    + exact (IH st l r Hr).
Qed.

Lemma _process_changes_suppressed (fs : filesystem) (now : Z) (h : Handler) :
  cooldown_active now (config h) = true -> _process_changes fs now h = h.
Proof.
  intros Hcool. unfold _process_changes. rewrite Hcool.
  now case_bool_decide.
Qed.

Lemma cooldown_active_iff (now : Z) (c : AutoBackupConfig) :
  cooldown_active now c = true <->
  exists last, last_backup_time c = Some last
               /\ now - last < cooldown_minutes c * 60000000.
Proof.
  unfold cooldown_active, minutes.
  destruct (last_backup_time c) as [last |].
  - rewrite Z.ltb_lt. split; [intros ?; now exists last | now intros (? & [= <-] & ?)].
  - split; [discriminate | now intros (? & ? & _)].
Qed.

End BatchFacts.

Section BatchTheorems.
Import Text Files Prompts Monitor.
Context `{PyRuntime}.

(** A batch that the cooldown does not suppress, seen from the active
    record: it is extended by every pending path, nothing else on the
    heap moves, and the prompt stays active. *)
Lemma _process_changes_active (fs : filesystem) (now : Z) (h : Handler)
    (l : nat) (r : PromptRecord) :
  cooldown_active now (config h) = false ->
  active_prompt (prompt_database h) = Some l ->
  heap (prompt_database h) !! l = Some r ->
  let h' := _process_changes fs now h in
  active_prompt (prompt_database h') = Some l
  /\ prompts (prompt_database h') = prompts (prompt_database h)
  /\ (forall l', l' ≠ l ->
        heap (prompt_database h') !! l' = heap (prompt_database h) !! l')
  /\ exists r',
       heap (prompt_database h') !! l = Some r'
       /\ extends r r'
       /\ (forall p, p ∈ pending_changes h -> p ∈ associated_files r')
       /\ (forall p, p ∈ pending_changes h -> p ∉ associated_files r ->
             file_changes r' !! p = Some (count_tokens_in_file fs p)).
Proof.
  intros Hcool Hact Hr. unfold _process_changes. rewrite Hcool.
  case_bool_decide as Hempty.
  { cbn zeta. do 3 (split; [done |]). exists r. split; [done |].
    split; [apply extends_refl |].
    rewrite Hempty. split; intros p Hp; by apply not_elem_of_empty in Hp. }
  rewrite Hact.
  destruct (associate_pending_loop fs (elements (pending_changes h))
              (prompt_database h) l r Hact Hr)
    as (Hact1 & Hps1 & Hoth1 & r1 & Hr1 & Hext1 & Hall1 & Hval1).
  destruct (_check_for_significant_changes fs h) as [sig c].
  destruct sig as [| change sig].
  - cbn. split; [done |]. split; [done |]. split; [done |].
    exists r1. split; [done |]. split; [done |].
    split; intros p Hp; [apply Hall1 | apply Hval1]; now apply elem_of_elements.
  - cbn [trigger_auto_backup_with_prompts prompt_database config backups
           pending_changes].
    cbn zeta. rewrite Hact1.
    destruct (associate_changed_loop (change :: sig) _ l r1 Hr1)
      as (Hact2 & Hps2 & Hoth2 & r2 & Hr2 & Hext2).
    cbn [prompt_database].
    rewrite save_active_prompt, save_prompts, save_heap.
    split; [congruence |]. split; [congruence |].
    split; [intros l' Hne; rewrite Hoth2 by done; now apply Hoth1 |].
    exists r2. split; [done |].
    split; [now apply (extends_trans r r1 r2) |].
    destruct Hext2 as [Hf2 Hc2].
    split; intros p Hp%elem_of_elements.
    + apply Hf2. now apply Hall1.
    + intros Hnew. rewrite Hc2 by now apply Hall1. now apply Hval1.
Qed.

(** C4 (amended): when the cooldown gate suppresses a debounce batch (a
    prior backup exists and less than [cooldown_minutes] has elapsed), no
    snapshot is triggered for any pending change; the pending changes
    stay in the pending set, the per-file baselines and the last backup
    time are left as they were, and the prompt database is not touched:
    the batch is returned as it was found. *)
Theorem cooldown_gate_leaves_batch_pending (fs : filesystem) (now last : Z)
    (h : Handler) :
  last_backup_time (config h) = Some last ->
  now - last < cooldown_minutes (config h) * 60000000 ->
  let h' := _process_changes fs now h in
  backups h' = backups h
  /\ pending_changes h' = pending_changes h
  /\ file_hashes (config h') = file_hashes (config h)
  /\ last_backup_time (config h') = Some last
  /\ prompt_database h' = prompt_database h.
Proof.
  intros Hlast Helapsed.
  assert (Hcool : cooldown_active now (config h) = true)
    by (apply cooldown_active_iff; now exists last).
  cbn zeta. rewrite (_process_changes_suppressed fs now h Hcool).
  now rewrite Hlast.
Qed.

(** C5 (amended): whenever a prompt is active and the cooldown gate does
    not suppress the batch, every pending changed path is associated with
    the active prompt during batch processing, whatever the significance
    verdict for that path and whether or not a snapshot is triggered; a
    path that was not associated before is recorded with the file's
    current token count, and no other record is touched. *)
Theorem pending_paths_associated_with_active_prompt (fs : filesystem)
    (now : Z) (h : Handler) (l : nat) (r : PromptRecord) :
  cooldown_active now (config h) = false ->
  active_prompt (prompt_database h) = Some l ->
  heap (prompt_database h) !! l = Some r ->
  let h' := _process_changes fs now h in
  exists r',
    heap (prompt_database h') !! l = Some r'
    /\ (forall p, p ∈ pending_changes h -> p ∈ associated_files r')
    /\ (forall p, p ∈ pending_changes h -> p ∉ associated_files r ->
          file_changes r' !! p = Some (count_tokens_in_file fs p))
    /\ (forall p, p ∈ associated_files r ->
          p ∈ associated_files r'
          /\ file_changes r' !! p = file_changes r !! p)
    /\ (forall l', l' ≠ l ->
          heap (prompt_database h') !! l' = heap (prompt_database h) !! l').
Proof.
  intros Hcool Hact Hr.
  destruct (_process_changes_active fs now h l r Hcool Hact Hr)
    as (_ & _ & Hoth & r' & Hr' & [Hf Hc] & Hall & Hval).
  cbn zeta. exists r'. split; [exact Hr' |]. split; [exact Hall |].
  split; [exact Hval |]. split; [| exact Hoth].
  intros p Hp. split; [now apply Hf | now apply Hc].
Qed.

End BatchTheorems.

Section BatchExamples.
Import Text Files Prompts Monitor Sample.

(** C4, as stated: with a backup 10 seconds ago and a five-minute
    cooldown the batch is suppressed, yet the pending path is still
    pending afterwards and its baseline has not been set. *)
Lemma cooldown_drops_nothing_counterexample :
  let h := sample_handler (Some 0) ∅ (db_with blank_record None) in
  let h' := _process_changes sample_fs 10000000 h in
  cooldown_active 10000000 (config h) = true
  /\ backups h' = []
  /\ "/a.py" ∈ pending_changes h'
  /\ file_hashes (config h') !! "/a.py" = None
  /\ ~ (pending_changes h' = ∅
        /\ file_hashes (config h') !! "/a.py"
           = Some (md5_hexdigest "print(1)", count_tokens "print(1)")).
Proof.
  cbn zeta.
  rewrite _process_changes_suppressed by reflexivity.
  split; [reflexivity |]. split; [reflexivity |].
  split; [cbn; set_solver |]. split; [reflexivity |].
  intros [_ Hbase]. cbn in Hbase. discriminate.
Qed.

(** C5, as stated: a prompt is active and a path is pending, but the
    cooldown gate suppresses the batch; afterwards the path is not among
    the active prompt's files. *)
Lemma cooldown_blocks_association_counterexample :
  let h := sample_handler (Some 0) ∅ (db_with blank_record (Some 0%nat)) in
  let h' := _process_changes sample_fs 10000000 h in
  active_prompt (prompt_database h) = Some 0%nat
  /\ "/a.py" ∈ pending_changes h
  /\ heap (prompt_database h') !! 0%nat = Some blank_record
  /\ "/a.py" ∉ associated_files blank_record.
Proof.
  cbn zeta.
  rewrite _process_changes_suppressed by reflexivity.
  split; [reflexivity |]. split; [cbn; set_solver |].
  split; [reflexivity |]. cbn. apply not_elem_of_nil.
Qed.

(** C2, as stated: the active record already holds ["/a.py"] with delta
    5; a repeat call with delta 9 fails and the stored delta stays 5. *)
Lemma associate_repeat_counterexample :
  let st := db_with sample_record (Some 0%nat) in
  associate_file_with_active_prompt "/a.py" 9 st = (false, st)
  /\ (heap st !! 0%nat ≫= fun r => file_changes r !! "/a.py") = Some 5
  /\ (heap (associate_file_with_active_prompt "/a.py" 9 st).2 !! 0%nat
        ≫= fun r => file_changes r !! "/a.py") ≠ Some 9.
Proof.
  cbn zeta.
  assert (Hcall : associate_file_with_active_prompt "/a.py" 9
                    (db_with sample_record (Some 0%nat))
                  = (false, db_with sample_record (Some 0%nat))).
  { apply (associate_present _ _ _ 0%nat sample_record); [reflexivity.. |].
    cbn. set_solver. }
  split; [exact Hcall |]. rewrite Hcall.
  split; [reflexivity | discriminate].
Qed.

End BatchExamples.

(* ===================================================================== *)
(** * Properties: recording a prompt moves the focus *)
(* ===================================================================== *)

Section RecordingFacts.
Import Text Files Prompts Monitor.
Context `{PyRuntime}.




End RecordingFacts.

(* ===================================================================== *)
(** * Properties: reconciliation import ([PromptDatabase.load]) *)
(* ===================================================================== *)

Section MergeFacts.
Import Text Prompts.
Context `{PyRuntime}.

(** ** The merge on lists of records *)

Lemma id_known_iff (recs : list PromptRecord) (p : JsonPrompt) :
  existsb (fun existing => bool_decide (rec_id existing = get_id p)) recs = true
  <-> get_id p ∈ rec_id <$> recs.
Proof.
  rewrite existsb_exists, list_elem_of_fmap. split.
  - intros (r & Hin & Heq). exists r. apply bool_decide_eq_true in Heq.
    split; [done | now apply list_elem_of_In].
  - intros (r & Heq & Hin). exists r.
    split; [now apply list_elem_of_In | now apply bool_decide_eq_true].
Qed.

Lemma merge_step_prefix (now : Z) recs p :
  recs `prefix_of` merge_step now recs p.
Proof.
  unfold merge_step. destruct (existsb _ recs); [done |].
  now apply prefix_app_r.
Qed.

Lemma merge_prefix (now : Z) (cdata : list JsonPrompt) :
  forall recs, recs `prefix_of` foldl (merge_step now) recs cdata.
Proof.
  induction cdata as [| p cdata IH]; intros recs; cbn [foldl]; [done |].
  etrans; [apply (merge_step_prefix now recs p) | apply IH].
Qed.

Lemma merge_step_NoDup (now : Z) recs p :
  NoDup (rec_id <$> recs) -> NoDup (rec_id <$> merge_step now recs p).
Proof.
  intros Hnd. unfold merge_step.
  destruct (existsb _ recs) eqn:Hknown; [done |].
  rewrite fmap_app. apply NoDup_app. split; [done |]. split.
  - intros x Hx [-> | Hnil]%elem_of_cons; [| by apply elem_of_nil in Hnil].
    cbn in Hx. apply id_known_iff in Hx. congruence.
  - apply NoDup_singleton.
Qed.

Lemma merge_NoDup (now : Z) (cdata : list JsonPrompt) :
  forall recs, NoDup (rec_id <$> recs) ->
               NoDup (rec_id <$> foldl (merge_step now) recs cdata).
Proof.
  induction cdata as [| p cdata IH]; intros recs Hnd; cbn [foldl]; [done |].
  apply IH. now apply merge_step_NoDup.
Qed.

Lemma merge_step_covers (now : Z) recs p :
  get_id p ∈ rec_id <$> merge_step now recs p.
Proof.
  unfold merge_step. destruct (existsb _ recs) eqn:Hknown.
  - now apply id_known_iff.
  - rewrite fmap_app. apply elem_of_app. right. cbn. apply elem_of_cons. now left.
Qed.

(** After the pass every identifier of [claude_data] is in the
    collection. *)
Lemma merge_covers (now : Z) (cdata : list JsonPrompt) :
  forall recs p, p ∈ cdata ->
                 get_id p ∈ rec_id <$> foldl (merge_step now) recs cdata.
Proof.
  induction cdata as [| q cdata IH]; intros recs p Hp; cbn [foldl].
  - by apply elem_of_nil in Hp.
  - apply elem_of_cons in Hp as [-> | Hp]; [| now apply IH].
    destruct (merge_prefix now cdata (merge_step now recs q)) as [k ->].
    rewrite fmap_app. apply elem_of_app. left. apply merge_step_covers.
Qed.

(** A pass whose identifiers are all known appends nothing. *)
Lemma merge_absorbs (now : Z) (cdata : list JsonPrompt) :
  forall recs, (forall p, p ∈ cdata -> get_id p ∈ rec_id <$> recs) ->
               foldl (merge_step now) recs cdata = recs.
Proof.
  induction cdata as [| q cdata IH]; intros recs Hall; cbn [foldl]; [done |].
  assert (Hq : merge_step now recs q = recs).
  { unfold merge_step.
    assert (existsb (fun existing => bool_decide (rec_id existing = get_id q)) recs
            = true) as ->; [| done].
    apply id_known_iff. apply Hall. apply elem_of_cons. now left. }
  rewrite Hq. apply IH. intros p Hp. apply Hall. apply elem_of_cons. now right.
Qed.

(** What the pass appends does not depend on the clock, apart from the
    creation times. *)
Lemma merge_content (now now' : Z) (cdata : list JsonPrompt) :
  forall recs recs',
    content <$> recs = content <$> recs' ->
    content <$> foldl (merge_step now) recs cdata
    = content <$> foldl (merge_step now') recs' cdata.
Proof.
  induction cdata as [| p cdata IH]; intros recs recs' Heq; cbn [foldl]; [done |].
  apply IH. unfold merge_step.
  assert (Hids : rec_id <$> recs = rec_id <$> recs').
  { apply (f_equal (fmap (fun c : option string * string * string * string * list string
                            => c.1.1.1.1))) in Heq.
    rewrite <- !list_fmap_compose in Heq. exact Heq. }
  assert (Hex : existsb (fun existing => bool_decide (rec_id existing = get_id p)) recs
                = existsb (fun existing => bool_decide (rec_id existing = get_id p)) recs').
  { apply eq_true_iff_eq. rewrite !id_known_iff. now rewrite Hids. }
  rewrite Hex. destruct (existsb _ recs'); [done |].
  rewrite !fmap_app. now rewrite Heq.
Qed.

(** In a duplicate-free collection that extends [recs], the entry with a
    given identifier of [recs] is the one of [recs]. *)
Lemma first_seen_kept (recs recs' : list PromptRecord) (r r' : PromptRecord) :
  recs `prefix_of` recs' -> NoDup (rec_id <$> recs') ->
  r ∈ recs -> r' ∈ recs' -> rec_id r' = rec_id r -> r' = r.
Proof.
  intros [k ->] Hnd Hr Hr' Hid.
  assert (Hinj : forall l : list PromptRecord, NoDup (rec_id <$> l) ->
                   forall a b, a ∈ l -> b ∈ l -> rec_id a = rec_id b -> a = b).
  { clear. induction l as [| x l IH]; intros Hnd a b Ha Hb Hab.
    - by apply elem_of_nil in Ha.
    - rewrite fmap_cons in Hnd. apply NoDup_cons in Hnd as [Hx Hnd].
      apply elem_of_cons in Ha as [-> | Ha]; apply elem_of_cons in Hb as [-> | Hb].
      + done.
      + exfalso. apply Hx. rewrite Hab. now apply list_elem_of_fmap_2.
      + exfalso. apply Hx. rewrite <- Hab. now apply list_elem_of_fmap_2.
      + now apply IH. }
  apply (Hinj _ Hnd); [done | | done].
  apply elem_of_app. now left.
Qed.

(** In a collection without repeated identifiers a record is determined
    by its identifier. *)
Lemma ids_distinct_inj (recs : list PromptRecord) :
  NoDup (rec_id <$> recs) ->
  forall a b, a ∈ recs -> b ∈ recs -> rec_id a = rec_id b -> a = b.
Proof.
  induction recs as [| x l IH]; intros Hnd a b Ha Hb Hab.
  - by apply elem_of_nil in Ha.
  - rewrite fmap_cons in Hnd. apply NoDup_cons in Hnd as [Hx Hnd].
    apply elem_of_cons in Ha as [-> | Ha]; apply elem_of_cons in Hb as [-> | Hb].
    + done.
    + exfalso. apply Hx. rewrite Hab. now apply list_elem_of_fmap_2.
    + exfalso. apply Hx. rewrite <- Hab. now apply list_elem_of_fmap_2.
    + now apply IH.
Qed.

Lemma merge_step_ids (now : Z) recs q x :
  x ∈ rec_id <$> merge_step now recs q -> x ∈ rec_id <$> recs \/ x = get_id q.
Proof.
  unfold merge_step. destruct (existsb _ recs); [now left |].
  rewrite fmap_app. intros [Hx | Hx]%elem_of_app; [now left | right].
  cbn in Hx. now apply list_elem_of_singleton in Hx.
Qed.

(** The first entry of [claude_data] with an identifier the collection
    does not hold yet is the one that is imported. *)
Lemma merge_first (now : Z) (cdata : list JsonPrompt) :
  forall recs i p,
    cdata !! i = Some p ->
    (get_id p ∉ rec_id <$> recs) ->
    (forall j q, (j < i)%nat -> cdata !! j = Some q -> get_id q ≠ get_id p) ->
    imported_record now p ∈ foldl (merge_step now) recs cdata.
Proof.
  induction cdata as [| q cdata IH]; intros recs i p Hi Hnew Hfirst;
    [done |].
  cbn [foldl]. destruct i as [| i].
  - cbn in Hi. injection Hi as ->.
    destruct (merge_prefix now cdata (merge_step now recs p)) as [k ->].
    apply elem_of_app. left. unfold merge_step.
    destruct (existsb _ recs) eqn:Hknown.
    + apply id_known_iff in Hknown. contradiction.
    + apply elem_of_app. right. now apply list_elem_of_singleton.
  - rewrite lookup_cons in Hi. apply (IH _ i); [exact Hi | |].
    + intros [Hin | Heq]%merge_step_ids; [contradiction |].
      apply (Hfirst 0%nat q); [lia | done | done].
    + intros j q' Hj Hq'. apply (Hfirst (S j) q'); [lia | done].
Qed.

(** Where the records of the result come from. *)
Lemma merge_origin (now : Z) (cdata : list JsonPrompt) :
  forall recs r,
    r ∈ foldl (merge_step now) recs cdata ->
    r ∈ recs
    \/ exists p, p ∈ cdata /\ r = imported_record now p
                 /\ (get_id p ∉ rec_id <$> recs).
Proof.
  induction cdata as [| q cdata IH]; intros recs r Hr; cbn [foldl] in Hr;
    [now left |].
  destruct (IH _ _ Hr) as [Hstep | (p & Hp & -> & Hnew)].
  - unfold merge_step in Hstep.
    destruct (existsb _ recs) eqn:Hknown; [now left |].
    apply elem_of_app in Hstep as [Hin | ->%list_elem_of_singleton];
      [now left | right].
    exists q. split; [apply elem_of_cons; now left |]. split; [done |].
    intros Hin. apply id_known_iff in Hin. congruence.
  - right. exists p. split; [apply elem_of_cons; now right |].
    split; [done |]. intros Hin. apply Hnew.
    destruct (merge_step_prefix now recs q) as [k ->].
    rewrite fmap_app. apply elem_of_app. now left.
Qed.

End MergeFacts.

Section LoadFacts.
Import Text Prompts.
Context `{PyRuntime}.

(** ** The two passes on the state *)

Lemma omap_insert_fresh (m : gmap nat PromptRecord) (l0 : nat)
    (r : PromptRecord) (ps : list nat) :
  (forall l, l ∈ ps -> is_Some (m !! l)) -> m !! l0 = None ->
  omap (fun l => <[l0 := r]> m !! l) ps = omap (fun l => m !! l) ps.
Proof.
  intros Hwf Hfresh. induction ps as [| l ps IH]; [done |].
  cbn [omap list_omap].
  assert (Hne : l0 ≠ l).
  { intros ->. destruct (Hwf l) as [x Hx]; [apply elem_of_cons; now left |].
    congruence. }
  rewrite lookup_insert_ne by done.
  rewrite IH; [done |]. intros l' Hl'. apply Hwf. apply elem_of_cons. now right.
Qed.

Lemma fresh_not_allocated (m : gmap nat PromptRecord) : m !! fresh (dom m) = None.
Proof. apply not_elem_of_dom. apply is_fresh. Qed.

(** One turn of the loop over [claude_data]. *)
Lemma import_claude_prompt_spec (now : Z) (st : DbState) (p : JsonPrompt) :
  well_formed st ->
  let st' := import_claude_prompt now st p in
  well_formed st'
  /\ records st' = merge_step now (records st) p
  /\ prompt_database_json st' = prompt_database_json st
  /\ (forall l r, heap st !! l = Some r -> heap st' !! l = Some r).
Proof.
  intros Hwf. unfold import_claude_prompt, id_exists, merge_step.
  destruct (existsb _ (records st)); [by cbn zeta |].
  unfold new_prompt_record, alloc. cbn [heap set_uuid_drawn set_heap prompts].
  set (l := fresh (dom (heap st))).
  assert (Hfresh : heap st !! l = None) by apply fresh_not_allocated.
  rewrite alter_insert_eq.
  match goal with
  | |- context [<[l := ?r]> (heap st)] =>
      assert (r = imported_record now p) as ->
        by (unfold imported_record; cbn; now destruct (j_files p))
  end.
  cbn zeta. cbn [heap prompts set_heap set_prompts prompt_database_json].
  split; [| split; [| split]].
  - intros l' [Hl' | Hl']%elem_of_app; cbn.
    + destruct (Hwf l' Hl') as [x Hx]. exists x.
      rewrite lookup_insert_ne; [done |]. intros <-. congruence.
    + apply list_elem_of_singleton in Hl' as ->. rewrite lookup_insert_eq. eauto.
  - unfold records. cbn. rewrite omap_app. cbn.
    rewrite lookup_insert_eq. cbn.
    now rewrite (omap_insert_fresh _ _ _ _ Hwf Hfresh).
  - reflexivity.
  - intros l' r Hr. rewrite lookup_insert_ne; [done |]. intros <-. congruence.
Qed.

Lemma load_claude_loop (now : Z) (cdata : list JsonPrompt) :
  forall st, well_formed st ->
    let st' := foldl (import_claude_prompt now) st cdata in
    well_formed st'
    /\ records st' = foldl (merge_step now) (records st) cdata
    /\ prompt_database_json st' = prompt_database_json st.
Proof.
  induction cdata as [| p cdata IH]; intros st Hwf; cbn [foldl]; [done |].
  destruct (import_claude_prompt_spec now st p Hwf) as (Hwf1 & Hrec1 & Hjson1 & _).
  destruct (IH _ Hwf1) as (Hwf' & Hrec' & Hjson').
  cbn zeta. split; [done |]. split; [now rewrite Hrec', Hrec1 | congruence].
Qed.

(** The list comprehension over the primary file. *)
Lemma from_dict_all_spec (now : Z) (data : list JsonPrompt) :
  forall st,
    let res := from_dict_all now data st in
    (forall l r, heap st !! l = Some r -> heap res.2 !! l = Some r)
    /\ omap (fun l => heap res.2 !! l) res.1
       = from_dict_list now (uuid_drawn st) data
    /\ (forall l, l ∈ res.1 -> is_Some (heap res.2 !! l))
    /\ prompt_database_json res.2 = prompt_database_json st.
Proof.
  induction data as [| p data IH]; intros st; cbn [from_dict_all from_dict_list].
  - cbn. split; [done |]. split; [done |]. split; [| done].
    intros l Hl. by apply elem_of_nil in Hl.
  - unfold alloc. cbn [heap set_uuid_drawn].
    set (l := fresh (dom (heap st))).
    set (st1 := set_heap _ _).
    specialize (IH st1). cbn zeta in IH.
    destruct (from_dict_all now data st1) as [ls st'].
    cbn [fst snd] in *. destruct IH as (Hmono & Hrecs & Hsome & Hjson).
    assert (Hl : heap st' !! l = Some (from_dict now (uuid_drawn st) p)).
    { apply Hmono. subst st1. cbn. apply lookup_insert_eq. }
    split; [| split; [| split]].
    + intros l' r Hr. apply Hmono. subst st1. cbn.
      rewrite lookup_insert_ne; [done |]. intros <-.
      subst l. rewrite fresh_not_allocated in Hr. discriminate.
    + cbn [omap list_omap]. rewrite Hl. cbn. now rewrite Hrecs.
    + intros l' [-> | Hl']%elem_of_cons; [eauto | now apply Hsome].
    + exact Hjson.
Qed.

Lemma load_primary_spec (now : Z) (st : DbState) :
  well_formed st ->
  let st1 := (load_primary now st).2 in
  well_formed st1
  /\ prompt_database_json st1 = prompt_database_json st
  /\ records st1 = match prompt_database_json st with
                   | Parsed data => from_dict_list now (uuid_drawn st) data
                   | Corrupt | Missing => records st
                   end.
Proof.
  intros Hwf. unfold load_primary.
  destruct (prompt_database_json st) as [| | data] eqn:Hjson; [by cbn zeta.. |].
  pose proof (from_dict_all_spec now data st) as (Hmono & Hrecs & Hsome & Hj).
  destruct (from_dict_all now data st) as [ls st']. cbn [fst snd] in *.
  cbn zeta. split; [| split].
  - intros l Hl. cbn in Hl |- *. now apply Hsome.
  - cbn. congruence.
  - unfold records. cbn. exact Hrecs.
Qed.

Lemma load_spec (now : Z) (claude : json_file) (st : DbState) :
  well_formed st ->
  let st1 := (load_primary now st).2 in
  let st' := (load now claude st).2 in
  well_formed st'
  /\ prompt_database_json st' = prompt_database_json st
  /\ records st' = match claude with
                   | Parsed cdata => foldl (merge_step now) (records st1) cdata
                   | Corrupt | Missing => records st1
                   end.
Proof.
  intros Hwf.
  destruct (load_primary_spec now st Hwf) as (Hwf1 & Hjson1 & _).
  unfold load. destruct (load_primary now st) as [loaded st1].
  cbn [snd] in *. unfold load_claude.
  destruct claude as [| | cdata]; [by cbn zeta.. |].
  destruct (load_claude_loop now cdata st1 Hwf1) as (Hwf' & Hrec' & Hjson').
  cbn zeta. cbn [snd]. split; [done |]. split; [congruence | done].
Qed.

(** Records read from objects that all carry an identifier. *)
Lemma from_dict_list_ids (now : Z) (data : list JsonPrompt) :
  Forall (fun p => is_Some (j_id p)) data ->
  forall n, rec_id <$> from_dict_list now n data = get_id <$> data.
Proof.
  induction 1 as [| p data [v Hv] _ IH]; intros n; [done |].
  cbn [from_dict_list]. rewrite !fmap_cons, IH. f_equal.
  unfold from_dict, get_id. cbn. now rewrite Hv.
Qed.

Lemma from_dict_list_content (now now' : Z) (data : list JsonPrompt) :
  Forall (fun p => is_Some (j_id p)) data ->
  forall n n', content <$> from_dict_list now n data
               = content <$> from_dict_list now' n' data.
Proof.
  induction 1 as [| p data [v Hv] _ IH]; intros n n'; [done |].
  cbn [from_dict_list]. rewrite !fmap_cons, (IH (S (S n)) (S (S n'))). f_equal.
  unfold from_dict, content. cbn. now rewrite Hv.
Qed.

Lemma primary_records_distinct (now : Z) (st : DbState) :
  well_formed st -> primary_ids_distinct st ->
  NoDup (rec_id <$> records (load_primary now st).2).
Proof.
  intros Hwf Hdist.
  destruct (load_primary_spec now st Hwf) as (_ & _ & ->).
  unfold primary_ids_distinct in Hdist.
  destruct (prompt_database_json st) as [| | data]; [done.. |].
  destruct Hdist as [Hids Hnd]. now rewrite from_dict_list_ids.
Qed.

(** C1 (amended): provided the identifiers the collection holds when the
    pass over [claude_prompts.json] starts are pairwise distinct (those of
    the records of [prompt_database.json], which [load] takes over without
    comparing them), [PromptDatabase.load] yields a collection with exactly
    one entry per identifier. The collection is the one the first pass
    leaves, followed by what the loop over [claude_prompts.json] appends,
    entry by entry in the order of the file: an entry whose identifier is
    already present, from the first pass or from an earlier entry of the
    same file, is skipped and the record already present is kept
    unchanged, its [prompt_text] included; the first entry of the file
    with a new identifier is the one that is imported, and the record
    with that identifier says what that entry says. Every identifier of
    [claude_prompts.json] is in the result, every record of the result
    comes from the first pass or from such an entry, and running the same
    import again, at any later time, changes nothing in what the records
    say. *)
Theorem load_one_entry_per_id (now now' : Z) (claude : json_file)
    (st : DbState) :
  well_formed st ->
  primary_ids_distinct st ->
  let st1 := (load_primary now st).2 in
  let st' := (load now claude st).2 in
  NoDup (record_ids st')
  /\ records st1 `prefix_of` records st'
  /\ (forall r r', r ∈ records st1 -> r' ∈ records st' ->
                   rec_id r' = rec_id r ->
                   r' = r /\ prompt_text r' = prompt_text r)
  /\ (forall cdata p, claude = Parsed cdata -> p ∈ cdata ->
                      get_id p ∈ record_ids st')
  /\ content <$> records (load now' claude st').2 = content <$> records st'
  /\ records st1 = match prompt_database_json st with
                   | Parsed data => from_dict_list now (uuid_drawn st) data
                   | Corrupt | Missing => records st
                   end
  /\ records st' = match claude with
                   | Parsed cdata =>
                       foldl (fun recs p =>
                                if existsb (fun existing =>
                                              bool_decide
                                                (rec_id existing = get_id p))
                                           recs
                                then recs
                                else recs ++ [imported_record now p])
                             (records st1) cdata
                   | Corrupt | Missing => records st1
                   end
  /\ (forall cdata i p,
        claude = Parsed cdata -> cdata !! i = Some p ->
        (get_id p ∉ record_ids st1) ->
        (forall j q, (j < i)%nat -> cdata !! j = Some q ->
                     get_id q ≠ get_id p) ->
        imported_record now p ∈ records st'
        /\ (forall r', r' ∈ records st' -> rec_id r' = get_id p ->
                       r' = imported_record now p
                       /\ prompt_text r' = default "" (j_prompt_text p)))
  /\ (forall r', r' ∈ records st' ->
        r' ∈ records st1
        \/ exists cdata p,
             claude = Parsed cdata /\ p ∈ cdata
             /\ r' = imported_record now p
             /\ (get_id p ∉ record_ids st1)).
Proof.
  intros Hwf Hdist.
  pose proof (primary_records_distinct now st Hwf Hdist) as Hnd1.
  destruct (load_spec now claude st Hwf) as (Hwf' & Hjson' & Hrec').
  destruct (load_primary_spec now st Hwf) as (Hwf1 & Hjson1 & Hrec1).
  cbn zeta.
  set (st1 := (load_primary now st).2) in *.
  set (st' := (load now claude st).2) in *.
  assert (Hnd' : NoDup (rec_id <$> records st')).
  { rewrite Hrec'. destruct claude as [| | cdata]; [done.. |].
    now apply merge_NoDup. }
  assert (Hpre : records st1 `prefix_of` records st').
  { rewrite Hrec'. destruct claude as [| | cdata]; [done.. |].
    apply merge_prefix. }
  split; [exact Hnd' |]. split; [exact Hpre |].
  split; [| split; [| split; [| split; [| split; [| split]]]]].
  - intros r r' Hr Hr' Hid.
    assert (r' = r) as -> by exact (first_seen_kept _ _ _ _ Hpre Hnd' Hr Hr' Hid).
    done.
  - intros cdata p -> Hp. unfold record_ids. rewrite Hrec'.
    now apply merge_covers.
  - destruct (load_spec now' claude st' Hwf') as (_ & _ & Hrec'').
    destruct (load_primary_spec now' st' Hwf') as (_ & _ & Hrec1'').
    rewrite Hrec''. rewrite Hrec1''. rewrite Hjson'.
    rewrite Hrec'. rewrite Hrec1.
    unfold primary_ids_distinct in Hdist.
    destruct (prompt_database_json st) as [| | data] eqn:Hjson.
    + (* no primary file: the second pass finds every identifier *)
      destruct claude as [| | cdata]; [done.. |].
      rewrite merge_absorbs; [done |].
      intros p Hp. now apply merge_covers.
    + destruct claude as [| | cdata]; [done.. |].
      rewrite merge_absorbs; [done |].
      intros p Hp. now apply merge_covers.
    + destruct Hdist as [Hids _].
      destruct claude as [| | cdata].
      * now apply from_dict_list_content.
      * now apply from_dict_list_content.
      * apply merge_content. now apply from_dict_list_content.
  - exact Hrec1.
  - exact Hrec'.
  - intros cdata i p -> Hi Hnew Hfirst.
    assert (Hin : imported_record now p ∈ records st').
    { rewrite Hrec'. now apply (merge_first now cdata _ i). }
    split; [exact Hin |]. intros r' Hr' Hid.
    assert (r' = imported_record now p) as ->
      by (apply (ids_distinct_inj _ Hnd'); done).
    done.
  - intros r' Hr'. rewrite Hrec' in Hr'.
    destruct claude as [| | cdata]; [now left.. |].
    destruct (merge_origin now cdata _ _ Hr') as [Hin | (p & Hp & -> & Hnew)];
      [now left | right].
    exists cdata, p. done.
Qed.

End LoadFacts.

Section LoadExamples.
Import Text Prompts Sample.

(** C1, as stated: [prompt_database.json] holds two records with the
    identifier ["A"]; [load] takes both over, and the collection has two
    entries for that identifier. *)
Lemma load_duplicate_primary_counterexample :
  record_ids (load 0 Missing (empty_db duplicated_primary)).2
  = [Some "A"; Some "A"]
  /\ ~ NoDup (record_ids (load 0 Missing (empty_db duplicated_primary)).2).
Proof.
  assert (Hids : record_ids (load 0 Missing (empty_db duplicated_primary)).2
                 = [Some "A"; Some "A"]) by (vm_compute; reflexivity).
  split; [exact Hids |]. rewrite Hids. intros Hnd.
  apply NoDup_cons in Hnd as [Hnotin _]. apply Hnotin.
  apply elem_of_cons. now left.
Qed.

(** Two entries of [claude_prompts.json] with the identifier ["C"]: the
    first one is imported, the second one skipped. *)
Lemma load_repeated_entry_first_wins :
  prompt_text <$>
    records (load 0 (Parsed [ new_prompt "C" "2025-05-09T23:15:44" "one"
                                         "Claude" None [] "Web Browser";
                              new_prompt "C" "2025-05-09T23:15:44" "two"
                                         "Claude" None [] "Web Browser" ])
                  (empty_db Missing)).2
  = ["one"].
Proof. vm_compute. reflexivity. Qed.

Lemma empty_db_well_formed (disk : json_file) : well_formed (empty_db disk).
Proof. intros l Hl. by apply elem_of_nil in Hl. Defined.

(** The import of [sample_claude] into a collection read from a primary
    file with the single record ["A"]. *)
Lemma load_one_entry_per_id_witness :
  NoDup (record_ids
           (load 0 sample_claude (empty_db (Parsed [to_dict sample_record]))).2).
Proof.
  refine (proj1 (load_one_entry_per_id 0 0 sample_claude
                   (empty_db (Parsed [to_dict sample_record]))
                   (empty_db_well_formed _) _)).
  split.
  - repeat constructor. cbn. eauto.
  - cbn. apply NoDup_singleton.
Defined.

End LoadExamples.

(* ===================================================================== *)
(** * Properties: timestamps and the JSON wire format *)
(* ===================================================================== *)

Section WireFacts.
Import Text IsoFormat Prompts.
Context `{PyRuntime}.

Lemma prefix_app_self (needle rest : string) :
  String.prefix needle (needle +:+ rest) = true.
Proof.
  induction needle as [| c needle IH]; [now destruct rest |].
  rewrite app_cons. cbn [String.prefix]. now destruct (ascii_dec c c).
Qed.

(** A text contains every piece it is put together from. *)
Lemma contains_middle (before needle after : string) :
  contains needle (before +:+ needle +:+ after) = true.
Proof.
  induction before as [| c before IH].
  - rewrite app_empty_l. apply prefix_contains, prefix_app_self.
  - rewrite app_cons. now apply contains_cons.
Qed.

(** A timestamp with a ["T"] or a space in it is handed to
    [datetime.fromisoformat]. *)
Lemma separator_goes_to_fromisoformat (now : Z) (s : string) :
  contains "T" s = true \/ contains " " s = true ->
  parse_timestamp_body now (JString s) = call_fromisoformat s.
Proof.
  intros Hsep. unfold parse_timestamp_body.
  destruct (contains "T" s); [done |].
  destruct Hsep as [? | ->]; [discriminate | done].
Qed.

Lemma digit_digit_char (d : Z) :
  0 <= d <= 9 -> digit (digit_char d) = Some d.
Proof.
  intros Hd. unfold digit, digit_char.
  rewrite N_ascii_embedding by lia.
  assert (((48 <=? Z.to_N (48 + d))%N && (Z.to_N (48 + d) <=? 57)%N) = true)
    as ->.
  { apply andb_true_iff. split; apply N.leb_le; lia. }
  f_equal. lia.
Qed.

Lemma number_two_digits (n : Z) :
  0 <= n <= 99 -> number (two_digits n) = Some n.
Proof.
  intros Hn. unfold number, two_digits. cbn [digits_from].
  rewrite !digit_digit_char by (Z.div_mod_to_equations; lia).
  f_equal. Z.div_mod_to_equations. lia.
Qed.

Lemma number_four_digits (n : Z) :
  0 <= n <= 9999 -> number (four_digits n) = Some n.
Proof.
  intros Hn. unfold number, four_digits. cbn [digits_from].
  rewrite !digit_digit_char by (Z.div_mod_to_equations; lia).
  f_equal. Z.div_mod_to_equations. lia.
Qed.

Lemma number_six_digits (n : Z) :
  0 <= n <= 999999 -> number (six_digits n) = Some n.
Proof.
  intros Hn. unfold number, six_digits. cbn [digits_from].
  rewrite !digit_digit_char by (Z.div_mod_to_equations; lia).
  f_equal. Z.div_mod_to_equations. lia.
Qed.

(** The ranges of the fields of a valid date-time. *)
Lemma valid_ranges (t : DateTime) :
  valid t = true ->
  0 <= year t <= 9999 /\ 0 <= month t <= 99 /\ 0 <= day t <= 99
  /\ 0 <= hour t <= 99 /\ 0 <= minute t <= 99 /\ 0 <= second t <= 99
  /\ 0 <= microsecond t <= 999999.
Proof.
  unfold valid. rewrite !andb_true_iff, !Z.leb_le.
  intros Hv.
  assert (days_in_month (year t) (month t) <= 31).
  { unfold days_in_month.
    repeat match goal with |- context [if ?b then _ else _] => destruct b end;
      lia. }
  lia.
Qed.

(** The seven digit runs [iso_text] writes denote the fields again. *)
Lemma datetime_of_written_fields (t : DateTime) :
  valid t = true ->
  datetime_of_fields (four_digits (year t)) (two_digits (month t))
    (two_digits (day t)) (two_digits (hour t)) (two_digits (minute t))
    (two_digits (second t)) (six_digits (microsecond t))
  = Some (to_microseconds t).
Proof.
  intros Hv. destruct (valid_ranges t Hv) as (? & ? & ? & ? & ? & ? & ?).
  unfold datetime_of_fields.
  rewrite number_four_digits, !number_two_digits, number_six_digits by done.
  destruct t. cbn [year month day hour minute second microsecond] in *.
  now rewrite Hv.
Qed.

Lemma datetime_of_written_fields_whole (t : DateTime) :
  valid t = true -> microsecond t = 0 ->
  datetime_of_fields (four_digits (year t)) (two_digits (month t))
    (two_digits (day t)) (two_digits (hour t)) (two_digits (minute t))
    (two_digits (second t)) []
  = Some (to_microseconds t).
Proof.
  intros Hv Hus. destruct (valid_ranges t Hv) as (? & ? & ? & ? & ? & ? & ?).
  unfold datetime_of_fields.
  rewrite number_four_digits, !number_two_digits by done.
  destruct t. cbn [year month day hour minute second microsecond] in *.
  subst. cbn [number digits_from]. now rewrite Hv.
Qed.

(** [iso_datetime] reads back what [iso_text] writes. *)
Lemma iso_datetime_iso_text (sep : ascii) (fraction : bool) (t : DateTime) :
  valid t = true ->
  sep = "T"%char \/ sep = " "%char ->
  (fraction = false -> microsecond t = 0) ->
  iso_datetime (iso_text sep fraction t) = Some (to_microseconds t).
Proof.
  intros Hv Hsep Hus. unfold iso_datetime, iso_text.
  rewrite list_ascii_of_string_of_list_ascii.
  pose proof (datetime_of_written_fields t Hv) as Hfull.
  unfold four_digits, two_digits, six_digits in *.
  destruct fraction.
  - cbn [app]. destruct Hsep as [-> | ->]; cbn [separators Ascii.eqb andb orb
      Bool.eqb]; exact Hfull.
  - pose proof (datetime_of_written_fields_whole t Hv (Hus eq_refl)) as Hwhole.
    unfold four_digits, two_digits in Hwhole.
    cbn [app]. destruct Hsep as [-> | ->]; cbn [separators Ascii.eqb andb orb
      Bool.eqb]; exact Hwhole.
Qed.

(** The separator is found in what [iso_text] writes. *)
Lemma iso_text_has_separator (sep : ascii) (fraction : bool) (t : DateTime) :
  contains (String sep "") (iso_text sep fraction t) = true.
Proof.
  unfold iso_text, four_digits, two_digits. cbn [app string_of_list_ascii].
  do 10 (apply contains_cons).
  apply prefix_contains. cbn [String.prefix].
  now destruct (ascii_dec sep sep).
Qed.

(** A written date-time is parsed to the time it denotes. *)
Lemma parse_timestamp_iso_text (now : Z) (sep : ascii) (fraction : bool)
    (t : DateTime) :
  valid t = true ->
  sep = "T"%char \/ sep = " "%char ->
  (fraction = false -> microsecond t = 0) ->
  parse_timestamp now (JString (iso_text sep fraction t)) = to_microseconds t.
Proof.
  intros Hv Hsep Hus. unfold parse_timestamp.
  rewrite separator_goes_to_fromisoformat.
  - unfold call_fromisoformat. now rewrite iso_datetime_iso_text.
  - destruct Hsep as [-> | ->]; [left | right]; apply iso_text_has_separator.
Qed.

(** C8: timestamp parsing in [PromptRecord.from_dict] never fails and
    accepts the four observed encodings. For every valid date and time,
    the text with ["T"] or a space between date and time, with the
    six-digit fraction or (for a whole second) without it, is parsed to
    that date and time and not replaced by the current time; so are the
    four strings of the specification. Whenever the body of the [try]
    block raises, whenever [datetime.fromisoformat] rejects the string and
    whenever no format applies, the record gets the current time
    instead. *)
Theorem parse_timestamp_lenient (now : Z) :
  (forall t : DateTime, valid t = true ->
      parse_timestamp now (JString (iso_text "T" true t)) = to_microseconds t
      /\ parse_timestamp now (JString (iso_text " " true t))
         = to_microseconds t
      /\ (microsecond t = 0 ->
          parse_timestamp now (JString (iso_text "T" false t))
          = to_microseconds t
          /\ parse_timestamp now (JString (iso_text " " false t))
             = to_microseconds t))
  /\ (parse_timestamp now (JString "2025-05-09T23:15:44.850257")
      = 1746832544850257
      /\ parse_timestamp now (JString "2025-05-09 23:15:44.850257")
         = 1746832544850257
      /\ parse_timestamp now (JString "2025-05-09 23:15:44")
         = 1746832544000000
      /\ parse_timestamp now (JString "2025-05-09T23:15:44")
         = 1746832544000000)
  /\ (forall ts e, parse_timestamp_body now ts = Raises e ->
                   parse_timestamp now ts = now)
  /\ (forall s, contains "T" s = true \/ contains " " s = true ->
                iso_datetime s = None -> fromisoformat s = None ->
                parse_timestamp now (JString s) = now)
  /\ (forall s, contains "T" s = false -> contains " " s = false ->
                try_formats s formats = None ->
                parse_timestamp now (JString s) = now)
  /\ (forall z, parse_timestamp now (JNumber z) = now)
  /\ parse_timestamp now JNull = now
  /\ (forall n data,
        timestamp (from_dict now n data)
        = parse_timestamp now (default (JString "") (j_timestamp data))).
Proof.
  split.
  { intros t Hv. split; [| split; [| intros Hus; split]];
      apply parse_timestamp_iso_text; auto; discriminate. }
  split.
  { repeat split; vm_compute; reflexivity. }
  split.
  { intros ts e Hbody. unfold parse_timestamp. rewrite Hbody. now destruct e. }
  split.
  { intros s Hsep Href Hiso. unfold parse_timestamp.
    rewrite (separator_goes_to_fromisoformat now s Hsep).
    unfold call_fromisoformat. now rewrite Href, Hiso. }
  split.
  { intros s HT Hsp Hfmt. unfold parse_timestamp, parse_timestamp_body.
    now rewrite HT, Hsp, Hfmt. }
  split; [reflexivity |]. split; reflexivity.
Qed.

(** C9 (amended): the JSON wire-format shape {id, timestamp, prompt_text,
    description, model, files, source} is produced by [_add_to_json_db] of
    [llm-proxy-recorder/prompt_database.py], the writer of the proxy
    recorder: the object it appends to [claude_prompts.json] has exactly
    these seven keys; it is appended, and [True] returned, when the file
    is absent or holds a list and can be written, and otherwise [False]
    is returned and the file left as it was. Loading an object of this
    shape into a [PromptRecord], by [PromptRecord.from_dict] and by the
    import loop of [load], consumes id, prompt_text, description, model
    and files ([from_dict] also timestamp); the source key is not
    consumed: the record's [source] is "Unknown" whatever the object
    says. The canonical writer [PromptRecord.to_dict], through which
    [save] and the extension server write [prompt_database.json], produces
    other keys. *)
Theorem wire_shape_produced_and_consumed :
  (forall id ts text llm desc files src,
      keys (new_prompt id ts text llm desc files src)
      = ["id"; "timestamp"; "prompt_text"; "description"; "model"; "files";
         "source"])
  /\ (forall id ts text llm desc files src prompts,
        _add_to_json_db id ts text llm desc files src true (Parsed prompts)
        = (true, Parsed (prompts ++ [new_prompt id ts text llm desc files src]))
        /\ _add_to_json_db id ts text llm desc files src true Missing
           = (true, Parsed [new_prompt id ts text llm desc files src]))
  /\ (forall id ts text llm desc files src writable file,
        writable = false \/ file = Corrupt ->
        _add_to_json_db id ts text llm desc files src writable file
        = (false, file))
  /\ (forall now n id ts text llm desc files src,
        let o := new_prompt id ts text llm desc files src in
        let r := from_dict now n o in
        rec_id r = Some id
        /\ timestamp r = parse_timestamp now (JString ts)
        /\ Some (prompt_text r) = j_prompt_text o
        /\ Some (description r) = j_description o
        /\ Some (llm_used r) = j_model o
        /\ Some (associated_files r) = j_files o
        /\ source r = "Unknown")
  /\ (forall now id ts text llm desc files src,
        let o := new_prompt id ts text llm desc files src in
        let r := imported_record now o in
        rec_id r = Some id
        /\ Some (prompt_text r) = j_prompt_text o
        /\ Some (description r) = j_description o
        /\ Some (llm_used r) = j_model o
        /\ Some (associated_files r) = j_files o
        /\ source r = "Unknown")
  /\ (forall now n id ts text llm desc files src src',
        from_dict now n (new_prompt id ts text llm desc files src)
        = from_dict now n (new_prompt id ts text llm desc files src'))
  /\ (forall r,
        keys (to_dict r)
        = ["id"; "timestamp"; "prompt_text"; "description"; "llm_used";
           "associated_files"; "file_changes"; "retroactive_notes"]).
Proof.
  split; [reflexivity |].
  split; [intros; split; reflexivity |].
  split.
  { intros id ts text llm desc files src writable file [-> | ->];
      [now destruct file | reflexivity]. }
  split; [intros; cbn; repeat split |].
  split; [intros; cbn; repeat split |].
  split; reflexivity.
Qed.

End WireFacts.

Section Examples.
Import Text Files Prompts Monitor Sample.

(** C9, as stated: an object with the seven keys and the source
    "Web Browser" is loaded into a record whose [source] is "Unknown"; and
    the object [to_dict] writes for a canonical record has other keys. *)
Lemma wire_source_not_consumed_counterexample :
  j_source (new_prompt "A" "2025-05-09T23:15:44" "text" "Claude" None []
                       "Web Browser") = Some "Web Browser"
  /\ source (from_dict 0 0
               (new_prompt "A" "2025-05-09T23:15:44" "text" "Claude" None []
                           "Web Browser")) = "Unknown"
  /\ keys (to_dict sample_record)
     = ["id"; "timestamp"; "prompt_text"; "description"; "llm_used";
        "associated_files"; "file_changes"; "retroactive_notes"]
  /\ keys (to_dict sample_record)
     ≠ ["id"; "timestamp"; "prompt_text"; "description"; "model"; "files";
        "source"].
Proof. repeat split; try reflexivity. discriminate. Qed.

(** A first association of ["/a.py"] with the active record. *)
Lemma associate_file_with_active_prompt_cases_witness :
  exists st' r',
    associate_file_with_active_prompt "/a.py" 7
      (db_with blank_record (Some 0%nat)) = (true, st')
    /\ heap st' !! 0%nat = Some r'
    /\ file_changes r' !! "/a.py" = Some 7.
Proof.
  destruct (proj2 (proj2 (proj2 (associate_file_with_active_prompt_cases "/a.py" 7
                                   (db_with blank_record (Some 0%nat)))))
              0%nat blank_record eq_refl eq_refl (not_elem_of_nil _))
    as (st' & r' & Hcall & Hr' & _ & Hdelta & _).
  exists st', r'. split; [exact Hcall |]. split; [exact Hr' | exact Hdelta].
Defined.

(** A file of 8 tokens against a baseline of 5 and a threshold of 3. *)
Lemma significant_changes_rule_witness :
  ("/a.py", 3) ∈
    (_check_for_significant_changes sample_fs
       (sample_handler None {["/a.py" := ("old", 5)]}
                       (db_with blank_record None))).1.
Proof.
  pose proof (proj1 (significant_changes_rule sample_fs
                       (sample_handler None {["/a.py" := ("old", 5)]}
                                       (db_with blank_record None))
                       "/a.py"
                       (proj2 (elem_of_singleton _ _) eq_refl))
                "print(1)" eq_refl)
    as Hrule.
  cbn zeta in Hrule. destruct Hrule as (_ & _ & _ & Hchanged & _).
  destruct (Hchanged "old" 5) as (_ & Hat & _).
  - apply lookup_singleton_eq.
  - discriminate.
  - apply Hat. reflexivity.
Defined.

(** C3, as stated: a pending path without baseline that cannot be read is
    not judged significant; nothing is reported and no baseline is
    stored. *)
Lemma unreadable_file_not_significant_counterexample :
  let h := {| config := {| min_token_change := 3; cooldown_minutes := 5;
                           last_backup_time := None; file_hashes := ∅ |};
              pending_changes := {["/gone.py"]};
              prompt_database := db_with blank_record None;
              backups := [] |} in
  "/gone.py" ∈ pending_changes h
  /\ file_hashes (config h) !! "/gone.py" = None
  /\ sample_fs "/gone.py" = ReadError "[Errno 2] No such file or directory"
  /\ (_check_for_significant_changes sample_fs h).1 = []
  /\ file_hashes (_check_for_significant_changes sample_fs h).2 !! "/gone.py"
     = None.
Proof.
  cbn zeta. split; [exact (proj2 (elem_of_singleton _ _) eq_refl) |].
  repeat split; vm_compute; reflexivity.
Qed.

(** A backup 10 seconds ago with a five-minute cooldown. *)
Lemma cooldown_gate_leaves_batch_pending_witness :
  pending_changes
    (_process_changes sample_fs 10000000
       (sample_handler (Some 0) ∅ (db_with blank_record (Some 0%nat))))
  = {["/a.py"]}.
Proof.
  exact (proj1 (proj2 (cooldown_gate_leaves_batch_pending sample_fs 10000000 0
                         (sample_handler (Some 0) ∅
                                         (db_with blank_record (Some 0%nat)))
                         eq_refl eq_refl))).
Defined.

(** No backup yet: the pending path reaches the active record. *)
Lemma pending_paths_associated_witness :
  exists r',
    heap (prompt_database
            (_process_changes sample_fs 0
               (sample_handler None ∅ (db_with blank_record (Some 0%nat)))))
      !! 0%nat = Some r'
    /\ "/a.py" ∈ associated_files r'.
Proof.
  destruct (pending_paths_associated_with_active_prompt sample_fs 0
              (sample_handler None ∅ (db_with blank_record (Some 0%nat)))
              0%nat blank_record eq_refl eq_refl eq_refl)
    as (r' & Hr' & Hall & _).
  exists r'. split; [exact Hr' |].
  apply Hall. exact (proj2 (elem_of_singleton (C:=gset string) _ _) eq_refl).
Defined.

(** 9 May 2025, 23:15:44, written with a space and without fraction. *)
Lemma parse_timestamp_lenient_witness :
  parse_timestamp 0 (JString "2025-05-09 23:15:44") = 1746832544000000.
Proof.
  exact (proj2 (proj2 (proj2 (proj1 (parse_timestamp_lenient 0)
                                {| IsoFormat.year := 2025; IsoFormat.month := 5;
                                   IsoFormat.day := 9; IsoFormat.hour := 23;
                                   IsoFormat.minute := 15;
                                   IsoFormat.second := 44;
                                   IsoFormat.microsecond := 0 |}
                                eq_refl))
                  eq_refl)).
Defined.

End Examples.


(* ===================================================================== *)
(** * Properties: the snapshot codec *)
(* ===================================================================== *)

Section CodecFacts.
Import Text Files SnapshotCodec.
Context `{PyStr}.

(** ** Lines *)

Lemma app_assoc_string (a b c : string) : (a +:+ b) +:+ c = a +:+ (b +:+ c).
Proof.
  induction a as [| x a IH]; [reflexivity |].
  rewrite !app_cons. now rewrite IH.
Qed.

Lemma split_lines_nonempty (s : string) : split_lines s ≠ [].
Proof.
  induction s as [| c s IH]; cbn [split_lines]; [done |].
  destruct (Ascii.eqb c LF); [done |].
  now destruct (split_lines s).
Qed.

Lemma split_lines_one_line (s : string) :
  one_line s = true -> split_lines s = [s].
Proof.
  induction s as [| c s IH]; cbn [split_lines one_line]; [done |].
  intros [Hc Hs]%andb_true_iff. apply negb_true_iff in Hc. rewrite Hc.
  now rewrite (IH Hs).
Qed.

(** The lines of two texts joined by a line feed. *)
Lemma split_lines_app_LF (x s : string) :
  split_lines (x +:+ String LF s) = split_lines x ++ split_lines s.
Proof.
  induction x as [| c x IH].
  - rewrite app_empty_l. cbn [split_lines]. now rewrite Ascii.eqb_refl.
  - rewrite app_cons. cbn [split_lines]. rewrite IH.
    destruct (Ascii.eqb c LF); [done |].
    pose proof (split_lines_nonempty x).
    now destruct (split_lines x).
Qed.

Lemma join_lines_cons (x : string) (rest : list string) :
  rest ≠ [] -> join_lines (x :: rest) = x +:+ String LF (join_lines rest).
Proof. now destruct rest. Qed.

Lemma split_join_lines (items : list string) :
  items ≠ [] ->
  split_lines (join_lines items) = concat (map split_lines items).
Proof.
  induction items as [| x items IH]; [done |]. intros _.
  destruct items as [| y items].
  - cbn. now rewrite app_nil_r.
  - rewrite join_lines_cons by done. rewrite split_lines_app_LF.
    now rewrite IH.
Qed.

Lemma join_split_lines (s : string) : join_lines (split_lines s) = s.
Proof.
  induction s as [| c s IH]; [reflexivity |]. cbn [split_lines].
  pose proof (split_lines_nonempty s) as Hne.
  destruct (Ascii.eqb_spec c LF) as [-> | Hc].
  - rewrite join_lines_cons by done. now rewrite IH.
  - destruct (split_lines s) as [| l ls]; [done |].
    destruct ls as [| l' ls].
    + cbn in IH |- *. now rewrite IH.
    + rewrite join_lines_cons in IH |- * by done.
      rewrite app_cons. now rewrite IH.
Qed.

(** ** Leading line feeds *)

Lemma lstrip_newlines_app (a b : string) :
  exists rest, lstrip_newlines (a +:+ b) = lstrip_newlines a +:+ rest.
Proof.
  induction a as [| c a IH].
  - exists (lstrip_newlines b). reflexivity.
  - rewrite app_cons. cbn [lstrip_newlines].
    destruct (Ascii.eqb c LF); [exact IH |].
    exists b. reflexivity.
Qed.

(** ** The loop of the decoder *)

Lemma list_pair_ind {A} (P : list A -> Prop) :
  P [] -> (forall x, P [x]) ->
  (forall x y l, P l -> P (x :: y :: l)) ->
  forall l, P l.
Proof.
  intros Hnil Hone Hpair.
  assert (Hboth : forall l, P l /\ forall x, P (x :: l)).
  { induction l as [| y l [IH1 IH2]]; [now split |].
    split; [apply IH2 | intros x; now apply Hpair]. }
  intros l. apply Hboth.
Qed.

Lemma odd_range_step (start len : nat) :
  py_range start (start + S (S len)) 2
  = start :: py_range (S (S start)) (S (S start) + len) 2.
Proof.
  unfold py_range.
  replace (start + S (S len) - start + 2 - 1)%nat with (len + 1 + 1 * 2)%nat by lia.
  replace (S (S start) + len - S (S start) + 2 - 1)%nat with (len + 1)%nat by lia.
  rewrite Nat.div_add by lia. rewrite Nat.add_1_r. cbn [seq map].
  f_equal; [lia |]. rewrite <- seq_shift, map_map.
  apply map_ext. intros k. lia.
Qed.

Lemma odd_range_last (start len : nat) :
  (len <= 1)%nat ->
  py_range start (start + len) 2 = if (len =? 0)%nat then [] else [start].
Proof.
  intros Hlen. unfold py_range.
  replace (start + len - start + 2 - 1)%nat with (len + 1)%nat by lia.
  destruct len as [| [| len]]; [reflexivity | | lia].
  cbn. f_equal. lia.
Qed.

(** The index loop stores the pairs that follow the current position, in
    order. *)
Lemma parse_loop_pairs (rest : list string) :
  forall (pre : list string) (d : gmap string string),
    foldl (parse_step (pre ++ rest)) d
          (py_range (length pre) (length pre + length rest) 2)
    = foldl (fun d kv => <[kv.1 := kv.2]> d) d (block_pairs rest).
Proof.
  induction rest as [| x | x y rest IH] using list_pair_ind; intros pre d.
  - rewrite odd_range_last by (cbn; lia). reflexivity.
  - rewrite odd_range_last by (cbn; lia). cbn [length Nat.eqb foldl block_pairs].
    unfold parse_step. rewrite length_app. cbn [length].
    now rewrite (proj2 (Nat.ltb_ge _ _)) by lia.
  - cbn [length]. rewrite odd_range_step. cbn [foldl block_pairs].
    assert (Hstep : parse_step (pre ++ x :: y :: rest) d (length pre)
                    = <[strip x := lstrip_newlines y]> d).
    { unfold parse_step. rewrite length_app. cbn [length].
      rewrite (proj2 (Nat.ltb_lt _ _)) by lia.
      rewrite lookup_app_r by lia. rewrite Nat.sub_diag. cbn [lookup list_lookup].
      rewrite lookup_app_r by lia.
      replace (length pre + 1 - length pre)%nat with 1%nat by lia.
      reflexivity. }
    rewrite Hstep.
    specialize (IH (pre ++ [x; y]) (<[strip x := lstrip_newlines y]> d)).
    rewrite <- app_assoc in IH. cbn [app] in IH.
    rewrite length_app in IH. cbn [length] in IH.
    replace (length pre + 2)%nat with (S (S (length pre))) in IH by lia.
    exact IH.
Qed.

Lemma store_pairs_lookup (pairs : list (string * string)) :
  forall (d : gmap string string) (k : string),
    foldl (fun d kv => <[kv.1 := kv.2]> d) d pairs !! k
    = match last_binding k pairs with
      | Some v => Some v
      | None => d !! k
      end.
Proof.
  induction pairs as [| [k' v] pairs IH]; intros d k; [reflexivity |].
  cbn [foldl last_binding fst snd]. rewrite IH.
  destruct (last_binding k pairs); [reflexivity |].
  destruct (String.eqb_spec k k') as [-> | Hne].
  - apply lookup_insert_eq.
  - now apply lookup_insert_ne.
Qed.

(** The decoder stores, for every line [### path], the pair made of the
    odd-indexed split (the path) and the even-indexed split that follows
    (the content); a later pair for the same path replaces an earlier
    one. *)
Lemma parse_content_last_binding (content k : string) :
  parse_content content !! k
  = last_binding k (block_pairs (tail (re_split_headers content))).
Proof.
  unfold parse_content.
  destruct (re_split_headers content) as [| b0 rest]; [reflexivity |].
  pose proof (parse_loop_pairs rest [b0] ∅) as Hloop.
  cbn [app length tail] in Hloop |- *.
  replace (S (length rest)) with (1 + length rest)%nat by lia.
  rewrite Hloop, store_pairs_lookup.
  now destruct (last_binding k (block_pairs rest)).
Qed.

(** ** The splits of an encoded snapshot *)

Lemma blocks_of_lines_nonempty (lines : list string) :
  lines ≠ [] -> blocks_of_lines lines ≠ [].
Proof.
  destruct lines as [| l rest]; [done |]. intros _. cbn [blocks_of_lines].
  destruct (header_capture l); [done |].
  unfold glue. now destruct (blocks_of_lines rest).
Qed.

(** A line that is not a header adds no pair. *)
Lemma pairs_plain_cons (l : string) (rest : list string) :
  header_capture l = None ->
  block_pairs (tail (blocks_of_lines (l :: rest)))
  = block_pairs (tail (blocks_of_lines rest)).
Proof.
  intros Hl. cbn [blocks_of_lines]. rewrite Hl. unfold glue.
  now destruct (blocks_of_lines rest).
Qed.

Lemma pairs_plain_app (ls rest : list string) :
  Forall (fun l => header_capture l = None) ls ->
  block_pairs (tail (blocks_of_lines (ls ++ rest)))
  = block_pairs (tail (blocks_of_lines rest)).
Proof.
  induction 1 as [| l ls Hl _ IH]; [reflexivity |].
  cbn [app]. now rewrite pairs_plain_cons.
Qed.

(** A header line adds the pair of its path and of the text up to the next
    header. *)
Lemma pairs_header_cons (l path : string) (rest : list string) :
  header_capture l = Some path ->
  block_pairs (tail (blocks_of_lines (l :: rest)))
  = (strip path,
     lstrip_newlines (hd "" (glue "" (blocks_of_lines rest))))
    :: block_pairs (tail (blocks_of_lines rest)).
Proof.
  intros Hl. cbn [blocks_of_lines]. rewrite Hl. cbn [tail]. unfold glue.
  now destruct (blocks_of_lines rest).
Qed.

(** The first split of lines that start with a run of plain lines. *)
Lemma first_block_plain (ls rest : list string) :
  Forall (fun l => header_capture l = None) ls ->
  ls ≠ [] -> rest ≠ [] ->
  hd "" (blocks_of_lines (ls ++ rest))
  = join_lines ls +:+ String LF (hd "" (blocks_of_lines rest)).
Proof.
  intros Hplain. induction Hplain as [| l ls Hl Hls IH]; [done |].
  intros _ Hrest. cbn [app blocks_of_lines]. rewrite Hl.
  destruct ls as [| l' ls].
  - cbn [app join_lines]. unfold glue.
    pose proof (blocks_of_lines_nonempty rest Hrest).
    now destruct (blocks_of_lines rest).
  - specialize (IH ltac:(done) Hrest).
    rewrite join_lines_cons by done.
    pose proof (blocks_of_lines_nonempty ((l' :: ls) ++ rest) ltac:(done)) as Hne.
    unfold glue. destruct (blocks_of_lines ((l' :: ls) ++ rest)) as [| b bs];
      [done |].
    cbn [hd] in IH |- *. rewrite IH. now rewrite app_assoc_string.
Qed.

(** The text that follows a file's header line in the encoding begins with
    two line feeds and the file's text. *)
Lemma block_after_header (text : string) (more : list string) :
  plain_text text ->
  exists tail_text,
    hd "" (glue "" (blocks_of_lines ("" :: split_lines text ++ "" :: more)))
    = String LF (String LF (text +:+ tail_text)).
Proof.
  intros Hplain. cbn [blocks_of_lines header_capture].
  pose proof (first_block_plain (split_lines text) ("" :: more) Hplain
                (split_lines_nonempty text) ltac:(done)) as Hfirst.
  pose proof (blocks_of_lines_nonempty (split_lines text ++ "" :: more)) as Hne.
  destruct (blocks_of_lines (split_lines text ++ "" :: more)) as [| b bs].
  { exfalso. apply Hne; [| done]. pose proof (split_lines_nonempty text).
    now destruct (split_lines text). }
  cbn [hd] in Hfirst. rewrite join_split_lines in Hfirst.
  cbn [glue hd]. rewrite !app_empty_l. rewrite Hfirst. eauto.
Qed.

Lemma header_capture_header (path : string) :
  path ≠ "" -> header_capture ("### " +:+ path) = Some path.
Proof. destruct path; [done | reflexivity]. Qed.

(** The lines the encoder writes for the files. *)
Lemma file_items_lines (fs : filesystem) (files : list string) :
  Forall clean_path files ->
  concat (map split_lines (file_items fs files))
  = flat_map (fun p => ("### " +:+ p) :: "" ::
                         split_lines (file_text fs p) ++ [""]) files.
Proof.
  induction 1 as [| p files (_ & Hone & _) _ IH]; [reflexivity |].
  cbn [file_items map concat flat_map]. rewrite IH.
  rewrite (split_lines_one_line ("### " +:+ p)) by exact Hone.
  cbn [split_lines app]. now rewrite <- app_assoc.
Qed.

(** The pairs decoded from the lines of the files followed by plain
    lines: one per file, in order, whose content starts with the file's
    text stripped of its leading line feeds. *)
Lemma pairs_of_file_lines (fs : filesystem) (files after : list string) :
  Forall clean_path files ->
  (forall p, p ∈ files -> plain_text (file_text fs p)) ->
  Forall (fun l => header_capture l = None) after ->
  Forall2 (fun p kv =>
             kv.1 = p
             /\ exists rest, kv.2 = lstrip_newlines (file_text fs p) +:+ rest)
          files
          (block_pairs (tail (blocks_of_lines
             (flat_map (fun p => ("### " +:+ p) :: "" ::
                                   split_lines (file_text fs p) ++ [""]) files
              ++ after)))).
Proof.
  intros Hclean Hplain Hafter.
  induction Hclean as [| p files (Hne & Hone & Hstrip) _ IH].
  - cbn [flat_map app].
    rewrite <- (app_nil_r after), pairs_plain_app by done. constructor.
  - cbn [flat_map]. rewrite <- !app_assoc. cbn [app].
    rewrite (pairs_header_cons _ p) by now apply header_capture_header.
    assert (Hp : plain_text (file_text fs p))
      by (apply Hplain; apply elem_of_cons; now left).
    set (more := flat_map _ files ++ after).
    constructor.
    + cbn [fst snd]. split; [exact Hstrip |].
      destruct (block_after_header (file_text fs p) more Hp) as [t Ht].
      rewrite <- app_assoc. cbn [app]. rewrite Ht.
      cbn [lstrip_newlines]. rewrite Ascii.eqb_refl.
      apply lstrip_newlines_app.
    + rewrite pairs_plain_cons by reflexivity.
      rewrite <- app_assoc, pairs_plain_app by exact Hp.
      cbn [app]. rewrite pairs_plain_cons by reflexivity.
      apply IH. intros q Hq. apply Hplain. apply elem_of_cons. now right.
Qed.

(** Looking a path up among pairs that follow the list of files. *)
Lemma last_binding_files (P : string -> string -> Prop) (files : list string)
    (pairs : list (string * string)) :
  Forall2 (fun p kv => kv.1 = p /\ P p kv.2) files pairs ->
  forall k,
    (k ∈ files -> exists v, last_binding k pairs = Some v /\ P k v)
    /\ (k ∉ files -> last_binding k pairs = None).
Proof.
  induction 1 as [| p [k' v] files pairs [Hk Hv] _ IH]; intros k.
  - split; [intros Hin; by apply elem_of_nil in Hin | reflexivity].
  - cbn [fst snd] in Hk, Hv. subst k'. destruct (IH k) as [IHin IHout].
    cbn [last_binding]. split.
    + intros Hin. destruct (decide (k ∈ files)) as [Hfiles | Hfiles].
      * destruct (IHin Hfiles) as (w & -> & Hw). eauto.
      * rewrite (IHout Hfiles).
        apply elem_of_cons in Hin as [-> | ?]; [| done].
        rewrite String.eqb_refl. eauto.
    + intros Hout. apply not_elem_of_cons in Hout as [Hne Hout].
      rewrite (IHout Hout). apply String.eqb_neq in Hne. now rewrite Hne.
Qed.

(** The lines of an encoded snapshot: plain lines of the header, the lines
    of the files, plain lines of the footer. *)
Lemma build_combined_text_lines (fs : filesystem) (files : list string)
    (header footer : string) :
  Forall clean_path files -> plain_text header -> plain_text footer ->
  exists before after,
    Forall (fun l => header_capture l = None) before
    /\ Forall (fun l => header_capture l = None) after
    /\ (split_lines (build_combined_text fs files header footer)
        = before ++ flat_map (fun p => ("### " +:+ p) :: "" ::
                                split_lines (file_text fs p) ++ [""]) files
                 ++ after
        \/ (files = []
            /\ split_lines (build_combined_text fs files header footer) = [""])).
Proof.
  intros Hclean Hheader Hfooter. unfold build_combined_text.
  set (hitems := if truthy header then [header; ""] else []).
  set (fitems := if truthy footer then [footer] else []).
  assert (Hitems : (if truthy footer
                    then (hitems ++ file_items fs files) ++ [footer]
                    else hitems ++ file_items fs files)
                   = hitems ++ file_items fs files ++ fitems).
  { subst fitems. destruct (truthy footer);
      [now rewrite <- app_assoc | now rewrite app_nil_r]. }
  rewrite Hitems.
  exists (concat (map split_lines hitems)), (concat (map split_lines fitems)).
  split; [| split].
  - subst hitems. destruct (truthy header); [| constructor].
    cbn [map concat]. rewrite app_nil_r. apply Forall_app. split; [exact Hheader |].
    now repeat constructor.
  - subst fitems. destruct (truthy footer); [| constructor].
    cbn [map concat]. now rewrite app_nil_r.
  - destruct (hitems ++ file_items fs files ++ fitems) as [| x items] eqn:Hall.
    + right. apply app_eq_nil in Hall as [_ Hall].
      apply app_eq_nil in Hall as [Hfiles _].
      split; [| reflexivity]. now destruct files.
    + left. rewrite <- Hall. rewrite split_join_lines by (rewrite Hall; done).
      rewrite !map_app, !concat_app. now rewrite file_items_lines.
Qed.

(** C7 (amended): for every list of paths that are non-empty, on one line
    and left unchanged by [str.strip], and every header and footer,
    provided no line of the header, of the footer or of a file's text is
    itself a line [### x]: decoding the encoding gives a map whose keys are
    exactly the encoded paths, each mapped to a text that begins with that
    file's text without its leading line feeds, whatever the header and
    footer; with zero files the map is empty. The decoder splits on the
    lines that are ["### "] followed by at least one character, takes the
    odd-indexed splits as paths (after [str.strip]) and the even-indexed
    non-zero splits as content with every leading line feed stripped, and a
    path that appears twice keeps the content of its last occurrence. *)
Theorem snapshot_decode_of_encode (fs : filesystem) (files : list string)
    (header footer : string) :
  Forall clean_path files ->
  (forall p, p ∈ files -> plain_text (file_text fs p)) ->
  plain_text header ->
  plain_text footer ->
  let decoded := parse_content (build_combined_text fs files header footer) in
  (forall p, p ∈ files ->
     exists rest,
       decoded !! p = Some (lstrip_newlines (file_text fs p) +:+ rest))
  /\ (forall p, p ∉ files -> decoded !! p = None)
  /\ (files = [] -> decoded = ∅)
  /\ (forall (disk : filesystem) (backup_path : string),
        disk backup_path
        = ReadOk (build_combined_text fs files header footer) ->
        parse_combined_file disk backup_path = decoded)
  /\ (forall content k,
        parse_content content !! k
        = last_binding k (block_pairs (tail (re_split_headers content)))).
Proof.
  intros Hclean Hplain Hheader Hfooter decoded.
  assert (Hlook : forall k,
            (k ∈ files -> exists v, decoded !! k = Some v
                 /\ exists rest, v = lstrip_newlines (file_text fs k) +:+ rest)
            /\ (k ∉ files -> decoded !! k = None)).
  { intros k. subst decoded. rewrite parse_content_last_binding.
    unfold re_split_headers.
    destruct (build_combined_text_lines fs files header footer
                Hclean Hheader Hfooter)
      as (before & after & Hbefore & Hafter & [-> | [-> ->]]).
    - rewrite pairs_plain_app by exact Hbefore.
      exact (last_binding_files
               (fun p v => exists rest,
                    v = lstrip_newlines (file_text fs p) +:+ rest)
               files _
               (pairs_of_file_lines fs files after Hclean Hplain Hafter) k).
    - split; [intros Hin; by apply elem_of_nil in Hin | reflexivity]. }
  split; [| split; [| split; [| split]]].
  - intros p Hp. destruct (proj1 (Hlook p) Hp) as (v & Hv & rest & ->). eauto.
  - intros p Hp. exact (proj2 (Hlook p) Hp).
  - intros ->. apply map_eq. intros k. rewrite lookup_empty.
    apply (proj2 (Hlook k)). apply not_elem_of_nil.
  - intros disk backup_path Hdisk. unfold parse_combined_file. now rewrite Hdisk.
  - exact parse_content_last_binding.
Qed.

End CodecFacts.

Section CodecExamples.
Import Text Files SnapshotCodec Sample.

(** C7, as stated: the example of the specification. The two files are
    encoded with header "H" and footer "F"; the decoded content of
    [/b/c.txt] is its text followed by a blank line and the footer, that
    of [/a.py] has two more line feeds than the file. A file whose text
    has a line [### notes] comes back as two entries. *)
Lemma snapshot_round_trip_counterexample :
  file_text snapshot_fs "/b/c.txt" = "hello"
  /\ parse_content (build_combined_text snapshot_fs ["/a.py"; "/b/c.txt"] "H" "F")
       !! "/b/c.txt"
     = Some ("hello" +:+ String LF (String LF "F"))
  /\ parse_content (build_combined_text snapshot_fs ["/a.py"; "/b/c.txt"] "H" "F")
       !! "/b/c.txt"
     ≠ Some (file_text snapshot_fs "/b/c.txt")
  /\ parse_content (build_combined_text snapshot_fs ["/a.py"; "/b/c.txt"] "H" "F")
       !! "/a.py"
     = Some (file_text snapshot_fs "/a.py" +:+ String LF (String LF ""))
  /\ parse_content (build_combined_text snapshot_fs ["/d.md"] "" "") !! "notes"
     = Some ("body" +:+ String LF "")
  /\ parse_content (build_combined_text snapshot_fs ["/d.md"] "" "") !! "/d.md"
     = Some ("intro" +:+ String LF "").
Proof.
  split; [reflexivity |].
  assert (Hc : parse_content
                 (build_combined_text snapshot_fs ["/a.py"; "/b/c.txt"] "H" "F")
                 !! "/b/c.txt"
               = Some ("hello" +:+ String LF (String LF "F")))
    by (vm_compute; reflexivity).
  split; [exact Hc |]. split; [rewrite Hc; discriminate |].
  repeat split; vm_compute; reflexivity.
Qed.

(** The two files of the example satisfy the conditions of the amended
    round trip. *)
Lemma snapshot_decode_of_encode_witness :
  exists rest,
    parse_content (build_combined_text snapshot_fs ["/a.py"; "/b/c.txt"] "H" "F")
      !! "/b/c.txt"
    = Some (lstrip_newlines (file_text snapshot_fs "/b/c.txt") +:+ rest).
Proof.
  refine (proj1 (snapshot_decode_of_encode snapshot_fs ["/a.py"; "/b/c.txt"]
                   "H" "F" _ _ _ _) "/b/c.txt" _).
  - repeat constructor; discriminate.
  - intros p Hp.
    apply elem_of_cons in Hp as [-> | Hp];
      [| apply elem_of_cons in Hp as [-> | Hp]].
    + repeat constructor.
    + repeat constructor.
    + by apply elem_of_nil in Hp.
  - repeat constructor.
  - repeat constructor.
  - apply elem_of_cons. right. apply elem_of_cons. now left.
Defined.

End CodecExamples.

(* ===================================================================== *)
(** * Further properties: looking prompts up, deleting and reloading *)
(* ===================================================================== *)

Section LookupFacts.
Import Text Prompts Session.
Context `{PyRuntime}.

(** In a well-formed state the records line up with the references. *)
Lemma records_lookup (st : DbState) :
  well_formed st ->
  forall k l, prompts st !! k = Some l -> records st !! k = heap st !! l.
Proof.
  unfold well_formed, records. generalize (prompts st) as ps.
  induction ps as [| x ps IH]; intros Hwf k l Hk; [done |].
  destruct (Hwf x) as [r Hr]; [apply elem_of_cons; now left |].
  cbn [omap list_omap]. rewrite Hr. cbn.
  destruct k as [| k]; cbn in Hk |- *.
  - injection Hk as <-. now rewrite Hr.
  - apply IH; [| done]. intros y Hy. apply Hwf. apply elem_of_cons. now right.
Qed.

Lemma records_length (st : DbState) :
  well_formed st -> length (records st) = length (prompts st).
Proof.
  unfold well_formed, records. generalize (prompts st) as ps.
  induction ps as [| x ps IH]; intros Hwf; [done |].
  destruct (Hwf x) as [r Hr]; [apply elem_of_cons; now left |].
  cbn [omap list_omap]. rewrite Hr. cbn. f_equal. apply IH.
  intros y Hy. apply Hwf. apply elem_of_cons. now right.
Qed.

Lemma has_id_true (st : DbState) (prompt_id : option string) (l : nat) :
  has_id st prompt_id l = true <->
  exists r, heap st !! l = Some r /\ rec_id r = prompt_id.
Proof.
  unfold has_id. destruct (heap st !! l) as [r |].
  - rewrite bool_decide_eq_true. split; [eauto | now intros (? & [= <-] & ?)].
  - split; [discriminate | now intros (? & ? & _)].
Qed.

Lemma id_recorded_iff (st : DbState) (prompt_id : option string) :
  prompt_id ∈ record_ids st <->
  exists l, l ∈ prompts st /\ has_id st prompt_id l = true.
Proof.
  unfold record_ids, records. rewrite list_elem_of_fmap. split.
  - intros (r & -> & Hr). apply list_elem_of_omap in Hr as (l & Hl & Hr).
    exists l. split; [done |]. apply has_id_true. eauto.
  - intros (l & Hl & (r & Hr & <-)%has_id_true). exists r. split; [done |].
    apply list_elem_of_omap. eauto.
Qed.

Lemma get_prompt_found (prompt_id : string) (st : DbState) (l : nat) :
  get_prompt prompt_id st = Some l ->
  exists i r,
    prompts st !! i = Some l
    /\ heap st !! l = Some r /\ rec_id r = Some prompt_id
    /\ forall j l' r', (j < i)%nat -> prompts st !! j = Some l' ->
                       heap st !! l' = Some r' ->
                       rec_id r' ≠ Some prompt_id.
Proof.
  unfold get_prompt. intros Hfind.
  apply fmap_Some in Hfind as ([i l'] & Hfind & ->).
  apply list_find_Some in Hfind as (Hi & (r & Hr & Hid)%has_id_true & Hfirst).
  exists i, r. split; [done |]. split; [done |]. split; [done |].
  intros j y ry Hlt Hj Hy Hyid. apply (Hfirst j y Hj Hlt).
  apply has_id_true. eauto.
Qed.

Lemma get_prompt_absent (prompt_id : string) (st : DbState) :
  get_prompt prompt_id st = None <-> Some prompt_id ∉ record_ids st.
Proof.
  unfold get_prompt.
  rewrite fmap_None, list_find_None, id_recorded_iff, Forall_forall. split.
  - intros Hnone (l & Hl & Hid). now apply (Hnone l Hl).
  - intros Hnot l Hl Hid. apply Hnot. eauto.
Qed.

(** X1: [get_prompt] returns the first record of the collection that
    carries the identifier, and [None] exactly when no record does. *)
Theorem get_prompt_first_match (prompt_id : string) (st : DbState) :
  (forall l, get_prompt prompt_id st = Some l ->
     exists i r,
       prompts st !! i = Some l
       /\ heap st !! l = Some r /\ rec_id r = Some prompt_id
       /\ forall j l' r', (j < i)%nat -> prompts st !! j = Some l' ->
                          heap st !! l' = Some r' ->
                          rec_id r' ≠ Some prompt_id)
  /\ (get_prompt prompt_id st = None <-> Some prompt_id ∉ record_ids st).
Proof.
  split.
  - intros l Hl. now apply get_prompt_found.
  - apply get_prompt_absent.
Qed.

(** ** Recording, then looking up *)


Lemma has_id_insert_fresh (st : DbState) (h' : gmap nat PromptRecord)
    (l0 l : nat) (r : PromptRecord) (prompt_id : option string) :
  l ≠ l0 ->
  has_id (set_heap (<[l0 := r]> (heap st)) st) prompt_id l
  = has_id st prompt_id l.
Proof. intros Hne. unfold has_id. cbn. now rewrite lookup_insert_ne. Qed.


End LookupFacts.

Section ReloadFacts.
Import Text Prompts Session.
Context `{PyRuntime}.

Lemma save_records (st : DbState) : records (save st).2 = records st.
Proof. unfold save. now destruct (writable st). Qed.

Lemma save_well_formed (st : DbState) : well_formed st -> well_formed (save st).2.
Proof.
  intros Hwf l Hl. rewrite save_prompts in Hl. rewrite save_heap. now apply Hwf.
Qed.

Lemma save_written (st : DbState) :
  writable st = true ->
  prompt_database_json (save st).2 = Parsed (map to_dict (records st)).
Proof. intros Hw. unfold save. now rewrite Hw. Qed.

Lemma save_uuid (st : DbState) : uuid_drawn (save st).2 = uuid_drawn st.
Proof. unfold save. now destruct (writable st). Qed.

(** What [from_dict] makes of an object written by [to_dict]. *)
Lemma from_dict_to_dict (now : Z) (n : nat) (r : PromptRecord) :
  let r' := from_dict now n (to_dict r) in
  rec_id r' = rec_id r
  /\ prompt_text r' = prompt_text r
  /\ description r' = description r
  /\ file_changes r' = file_changes r
  /\ retroactive_notes r' = retroactive_notes r
  /\ llm_used r' = "Unknown"
  /\ associated_files r' = []
  /\ timestamp r' = parse_timestamp now (JString (isoformat (timestamp r))).
Proof. cbn. repeat split. Qed.

Lemma from_dict_list_to_dict (now : Z) (recs : list PromptRecord) :
  forall n,
    Forall2 (fun r r' =>
               rec_id r' = rec_id r
               /\ prompt_text r' = prompt_text r
               /\ description r' = description r
               /\ file_changes r' = file_changes r
               /\ retroactive_notes r' = retroactive_notes r
               /\ llm_used r' = "Unknown"
               /\ associated_files r' = [])
            recs (from_dict_list now n (map to_dict recs)).
Proof.
  induction recs as [| r recs IH]; intros n; cbn [map from_dict_list];
    constructor; [| apply IH].
  cbn. repeat split.
Qed.

(** X3: saving the collection and loading it again keeps, record by
    record and in order, the identifier, the prompt text, the description,
    the token deltas and the retroactive notes; the model label comes back
    as "Unknown" and the list of associated files comes back empty,
    because [to_dict] writes them under the keys [llm_used] and
    [associated_files] while [from_dict] reads [model] and [files]. *)
Theorem save_then_load_keeps (now : Z) (st : DbState) :
  well_formed st ->
  writable st = true ->
  let st' := (load now Missing (save st).2).2 in
  Forall2 (fun r r' =>
             rec_id r' = rec_id r
             /\ prompt_text r' = prompt_text r
             /\ description r' = description r
             /\ file_changes r' = file_changes r
             /\ retroactive_notes r' = retroactive_notes r
             /\ llm_used r' = "Unknown"
             /\ associated_files r' = [])
          (records st) (records st')
  /\ forall file_path, get_prompts_for_file file_path st' = [].
Proof.
  intros Hwf Hw. cbn zeta.
  pose proof (save_well_formed st Hwf) as Hwf1.
  destruct (load_spec now Missing (save st).2 Hwf1) as (Hwf' & _ & Hrec').
  destruct (load_primary_spec now (save st).2 Hwf1) as (_ & _ & Hrec1).
  rewrite (save_written st Hw) in Hrec1. rewrite Hrec1 in Hrec'.
  assert (Hall : Forall2 (fun r r' =>
             rec_id r' = rec_id r
             /\ prompt_text r' = prompt_text r
             /\ description r' = description r
             /\ file_changes r' = file_changes r
             /\ retroactive_notes r' = retroactive_notes r
             /\ llm_used r' = "Unknown"
             /\ associated_files r' = [])
          (records st) (records (load now Missing (save st).2).2)).
  { rewrite Hrec'. apply from_dict_list_to_dict. }
  split; [exact Hall |].
  intros file_path. apply elem_of_nil_inv. intros l Hl.
  apply list_elem_of_filter in Hl as [Hmentions Hl].
  unfold mentions in Hmentions.
  destruct (heap (load now Missing (save st).2).2 !! l) as [r' |] eqn:Hr';
    [| discriminate].
  apply bool_decide_eq_true in Hmentions.
  assert (Hin : r' ∈ records (load now Missing (save st).2).2)
    by (apply list_elem_of_omap; eauto).
  assert (Hempty : Forall (fun r' => associated_files r' = [])
                          (records (load now Missing (save st).2).2)).
  { clear -Hall. induction Hall as [| r r2 l1 l2 Hr _ IH]; constructor; [| done].
    apply Hr. }
  rewrite Forall_forall in Hempty. rewrite (Hempty r' Hin) in Hmentions.
  by apply elem_of_nil in Hmentions.
Qed.

(** ** The focus after a reload *)

Lemma from_dict_all_fresh (now : Z) (data : list JsonPrompt) :
  forall st,
    let res := from_dict_all now data st in
    (forall l, l ∈ res.1 -> heap st !! l = None)
    /\ active_prompt res.2 = active_prompt st.
Proof.
  induction data as [| p data IH]; intros st; cbn [from_dict_all].
  - cbn. split; [| done]. intros l Hl. by apply elem_of_nil in Hl.
  - unfold alloc. cbn [heap set_uuid_drawn].
    set (l := fresh (dom (heap st))). set (st1 := set_heap _ _).
    specialize (IH st1). cbn zeta in IH.
    destruct (from_dict_all now data st1) as [ls st']. cbn [fst snd] in *.
    destruct IH as [Hfresh Hact]. split; [| exact Hact].
    intros l' [-> | Hl']%elem_of_cons; [apply fresh_not_allocated |].
    specialize (Hfresh l' Hl'). subst st1. cbn in Hfresh.
    apply lookup_insert_None in Hfresh. tauto.
Qed.

Lemma import_claude_prompt_prompts (now : Z) (st : DbState) (p : JsonPrompt) :
  active_prompt (import_claude_prompt now st p) = active_prompt st
  /\ (forall l, l ∈ prompts (import_claude_prompt now st p) ->
                l ∈ prompts st \/ heap st !! l = None).
Proof.
  unfold import_claude_prompt. destruct (id_exists p st); [split; auto |].
  unfold new_prompt_record, alloc. cbn. split; [done |].
  intros l [Hl | Hl]%elem_of_app; [now left | right].
  apply list_elem_of_singleton in Hl as ->. apply fresh_not_allocated.
Qed.

Lemma load_claude_loop_prompts (now : Z) (cdata : list JsonPrompt) :
  forall st, well_formed st ->
    let st' := foldl (import_claude_prompt now) st cdata in
    active_prompt st' = active_prompt st
    /\ (forall l r, heap st !! l = Some r -> heap st' !! l = Some r)
    /\ (forall l, l ∈ prompts st' -> l ∈ prompts st \/ heap st !! l = None).
Proof.
  induction cdata as [| p cdata IH]; intros st Hwf; cbn [foldl].
  - cbn zeta. split; [done |]. split; [done |]. intros l Hl. now left.
  - destruct (import_claude_prompt_spec now st p Hwf) as (Hwf1 & _ & _ & Hmono1).
    destruct (import_claude_prompt_prompts now st p) as [Hact1 Hps1].
    destruct (IH _ Hwf1) as (Hact' & Hmono' & Hps').
    cbn zeta. split; [congruence |]. split; [auto |].
    intros l Hl. destruct (Hps' l Hl) as [Hl1 | Hnone].
    + exact (Hps1 l Hl1).
    + right. destruct (heap st !! l) as [r |] eqn:Hr; [| done].
      rewrite (Hmono1 l r Hr) in Hnone. discriminate.
Qed.

(** After a load that reads the primary file, no object that existed
    before is in the collection. *)
Lemma load_replaces_objects (now : Z) (claude : json_file)
    (data : list JsonPrompt) (st : DbState) :
  well_formed st -> prompt_database_json st = Parsed data ->
  let st' := (load now claude st).2 in
  active_prompt st' = active_prompt st
  /\ (forall l r, heap st !! l = Some r -> heap st' !! l = Some r)
  /\ (forall l, l ∈ prompts st' -> heap st !! l = None).
Proof.
  intros Hwf Hjson.
  destruct (load_primary_spec now st Hwf) as (Hwf1 & _ & _).
  assert (Hprim : active_prompt (load_primary now st).2 = active_prompt st
                  /\ (forall l r, heap st !! l = Some r ->
                                  heap (load_primary now st).2 !! l = Some r)
                  /\ (forall l, l ∈ prompts (load_primary now st).2 ->
                                heap st !! l = None)).
  { unfold load_primary. rewrite Hjson.
    pose proof (from_dict_all_spec now data st) as (Hmono & _ & _ & _).
    pose proof (from_dict_all_fresh now data st) as (Hfresh & Hact).
    destruct (from_dict_all now data st) as [ls st1]. cbn [fst snd] in *.
    cbn. split; [exact Hact |]. split; [exact Hmono | exact Hfresh]. }
  destruct Hprim as (Hact1 & Hmono1 & Hfresh1).
  unfold load. destruct (load_primary now st) as [loaded st1].
  cbn [snd] in *. unfold load_claude.
  destruct claude as [| | cdata]; [by cbn zeta.. |].
  destruct (load_claude_loop_prompts now cdata st1 Hwf1) as (Hact' & Hmono' & Hps').
  cbn zeta. cbn [snd]. split; [congruence |]. split; [auto |].
  intros l Hl. destruct (Hps' l Hl) as [Hl1 | Hnone]; [auto |].
  destruct (heap st !! l) as [r |] eqn:Hr; [| done].
  rewrite (Hmono1 l r Hr) in Hnone. discriminate.
Qed.

Lemma records_same_heap (ps : list nat) (h1 h2 : gmap nat PromptRecord) :
  (forall l, l ∈ ps -> h1 !! l = h2 !! l) ->
  omap (fun l => h1 !! l) ps = omap (fun l => h2 !! l) ps.
Proof.
  induction ps as [| x ps IH]; intros Hsame; [done |].
  cbn [omap list_omap]. rewrite Hsame by (apply elem_of_cons; now left).
  rewrite IH; [done |]. intros l Hl. apply Hsame. apply elem_of_cons. now right.
Qed.

Lemma filter_same_on (P1 P2 : nat -> Prop)
    `{!forall x, Decision (P1 x), !forall x, Decision (P2 x)} (l : list nat) :
  (forall x, x ∈ l -> P1 x <-> P2 x) -> filter P1 l = filter P2 l.
Proof.
  induction l as [| a l IH]; intros Hiff; [done |].
  assert (Ha : P1 a <-> P2 a) by (apply Hiff; apply elem_of_cons; now left).
  assert (Hl : filter P1 l = filter P2 l).
  { apply IH. intros x Hx. apply Hiff. apply elem_of_cons. now right. }
  destruct (decide (P1 a)).
  - rewrite !filter_cons_True by tauto. now rewrite Hl.
  - rewrite !filter_cons_False by tauto. exact Hl.
Qed.

(** X4: when [load] reads [prompt_database.json], the collection is
    rebuilt from new objects while [active_prompt] keeps referring to the
    old one: the active prompt is no longer a member of the collection,
    and associating a file with it afterwards changes neither the records
    of the collection nor the prompts listed for that file. *)
Theorem reload_detaches_active_prompt (now : Z) (claude : json_file)
    (data : list JsonPrompt) (st : DbState) (l : nat) (r : PromptRecord)
    (file_path : string) (token_change : Z) :
  well_formed st ->
  prompt_database_json st = Parsed data ->
  active_prompt st = Some l ->
  heap st !! l = Some r ->
  let st' := (load now claude st).2 in
  let st'' := (associate_file_with_active_prompt file_path token_change st').2 in
  active_prompt st' = Some l
  /\ heap st' !! l = Some r
  /\ (l ∉ prompts st')
  /\ records st'' = records st'
  /\ get_prompts_for_file file_path st'' = get_prompts_for_file file_path st'.
Proof.
  intros Hwf Hjson Hact Hr.
  destruct (load_replaces_objects now claude data st Hwf Hjson)
    as (Hact' & Hmono & Hfresh).
  cbn zeta. set (st' := (load now claude st).2) in *.
  assert (Hnotin : l ∉ prompts st').
  { intros Hl. specialize (Hfresh l Hl). congruence. }
  assert (Hsame : forall x, x ∈ prompts st' ->
            heap (associate_file_with_active_prompt file_path token_change st').2 !! x
            = heap st' !! x).
  { intros x Hx. apply (associate_other _ _ _ l); [congruence |].
    intros ->. contradiction. }
  split; [congruence |]. split; [auto |]. split; [exact Hnotin |].
  split.
  - unfold records. rewrite associate_prompts. now apply records_same_heap.
  - unfold get_prompts_for_file. rewrite associate_prompts.
    apply filter_same_on. intros x Hx. unfold mentions.
    now rewrite (Hsame x Hx).
Qed.

(** ** The endpoint [/associate_prompt], deletion, and the focus *)

Lemma has_id_with_file (st : DbState) (l x : nat) (r : PromptRecord)
    (file_path : string) (prompt_id : option string) :
  heap st !! l = Some r ->
  has_id (set_heap (<[l := with_file file_path r]> (heap st)) st) prompt_id x
  = has_id st prompt_id x.
Proof.
  intros Hr. unfold has_id. cbn. destruct (decide (x = l)) as [-> | Hne].
  - now rewrite lookup_insert_eq, Hr.
  - now rewrite lookup_insert_ne.
Qed.

Lemma get_prompt_same_ids (prompt_id : string) (st st' : DbState) :
  prompts st' = prompts st ->
  (forall x, has_id st' (Some prompt_id) x = has_id st (Some prompt_id) x) ->
  get_prompt prompt_id st' = get_prompt prompt_id st.
Proof.
  intros Hps Hids. unfold get_prompt. rewrite Hps. f_equal.
  apply list_find_ext. intros x. now rewrite Hids.
Qed.

Lemma has_id_save (st : DbState) (prompt_id : option string) (x : nat) :
  has_id (save st).2 prompt_id x = has_id st prompt_id x.
Proof. unfold has_id. now rewrite save_heap. Qed.

Lemma associate_prompt_missing (data : AssociateRequest) (st : DbState) :
  truthy_opt (req_prompt_id data) = false
  \/ truthy_opt (req_file_path data) = false ->
  associate_prompt data st = (MissingArgument, st).
Proof.
  intros Hmissing. unfold associate_prompt.
  destruct Hmissing as [-> | ->]; [reflexivity |].
  now rewrite orb_true_r.
Qed.

Lemma associate_prompt_present (pid fp : string) (st : DbState) :
  truthy pid = true -> truthy fp = true ->
  associate_prompt {| req_prompt_id := Some pid; req_file_path := Some fp |} st
  = match get_prompt pid st with
    | None => (PromptNotFound, st)
    | Some l =>
        match heap st !! l with
        | Some prompt =>
            if bool_decide (fp ∉ associated_files prompt)
            then (Associated,
                  (save (set_heap (<[l := with_file fp prompt]> (heap st)) st)).2)
            else (AlreadyAssociated, st)
        | None => (PromptNotFound, st)
        end
    end.
Proof.
  intros Htp Htf. unfold associate_prompt. cbn. now rewrite Htp, Htf.
Qed.

(** What [POST /associate_prompt] leaves behind. *)
Lemma associate_prompt_effects (data : AssociateRequest) (st : DbState) :
  let res := associate_prompt data st in
  (status res.1 ≠ 200%nat -> res.2 = st)
  /\ (status res.1 = 200%nat ->
      associate_prompt data res.2 = (AlreadyAssociated, res.2)
      /\ exists l r' prompt_id file_path,
           req_prompt_id data = Some prompt_id
           /\ req_file_path data = Some file_path
           /\ get_prompt prompt_id st = Some l
           /\ heap res.2 !! l = Some r'
           /\ file_path ∈ associated_files r')
  /\ (forall l r, heap st !! l = Some r ->
        exists r', heap res.2 !! l = Some r'
                   /\ file_changes r' = file_changes r
                   /\ rec_id r' = rec_id r)
  /\ prompts res.2 = prompts st
  /\ active_prompt res.2 = active_prompt st.
Proof.
  assert (Hquiet : forall resp : response,
            status resp ≠ 200%nat ->
            associate_prompt data st = (resp, st) ->
            let res := associate_prompt data st in
            (status res.1 ≠ 200%nat -> res.2 = st)
            /\ (status res.1 = 200%nat ->
                associate_prompt data res.2 = (AlreadyAssociated, res.2)
                /\ exists l r' prompt_id file_path,
                     req_prompt_id data = Some prompt_id
                     /\ req_file_path data = Some file_path
                     /\ get_prompt prompt_id st = Some l
                     /\ heap res.2 !! l = Some r'
                     /\ file_path ∈ associated_files r')
            /\ (forall l r, heap st !! l = Some r ->
                  exists r', heap res.2 !! l = Some r'
                             /\ file_changes r' = file_changes r
                             /\ rec_id r' = rec_id r)
            /\ prompts res.2 = prompts st
            /\ active_prompt res.2 = active_prompt st).
  { intros resp Hresp Hcall. cbn zeta. rewrite Hcall. cbn [fst snd].
    split; [done |]. split; [done |]. split; [eauto | done]. }
  destruct (truthy_opt (req_prompt_id data)) eqn:Hp;
    [| apply (Hquiet MissingArgument); [done |];
       apply associate_prompt_missing; now left].
  destruct (truthy_opt (req_file_path data)) eqn:Hf;
    [| apply (Hquiet MissingArgument); [done |];
       apply associate_prompt_missing; now right].
  destruct data as [[pid |] [fp |]]; try discriminate.
  cbn [req_prompt_id req_file_path truthy_opt] in *.
  pose proof (associate_prompt_present pid fp st Hp Hf) as Hcall.
  assert (Hfound : forall l, get_prompt pid st = Some l ->
                     exists r, heap st !! l = Some r).
  { intros l Hl.
    destruct (get_prompt_found pid st l Hl) as (_ & r & _ & Hr & _).
    eauto. }
  destruct (get_prompt pid st) as [l |] eqn:Hget;
    [| now apply (Hquiet PromptNotFound)].
  destruct (Hfound l eq_refl) as [r Hr]. rewrite Hr in Hcall.
  cbn zeta. case_bool_decide as Hnew.
  - (* a new association *)
    set (st1 := set_heap (<[l := with_file fp r]> (heap st)) st) in *.
    rewrite Hcall. cbn [fst snd status].
    assert (Hget1 : get_prompt pid (save st1).2 = Some l).
    { rewrite <- Hget. apply get_prompt_same_ids.
      - now rewrite save_prompts.
      - intros x. rewrite has_id_save. subst st1. now apply has_id_with_file. }
    assert (Hl1 : heap (save st1).2 !! l = Some (with_file fp r)).
    { rewrite save_heap. subst st1. cbn. apply lookup_insert_eq. }
    assert (Hin : fp ∈ associated_files (with_file fp r)).
    { cbn. apply elem_of_app. right. apply list_elem_of_singleton. reflexivity. }
    split; [done |]. split; [| split; [| split]].
    + intros _. split.
      * rewrite (associate_prompt_present pid fp _ Hp Hf), Hget1, Hl1.
        rewrite bool_decide_eq_false_2; [done |]. intros Hnot. now apply Hnot.
      * exists l, (with_file fp r), pid, fp. done.
    + intros x rx Hx. rewrite save_heap. subst st1. cbn.
      destruct (decide (x = l)) as [-> | Hne].
      * rewrite lookup_insert_eq. exists (with_file fp r).
        rewrite Hr in Hx. injection Hx as <-. done.
      * rewrite lookup_insert_ne by done. eauto.
    + now rewrite save_prompts.
    + now rewrite save_active_prompt.
  - (* already associated *)
    rewrite Hcall. cbn [fst snd status].
    split; [done |]. split; [| split; [eauto | done]].
    intros _. split; [exact Hcall |].
    exists l, r, pid, fp.
    split; [done |]. split; [done |]. split; [done |]. split; [done |].
    destruct (decide (fp ∈ associated_files r)); [done | contradiction].
Qed.

Lemma truthy_non_empty (s : string) : truthy s = true <-> s ≠ "".
Proof. destruct s; cbn; split; try done. Qed.

(** When [POST /associate_prompt] gives which answer. *)
Lemma associate_prompt_answers (data : AssociateRequest) (st : DbState) :
  let res := associate_prompt data st in
  (status res.1 = 400%nat <->
   truthy_opt (req_prompt_id data) = false
   \/ truthy_opt (req_file_path data) = false)
  /\ (forall prompt_id file_path,
        req_prompt_id data = Some prompt_id ->
        req_file_path data = Some file_path ->
        prompt_id ≠ "" -> file_path ≠ "" ->
        (status res.1 = 404%nat <-> Some prompt_id ∉ record_ids st)
        /\ (forall l r,
              get_prompt prompt_id st = Some l -> heap st !! l = Some r ->
              (file_path ∉ associated_files r ->
               res.1 = Associated
               /\ heap res.2 !! l = Some (with_file file_path r)
               /\ (forall l', l' ≠ l -> heap res.2 !! l' = heap st !! l'))
              /\ (file_path ∈ associated_files r ->
                  res = (AlreadyAssociated, st)))).
Proof.
  cbn zeta. split.
  - unfold associate_prompt.
    destruct (truthy_opt (req_prompt_id data));
      destruct (truthy_opt (req_file_path data)); cbn [negb orb fst status];
      try (split; [auto | reflexivity]).
    split; [| intros [? | ?]; discriminate].
    destruct (get_prompt _ st) as [l |]; [| discriminate].
    destruct (heap st !! l) as [r |]; [| discriminate].
    now case_bool_decide.
  - intros pid fp Hpid Hfp Hp%truthy_non_empty Hf%truthy_non_empty.
    destruct data as [dp df]. cbn [req_prompt_id req_file_path] in *. subst.
    rewrite (associate_prompt_present pid fp st Hp Hf).
    rewrite <- get_prompt_absent.
    destruct (get_prompt pid st) as [l |] eqn:Hget.
    + destruct (get_prompt_found pid st l Hget) as (_ & r & _ & Hr & _).
      rewrite Hr. split.
      * case_bool_decide; cbn [fst status]; split; discriminate.
      * intros l' r' [= <-] Hr'. rewrite Hr in Hr'. injection Hr' as <-.
        split; intros Hfile.
        -- rewrite bool_decide_eq_true_2 by done. cbn [fst snd].
           rewrite save_heap. cbn [heap set_heap].
           split; [reflexivity |]. split; [apply lookup_insert_eq |].
           intros x Hx. now apply lookup_insert_ne.
        -- rewrite bool_decide_eq_false_2; [reflexivity |].
           intros Hnot. now apply Hnot.
    + split; [done |]. intros l r [=].
Qed.

(** X5: [POST /associate_prompt] answers 400 exactly when [prompt_id] or
    [file_path] is missing or empty; with both given, it answers 404
    exactly when no record of the collection carries the identifier; and
    it leaves the database as it is in both cases. Otherwise it answers
    200: when the file is not among the files of the first record with
    the identifier, it is appended to them and no other record changes;
    when it is, the answer is "already associated" and nothing changes,
    which is also what a second identical request gets. The endpoint
    never writes a token delta: [file_changes] of every record stays as
    it was. *)
Theorem associate_prompt_endpoint (data : AssociateRequest) (st : DbState) :
  let res := associate_prompt data st in
  (status res.1 ≠ 200%nat -> res.2 = st)
  /\ (status res.1 = 200%nat ->
      associate_prompt data res.2 = (AlreadyAssociated, res.2)
      /\ exists l r' prompt_id file_path,
           req_prompt_id data = Some prompt_id
           /\ req_file_path data = Some file_path
           /\ get_prompt prompt_id st = Some l
           /\ heap res.2 !! l = Some r'
           /\ file_path ∈ associated_files r')
  /\ (forall l r, heap st !! l = Some r ->
        exists r', heap res.2 !! l = Some r'
                   /\ file_changes r' = file_changes r
                   /\ rec_id r' = rec_id r)
  /\ prompts res.2 = prompts st
  /\ active_prompt res.2 = active_prompt st
  /\ (status res.1 = 400%nat <->
      truthy_opt (req_prompt_id data) = false
      \/ truthy_opt (req_file_path data) = false)
  /\ (forall prompt_id file_path,
        req_prompt_id data = Some prompt_id ->
        req_file_path data = Some file_path ->
        prompt_id ≠ "" -> file_path ≠ "" ->
        (status res.1 = 404%nat <-> Some prompt_id ∉ record_ids st)
        /\ (forall l r,
              get_prompt prompt_id st = Some l -> heap st !! l = Some r ->
              (file_path ∉ associated_files r ->
               res.1 = Associated
               /\ heap res.2 !! l = Some (with_file file_path r)
               /\ (forall l', l' ≠ l -> heap res.2 !! l' = heap st !! l'))
              /\ (file_path ∈ associated_files r ->
                  res = (AlreadyAssociated, st)))).
Proof.
  pose proof (associate_prompt_effects data st) as Heff.
  pose proof (associate_prompt_answers data st) as Hans.
  cbn zeta in *.
  destruct Heff as (H1 & H2 & H3 & H4 & H5). destruct Hans as (H6 & H7).
  repeat (split; [assumption |]). assumption.
Qed.

Lemma list_find_index_id (prompt_id : string) (st : DbState) :
  match list_find (fun l => has_id st (Some prompt_id) l = true) (prompts st) with
  | Some (i, l) => get_prompt prompt_id st = Some l /\ prompts st !! i = Some l
  | None => get_prompt prompt_id st = None
  end.
Proof.
  unfold get_prompt.
  destruct (list_find _ (prompts st)) as [[i l] |] eqn:Hfind; [| done].
  split; [done |]. now apply list_find_Some in Hfind as (? & _).
Qed.

(** X6: deleting a prompt by identifier does nothing when no record
    carries the identifier; otherwise it removes the first such record from
    the collection and only that one, and afterwards the active prompt, if
    any, does not carry the identifier. When the identifiers of the
    collection were distinct, the identifier can no longer be looked up. *)
Theorem delete_prompt_effect (prompt_id : string) (st : DbState) :
  let st' := delete_prompt prompt_id st in
  (get_prompt prompt_id st = None -> st' = st)
  /\ (forall l, get_prompt prompt_id st = Some l ->
        heap st' = heap st
        /\ (exists i, prompts st !! i = Some l
                      /\ prompts st' = delete i (prompts st))
        /\ (forall a r, active_prompt st' = Some a -> heap st !! a = Some r ->
                        rec_id r ≠ Some prompt_id)
        /\ (well_formed st -> NoDup (record_ids st) ->
            get_prompt prompt_id st' = None /\ well_formed st')).
Proof.
  cbn zeta. unfold delete_prompt.
  pose proof (list_find_index_id prompt_id st) as Hfind.
  destruct (list_find _ (prompts st)) as [[i l0] |].
  2:{ split; [done |]. intros l Hl. congruence. }
  destruct Hfind as [Hget Hi]. split; [congruence |].
  intros l Hl. rewrite Hget in Hl. injection Hl as <-.
  set (st1 := match active_prompt st with
              | Some a => if has_id st (Some prompt_id) a
                          then clear_active_prompt st else st
              | None => st
              end).
  assert (Hheap1 : heap st1 = heap st).
  { subst st1. destruct (active_prompt st) as [a |]; [| done].
    now destruct (has_id st (Some prompt_id) a). }
  assert (Hps1 : prompts st1 = prompts st).
  { subst st1. destruct (active_prompt st) as [a |]; [| done].
    now destruct (has_id st (Some prompt_id) a). }
  assert (Hact1 : forall a, active_prompt st1 = Some a ->
                    has_id st (Some prompt_id) a = false).
  { subst st1. intros a. destruct (active_prompt st) as [a0 |] eqn:Ha0;
      [| now rewrite Ha0].
    destruct (has_id st (Some prompt_id) a0) eqn:Hhas; [discriminate |].
    rewrite Ha0. now intros [= <-]. }
  rewrite save_heap, save_prompts, save_active_prompt.
  cbn [heap prompts active_prompt set_prompts]. rewrite Hps1.
  split; [exact Hheap1 |]. split; [eauto |]. split.
  - intros a r Ha Hr Hid. specialize (Hact1 a Ha).
    assert (has_id st (Some prompt_id) a = true) by (apply has_id_true; eauto).
    congruence.
  - intros Hwf Hnd.
    assert (Hwf' : forall x, x ∈ delete i (prompts st) -> is_Some (heap st !! x)).
    { intros x Hx. apply Hwf. now apply list_elem_of_delete_inv in Hx. }
    split.
    + apply get_prompt_absent.
      intros Hin. apply id_recorded_iff in Hin as (x & Hx & Hhas).
      rewrite save_prompts in Hx. cbn [prompts set_prompts] in Hx.
      rewrite has_id_save in Hhas.
      assert (Hhas' : has_id st (Some prompt_id) x = true).
      { unfold has_id in Hhas |- *. cbn [heap set_prompts] in Hhas.
        now rewrite Hheap1 in Hhas. }
      apply list_elem_of_lookup in Hx as [j Hj].
      rewrite list_lookup_delete in Hj.
      assert (Hidx : exists j', j' ≠ i /\ prompts st !! j' = Some x).
      { destruct (decide (j < i)%nat); [exists j | exists (S j)];
          (split; [lia | done]). }
      destruct Hidx as (j' & Hne & Hj').
      apply has_id_true in Hhas' as (rx & Hrx & Hidx).
      pose proof (get_prompt_found prompt_id st _ Hget)
        as (_ & r & _ & Hr & Hid & _).
      assert (Hri : record_ids st !! i = Some (Some prompt_id)).
      { unfold record_ids. rewrite list_lookup_fmap.
        rewrite (records_lookup st Hwf i l0 Hi), Hr. cbn. now rewrite Hid. }
      assert (Hrj : record_ids st !! j' = Some (Some prompt_id)).
      { unfold record_ids. rewrite list_lookup_fmap.
        rewrite (records_lookup st Hwf j' x Hj'), Hrx. cbn. now rewrite Hidx. }
      apply Hne. exact (proj1 (NoDup_alt _) Hnd j' i _ Hrj Hri).
    + intros x Hx. rewrite save_prompts in Hx. cbn [prompts set_prompts] in Hx.
      rewrite save_heap. cbn [heap set_prompts].
      rewrite Hheap1. now apply Hwf'.
Qed.

(** X7: selecting one prompt as active and then another moves the focus to
    the second: a file associated afterwards is attached to the second
    prompt, and the first prompt's record is left as it was. *)
Theorem later_selection_takes_focus (id1 id2 file_path : string)
    (token_change : Z) (st : DbState) (l1 l2 : nat) :
  get_prompt id1 st = Some l1 ->
  get_prompt id2 st = Some l2 ->
  l1 ≠ l2 ->
  let st' := (associate_file_with_active_prompt file_path token_change
                (select_active_prompt id2 (select_active_prompt id1 st))).2 in
  active_prompt st' = Some l2
  /\ heap st' !! l1 = heap st !! l1
  /\ exists r', heap st' !! l2 = Some r' /\ file_path ∈ associated_files r'.
Proof.
  intros Hg1 Hg2 Hne.
  assert (Hsel : select_active_prompt id2 (select_active_prompt id1 st)
                 = set_active_prompt (Some l2) (set_active_prompt (Some l1) st)).
  { unfold select_active_prompt at 2. rewrite Hg1.
    unfold select_active_prompt.
    assert (get_prompt id2 (set_active_prompt (Some l1) st) = Some l2) as ->;
      [| done].
    rewrite <- Hg2. now apply get_prompt_same_ids. }
  destruct (get_prompt_found id2 st l2 Hg2) as (_ & r2 & _ & Hr2 & _).
  cbn zeta. rewrite Hsel.
  set (st2 := set_active_prompt (Some l2) (set_active_prompt (Some l1) st)).
  assert (Hact2 : active_prompt st2 = Some l2) by reflexivity.
  assert (Hheap2 : heap st2 !! l2 = Some r2) by exact Hr2.
  destruct (associate_step file_path token_change st2 l2 r2 Hact2 Hheap2)
    as (r' & Hr' & _ & Hin & _).
  split; [now rewrite associate_active_prompt |]. split.
  - now rewrite (associate_other file_path token_change st2 l2 l1 Hact2 Hne).
  - eauto.
Qed.

End ReloadFacts.

(* ===================================================================== *)
(** * Further properties: what a processed batch leaves behind *)
(* ===================================================================== *)

Section BatchOutcomeFacts.
Import Text Files Prompts Monitor.
Context `{PyRuntime}.

Lemma check_file_cooldown (fs : filesystem) acc c p :
  cooldown_minutes (check_file fs (acc, c) p).2 = cooldown_minutes c.
Proof. unfold check_file. now destruct (fs p). Qed.

Lemma check_loop_cooldown (fs : filesystem) (paths : list string) :
  forall acc c,
    cooldown_minutes (foldl (check_file fs) (acc, c) paths).2 = cooldown_minutes c.
Proof.
  induction paths as [| p paths IH]; intros acc c; cbn [foldl]; [done |].
  destruct (check_file fs (acc, c) p) as [acc1 c1] eqn:Hstep.
  rewrite IH. pose proof (check_file_cooldown fs acc c p) as Hc.
  now rewrite Hstep in Hc.
Qed.

(** A batch that is processed: the pending set is emptied, the
    configuration is the one the significance check leaves, and a backup
    is triggered exactly when something was reported. *)
Lemma _process_changes_run (fs : filesystem) (now : Z) (h : Handler) :
  pending_changes h ≠ ∅ ->
  cooldown_active now (config h) = false ->
  let h' := _process_changes fs now h in
  let reported := (_check_for_significant_changes fs h).1 in
  let checked := (_check_for_significant_changes fs h).2 in
  pending_changes h' = ∅
  /\ file_hashes (config h') = file_hashes checked
  /\ min_token_change (config h') = min_token_change (config h)
  /\ cooldown_minutes (config h') = cooldown_minutes (config h)
  /\ (reported = [] ->
      backups h' = backups h
      /\ last_backup_time (config h') = last_backup_time (config h))
  /\ (reported ≠ [] ->
      backups h' = backups h ++ [reported]
      /\ last_backup_time (config h') = Some now).
Proof.
  intros Hpending Hcool. unfold _process_changes.
  rewrite bool_decide_eq_false_2 by done. rewrite Hcool.
  destruct (check_loop_spec fs (elements (pending_changes h))
              (NoDup_elements _) [] (config h)) as (Hmin & Hlast & _).
  pose proof (check_loop_cooldown fs (elements (pending_changes h)) [] (config h))
    as Hcd.
  unfold _check_for_significant_changes, check_paths in *.
  destruct (foldl (check_file fs) ([], config h) (elements (pending_changes h)))
    as [sig c]. cbn [fst snd] in *.
  destruct sig as [| change sig]; cbn.
  - do 4 (split; [done |]). split; [done |]. intros Hne. contradiction.
  - do 4 (split; [done |]). split; [discriminate | done].
Qed.

(** X8: a batch that is processed (something is pending and the cooldown
    does not apply) empties the pending set, sets the baseline of every
    pending file that can be read to its current hash and token count,
    leaves the baseline of every other path alone, and adds at most one
    backup, whose list of changes is exactly what the significance check
    reported; the time of the last backup moves to now exactly when a
    backup is added. *)
Theorem processed_batch_outcome (fs : filesystem) (now : Z) (h : Handler) :
  pending_changes h ≠ ∅ ->
  cooldown_active now (config h) = false ->
  let h' := _process_changes fs now h in
  let reported := (_check_for_significant_changes fs h).1 in
  pending_changes h' = ∅
  /\ (forall p content, p ∈ pending_changes h -> fs p = ReadOk content ->
        file_hashes (config h') !! p
        = Some (md5_hexdigest content, count_tokens content))
  /\ (forall p, p ∉ pending_changes h ->
        file_hashes (config h') !! p = file_hashes (config h) !! p)
  /\ (forall p e, fs p = ReadError e ->
        file_hashes (config h') !! p = file_hashes (config h) !! p)
  /\ (backups h' = backups h /\ reported = []
      /\ last_backup_time (config h') = last_backup_time (config h)
      \/ backups h' = backups h ++ [reported] /\ reported ≠ []
         /\ last_backup_time (config h') = Some now)
  /\ (forall p d, (p, d) ∈ reported ->
        p ∈ pending_changes h /\ exists content, fs p = ReadOk content).
Proof.
  intros Hpending Hcool.
  destruct (_process_changes_run fs now h Hpending Hcool)
    as (Hempty & Hhashes & _ & _ & Hnone & Hsome).
  destruct (check_loop_spec fs (elements (pending_changes h))
              (NoDup_elements _) [] (config h))
    as (_ & _ & Hother & Hbase & Herr & Hsig).
  cbn zeta. fold (check_paths fs (elements (pending_changes h)) (config h)) in *.
  change (check_paths fs (elements (pending_changes h)) (config h))
    with (_check_for_significant_changes fs h) in *.
  split; [exact Hempty |]. rewrite Hhashes.
  split; [| split; [| split; [| split]]].
  - intros p content Hp Hfs. apply Hbase; [now apply elem_of_elements | done].
  - intros p Hp. apply Hother. now rewrite elem_of_elements.
  - intros p e Hfs.
    destruct (decide (p ∈ pending_changes h)) as [Hp | Hp].
    + apply (Herr p e); [now apply elem_of_elements | done].
    + apply Hother. now rewrite elem_of_elements.
  - destruct ((_check_for_significant_changes fs h).1) as [| x xs] eqn:Hrep.
    + left. destruct (Hnone eq_refl). done.
    + right. destruct (Hsome ltac:(done)). done.
  - intros p d Hin. apply Hsig in Hin as [Hnil | (Hp & content & Hfs & _)].
    + by apply elem_of_nil in Hnil.
    + split; [now apply elem_of_elements | eauto].
Qed.

(** X9: once a batch has been processed, evaluating the same paths again
    while the files stay as they are reports nothing: a change that has
    been evaluated cannot trigger a second time. *)
Theorem evaluated_changes_do_not_retrigger (fs : filesystem) (now : Z)
    (h : Handler) :
  pending_changes h ≠ ∅ ->
  cooldown_active now (config h) = false ->
  (check_paths fs (elements (pending_changes h))
               (config (_process_changes fs now h))).1 = [].
Proof.
  intros Hpending Hcool.
  destruct (_process_changes_run fs now h Hpending Hcool)
    as (_ & Hhashes & _).
  destruct (check_loop_spec fs (elements (pending_changes h))
              (NoDup_elements _) [] (config h))
    as (_ & _ & _ & Hbase & _).
  fold (check_paths fs (elements (pending_changes h)) (config h)) in Hbase.
  change (check_paths fs (elements (pending_changes h)) (config h))
    with (_check_for_significant_changes fs h) in Hbase.
  destruct (check_loop_spec fs (elements (pending_changes h))
              (NoDup_elements _) [] (config (_process_changes fs now h)))
    as (_ & _ & _ & _ & _ & Hsig).
  fold (check_paths fs (elements (pending_changes h))
          (config (_process_changes fs now h))) in Hsig.
  apply elem_of_nil_inv. intros [p d] Hin.
  apply Hsig in Hin as [Hnil | (Hp & content & Hfs & Hspec)].
  - by apply elem_of_nil in Hnil.
  - rewrite Hhashes, (Hbase p content Hp Hfs) in Hspec.
    cbn in Hspec. now rewrite String.eqb_refl in Hspec.
Qed.

(** X10: a batch that triggers a backup arms the cooldown: as long as less
    than [cooldown_minutes] has passed since that batch, processing returns
    the handler untouched, whatever has become pending in between. *)
Theorem backup_arms_cooldown (fs fs' : filesystem) (now now' : Z)
    (h : Handler) (pending' : gset string) :
  pending_changes h ≠ ∅ ->
  cooldown_active now (config h) = false ->
  (_check_for_significant_changes fs h).1 ≠ [] ->
  now' - now < cooldown_minutes (config h) * 60000000 ->
  let h' := _process_changes fs now h in
  let later := {| config := config h'; pending_changes := pending';
                  prompt_database := prompt_database h';
                  backups := backups h' |} in
  _process_changes fs' now' later = later
  /\ backups h' = backups h ++ [(_check_for_significant_changes fs h).1].
Proof.
  intros Hpending Hcool Hrep Hsoon.
  destruct (_process_changes_run fs now h Hpending Hcool)
    as (_ & _ & _ & Hcd & _ & Hsome).
  destruct (Hsome Hrep) as [Hbackups Hlast].
  cbn zeta. split; [| exact Hbackups].
  apply _process_changes_suppressed. cbn [config].
  apply cooldown_active_iff. exists now. rewrite Hcd. done.
Qed.

(** X11: in a new monitoring session (no baseline yet, no backup yet) the
    first batch that contains a readable file triggers a backup, and that
    backup lists every readable pending file with its current token
    count. *)
Theorem first_batch_triggers_backup (fs : filesystem) (now : Z) (h : Handler)
    (file_path content : string) :
  file_hashes (config h) = ∅ ->
  last_backup_time (config h) = None ->
  file_path ∈ pending_changes h ->
  fs file_path = ReadOk content ->
  let h' := _process_changes fs now h in
  exists reported,
    backups h' = backups h ++ [reported]
    /\ last_backup_time (config h') = Some now
    /\ forall p d, (p, d) ∈ reported <->
                   p ∈ pending_changes h
                   /\ exists text, fs p = ReadOk text /\ d = count_tokens text.
Proof.
  intros Hfresh Hnone Hp Hfs.
  assert (Hpending : pending_changes h ≠ ∅) by set_solver.
  assert (Hcool : cooldown_active now (config h) = false)
    by (unfold cooldown_active; now rewrite Hnone).
  destruct (_process_changes_run fs now h Hpending Hcool)
    as (_ & _ & _ & _ & _ & Hsome).
  destruct (check_loop_spec fs (elements (pending_changes h))
              (NoDup_elements _) [] (config h))
    as (_ & _ & _ & _ & _ & Hsig).
  fold (check_paths fs (elements (pending_changes h)) (config h)) in Hsig.
  change (check_paths fs (elements (pending_changes h)) (config h))
    with (_check_for_significant_changes fs h) in Hsig.
  assert (Hall : forall p d,
            (p, d) ∈ (_check_for_significant_changes fs h).1 <->
            p ∈ pending_changes h
            /\ exists text, fs p = ReadOk text /\ d = count_tokens text).
  { intros p d. rewrite Hsig, Hfresh. split.
    - intros [Hnil | (Hin & text & Htext & Hspec)];
        [by apply elem_of_nil in Hnil |].
      rewrite lookup_empty in Hspec. cbn in Hspec. injection Hspec as <-.
      split; [now apply elem_of_elements | eauto].
    - intros (Hin & text & Htext & ->). right.
      split; [now apply elem_of_elements |]. exists text.
      split; [done |]. now rewrite lookup_empty. }
  assert (Hne : (_check_for_significant_changes fs h).1 ≠ []).
  { intros Hnil. assert (Hin : (file_path, count_tokens content)
                               ∈ (_check_for_significant_changes fs h).1)
      by (apply Hall; eauto).
    rewrite Hnil in Hin. by apply elem_of_nil in Hin. }
  destruct (Hsome Hne) as [Hbackups Hlast].
  cbn zeta. eauto.
Qed.

End BatchOutcomeFacts.

(* ===================================================================== *)
(** * Further properties: evaluation on concrete inputs *)
(* ===================================================================== *)

Section FurtherExamples.
Import Text Files Prompts Monitor Session Sample SessionSample.

Lemma db_with_well_formed (r : PromptRecord) (active : option nat) :
  well_formed (db_with r active).
Proof.
  intros l Hl. apply elem_of_cons in Hl as [-> | Hl].
  - exists r. reflexivity.
  - by apply elem_of_nil in Hl.
Defined.

Lemma saved_session_well_formed : well_formed saved_session.
Proof.
  intros l Hl. apply elem_of_cons in Hl as [-> | Hl].
  - exists sample_record. reflexivity.
  - by apply elem_of_nil in Hl.
Defined.


Lemma a_py_pending (last : option Z) (baseline : gmap string (string * Z))
    (db : DbState) :
  pending_changes (sample_handler last baseline db) ≠ ∅.
Proof. exact (non_empty_singleton_L (C:=gset string) "/a.py"). Defined.


(** Record ["A"], associated with ["/a.py"], saved and loaded again: no
    record of the reloaded collection is listed for ["/a.py"]. *)
Lemma save_then_load_keeps_witness :
  get_prompts_for_file "/a.py"
    (load 0 Missing (save (db_with sample_record None)).2).2 = [].
Proof.
  exact (proj2 (save_then_load_keeps 0 (db_with sample_record None)
                  (db_with_well_formed _ _) eq_refl) "/a.py").
Defined.

(** Record ["A"] is active when the database is loaded again: the focus
    stays on the old object, which is no longer in the collection. *)
Lemma reload_detaches_active_prompt_witness :
  active_prompt (load 0 Missing saved_session).2 = Some 0%nat
  /\ (0%nat ∉ prompts (load 0 Missing saved_session).2).
Proof.
  destruct (reload_detaches_active_prompt 0 Missing [to_dict sample_record]
              saved_session 0%nat sample_record "/b.py" 1
              saved_session_well_formed eq_refl eq_refl eq_refl)
    as (Hact & _ & Hnotin & _).
  split; [exact Hact | exact Hnotin].
Defined.

(** Selecting ["A"] and then ["B"]: the focus is on ["B"]. *)
Lemma later_selection_takes_focus_witness :
  active_prompt
    (associate_file_with_active_prompt "/b.py" 1
       (select_active_prompt "B" (select_active_prompt "A" two_prompts))).2
  = Some 1%nat.
Proof.
  refine (proj1 (later_selection_takes_focus "A" "B" "/b.py" 1 two_prompts
                   0%nat 1%nat _ _ _)).
  - vm_compute. reflexivity.
  - vm_compute. reflexivity.
  - discriminate.
Defined.

(** The pending path ["/a.py"] with no backup yet: the batch is processed
    and nothing stays pending. *)
Lemma processed_batch_outcome_witness :
  pending_changes
    (_process_changes sample_fs 0 (sample_handler None ∅ (empty_db Missing)))
  = ∅.
Proof.
  exact (proj1 (processed_batch_outcome sample_fs 0
                  (sample_handler None ∅ (empty_db Missing))
                  (a_py_pending _ _ _) eq_refl)).
Defined.

(** After that batch, ["/a.py"] evaluated again reports nothing. *)
Lemma evaluated_changes_do_not_retrigger_witness :
  (check_paths sample_fs
     (elements (pending_changes (sample_handler None ∅ (empty_db Missing))))
     (config (_process_changes sample_fs 0
                (sample_handler None ∅ (empty_db Missing))))).1 = [].
Proof.
  exact (evaluated_changes_do_not_retrigger sample_fs 0
           (sample_handler None ∅ (empty_db Missing))
           (a_py_pending _ _ _) eq_refl).
Defined.

Lemma a_py_reported :
  (_check_for_significant_changes sample_fs
     (sample_handler None ∅ (empty_db Missing))).1 ≠ [].
Proof.
  assert (Hrep : (_check_for_significant_changes sample_fs
                    (sample_handler None ∅ (empty_db Missing))).1
                 = [("/a.py", 8)]) by (vm_compute; reflexivity).
  rewrite Hrep. discriminate.
Defined.

(** A backup at time 0 with a five-minute cooldown: one microsecond later
    a batch with ["/b/c.txt"] pending is left as it is. *)
Lemma backup_arms_cooldown_witness :
  let h' := _process_changes sample_fs 0
              (sample_handler None ∅ (empty_db Missing)) in
  let later := {| config := config h'; pending_changes := {["/b/c.txt"]};
                  prompt_database := prompt_database h';
                  backups := backups h' |} in
  _process_changes sample_fs 1 later = later.
Proof.
  refine (proj1 (backup_arms_cooldown sample_fs sample_fs 0 1
                   (sample_handler None ∅ (empty_db Missing)) {["/b/c.txt"]}
                   (a_py_pending _ _ _) eq_refl a_py_reported _)).
  cbn. lia.
Defined.

(** The first batch of a session with ["/a.py"] pending. *)
Lemma first_batch_triggers_backup_witness :
  exists reported,
    backups (_process_changes sample_fs 0
               (sample_handler None ∅ (empty_db Missing)))
    = [] ++ [reported]
    /\ ("/a.py", 8) ∈ reported.
Proof.
  destruct (first_batch_triggers_backup sample_fs 0
              (sample_handler None ∅ (empty_db Missing)) "/a.py" "print(1)"
              eq_refl eq_refl
              (proj2 (elem_of_singleton (C:=gset string) _ _) eq_refl)
              eq_refl) as (reported & Hbackups & _ & Hall).
  exists reported. split; [exact Hbackups |].
  apply Hall. split.
  - exact (proj2 (elem_of_singleton (C:=gset string) _ _) eq_refl).
  - exists "print(1)". split; reflexivity.
Defined.

End FurtherExamples.

(* ===================================================================== *)
(** * Further properties: which files are watched, and how often a batch
      is processed *)
(* ===================================================================== *)

Section WatchFacts.
Import Text Files Prompts Monitor Watch.
Context `{PyRuntime} `{OsRuntime}.

Lemma ignored_false_iff (file_path : string) (patterns : list string) :
  ignored file_path patterns = false <->
  forall pattern, pattern ∈ patterns ->
                  fnmatch (basename file_path) pattern = false.
Proof.
  induction patterns as [| pattern rest IH]; cbn [ignored].
  - split; [| done]. intros _ pattern Hin. by apply elem_of_nil in Hin.
  - unfold _matches_pattern at 1.
    destruct (fnmatch (basename file_path) pattern) eqn:Hmatch.
    + split; [done |]. intros Hall.
      rewrite Hall in Hmatch; [done |]. apply elem_of_cons. now left.
    + rewrite IH. split.
      * intros Hall q Hq. apply elem_of_cons in Hq as [-> | Hq]; auto.
      * intros Hall q Hq. apply Hall. apply elem_of_cons. now right.
Qed.

Lemma in_monitored_folder_iff (file_path : string)
    (folders patterns : list string) :
  in_monitored_folder file_path folders patterns = true <->
  (exists folder, folder ∈ folders /\ startswith file_path folder = true)
  /\ ignored file_path patterns = false.
Proof.
  induction folders as [| folder rest IH]; cbn [in_monitored_folder].
  - split; [done |]. intros [(folder & Hin & _) _]. by apply elem_of_nil in Hin.
  - destruct (startswith file_path folder) eqn:Hstart.
    + rewrite negb_true_iff. split.
      * intros Hign. split; [| done]. exists folder.
        split; [apply elem_of_cons; now left | done].
      * now intros [_ Hign].
    + rewrite IH. split.
      * intros [(f & Hin & Hf) Hign]. split; [| done]. exists f.
        split; [apply elem_of_cons; now right | done].
      * intros [(f & Hin & Hf) Hign]. split; [| done]. exists f.
        split; [| done]. apply elem_of_cons in Hin as [-> | Hin]; [| done].
        congruence.
Qed.

(** X12: [_should_monitor_file] accepts a path exactly when it is listed in
    [monitor_files], or some monitored folder is a prefix of it as a string
    and its base name matches none of the ignored patterns. A listed file is
    accepted whatever the patterns say, and a folder covers every path that
    merely begins with its name. *)
Theorem monitored_paths_characterised (w : Watcher) (file_path : string) :
  _should_monitor_file w file_path = true <->
  file_path ∈ monitor_files w
  \/ ((exists folder, folder ∈ monitor_folders w
                      /\ String.prefix folder file_path = true)
      /\ forall pattern, pattern ∈ ignored_patterns w ->
                         fnmatch (basename file_path) pattern = false).
Proof.
  unfold _should_monitor_file.
  destruct (bool_decide (file_path ∈ monitor_files w)) eqn:Hlisted.
  - apply bool_decide_eq_true in Hlisted. split; [now left | done].
  - apply bool_decide_eq_false in Hlisted.
    rewrite in_monitored_folder_iff, ignored_false_iff. unfold startswith.
    split; [now right |]. intros [Hin | Hfolder]; [contradiction | done].
Qed.

Lemma _process_changes_backups (fs : filesystem) (now : Z) (h : Handler) :
  (length (backups (Monitor._process_changes fs now h))
   <= S (length (backups h)))%nat.
Proof.
  unfold Monitor._process_changes.
  destruct (bool_decide (pending_changes h = ∅)); [lia |].
  destruct (cooldown_active now (config h)); [lia |].
  destruct (_check_for_significant_changes fs h) as [sig c].
  destruct sig as [| change sig]; cbn; [lia |].
  rewrite length_app. cbn. lia.
Qed.

(** What [on_modified] leaves alone. *)
Lemma on_modified_keeps (event : Event) (w : Watcher) :
  let w' := on_modified event w in
  config (handler w') = config (handler w)
  /\ backups (handler w') = backups (handler w)
  /\ prompt_database (handler w') = prompt_database (handler w)
  /\ pending_changes (handler w) ⊆ pending_changes (handler w')
  /\ monitor_files w' = monitor_files w
  /\ monitor_folders w' = monitor_folders w
  /\ ignored_patterns w' = ignored_patterns w
  /\ (is_directory event = false ->
      _should_monitor_file w (src_path event) = true ->
      src_path event ∈ pending_changes (handler w'))
  /\ (forall b, _processing_scheduled w = Some b ->
                _processing_scheduled w' = Some b /\ due w' = due w)
  /\ (_processing_scheduled w = None ->
      w' = w
      \/ _processing_scheduled w' = Some true /\ due w' = S (due w)).
Proof.
  cbn zeta. unfold on_modified.
  destruct (is_directory event).
  { do 3 (split; [done |]). split; [set_solver |]. do 3 (split; [done |]).
    split; [done |]. split; [done |]. now left. }
  destruct (_should_monitor_file w (src_path event)) eqn:Hmon; cbn [negb].
  2:{ do 3 (split; [done |]). split; [set_solver |]. do 3 (split; [done |]).
      split; [done |]. split; [done |]. now left. }
  cbn [add_pending _processing_scheduled].
  destruct (_processing_scheduled w) as [b |] eqn:Hflag; cbn.
  - do 3 (split; [done |]). split; [set_solver |]. do 3 (split; [done |]).
    split; [intros _ _; set_solver |]. split; [| done].
    intros b' Hb'. injection Hb' as <-. done.
  - do 3 (split; [done |]). split; [set_solver |]. do 3 (split; [done |]).
    split; [intros _ _; set_solver |]. split; [done |]. now right.
Qed.

(** Once the attribute exists and no callback is due, nothing the handler
    is told changes more than the pending set. *)
Lemma run_frozen (more : list action) :
  forall (w : Watcher) (b : bool),
    _processing_scheduled w = Some b -> due w = 0%nat ->
    let w' := run more w in
    config (handler w') = config (handler w)
    /\ backups (handler w') = backups (handler w)
    /\ prompt_database (handler w') = prompt_database (handler w)
    /\ pending_changes (handler w) ⊆ pending_changes (handler w')
    /\ _processing_scheduled w' = Some b
    /\ due w' = 0%nat
    /\ (forall event, Modified event ∈ more -> is_directory event = false ->
          _should_monitor_file w (src_path event) = true ->
          src_path event ∈ pending_changes (handler w')).
Proof.
  induction more as [| a more IH]; intros w b Hflag Hdue; cbn zeta.
  - do 3 (split; [done |]). split; [set_solver |]. do 2 (split; [done |]).
    intros event Hin. by apply elem_of_nil in Hin.
  - unfold run. cbn [foldl]. fold (run more (step w a)).
    assert (Hstep : config (handler (step w a)) = config (handler w)
              /\ backups (handler (step w a)) = backups (handler w)
              /\ prompt_database (handler (step w a))
                 = prompt_database (handler w)
              /\ pending_changes (handler w)
                 ⊆ pending_changes (handler (step w a))
              /\ _processing_scheduled (step w a) = Some b
              /\ due (step w a) = 0%nat
              /\ (forall p, _should_monitor_file (step w a) p
                            = _should_monitor_file w p)
              /\ (forall event, a = Modified event ->
                    is_directory event = false ->
                    _should_monitor_file w (src_path event) = true ->
                    src_path event ∈ pending_changes (handler (step w a)))).
    { destruct a as [event | fs now]; cbn [step].
      - destruct (on_modified_keeps event w)
          as (Hc & Hb & Hdb & Hp & Hf & Hd & Hi & Hin & Hsome & _).
        destruct (Hsome b Hflag) as [Hflag' Hdue'].
        do 4 (split; [done |]). split; [done |]. split; [congruence |].
        split.
        + intros p. unfold _should_monitor_file. now rewrite Hf, Hd, Hi.
        + intros e [= <-]. exact Hin.
      - rewrite Hdue. do 3 (split; [done |]). split; [set_solver |].
        do 3 (split; [done |]). intros event Heq. discriminate Heq. }
    destruct Hstep as (Hc & Hb & Hdb & Hp & Hflag' & Hdue' & Hmon & Hnew).
    destruct (IH (step w a) b Hflag' Hdue')
      as (Hc' & Hb' & Hdb' & Hp' & Hflag'' & Hdue'' & Hlater).
    split; [congruence |]. split; [congruence |]. split; [congruence |].
    split; [intros x Hx; apply Hp', Hp, Hx |]. do 2 (split; [done |]).
    intros event Hin Hdir Hwatch. apply elem_of_cons in Hin as [<- | Hin].
    + apply Hp'. now apply Hnew.
    + apply Hlater; [done | done |]. now rewrite Hmon.
Qed.

(** The three situations a handler can be in: the attribute is not there
    yet; it is there and the one callback is due; the callback has run. *)
Lemma run_situations (actions : list action) :
  forall w : Watcher,
    (_processing_scheduled w = None /\ due w = 0%nat
     \/ _processing_scheduled w = Some true /\ due w = 1%nat) ->
    let w' := run actions w in
    (_processing_scheduled w' = None /\ due w' = 0%nat
     /\ backups (handler w') = backups (handler w))
    \/ (_processing_scheduled w' = Some true /\ due w' = 1%nat
        /\ backups (handler w') = backups (handler w))
    \/ (_processing_scheduled w' = Some false /\ due w' = 0%nat
        /\ (length (backups (handler w'))
            <= S (length (backups (handler w))))%nat).
Proof.
  induction actions as [| a actions IH]; intros w Hw; cbn zeta.
  - destruct Hw as [[Hflag Hdue] | [Hflag Hdue]]; [left | right; left]; done.
  - unfold run. cbn [foldl]. fold (run actions (step w a)).
    destruct a as [event | fs now]; cbn [step].
    + destruct (on_modified_keeps event w)
        as (_ & Hb & _ & _ & _ & _ & _ & _ & Hsome & Hnone).
      assert (Hnext : _processing_scheduled (on_modified event w) = None
                      /\ due (on_modified event w) = 0%nat
                      \/ _processing_scheduled (on_modified event w) = Some true
                         /\ due (on_modified event w) = 1%nat).
      { destruct Hw as [[Hflag Hdue] | [Hflag Hdue]].
        - destruct (Hnone Hflag) as [-> | [Hflag' Hdue']];
            [now left | right; split; [done | lia]].
        - destruct (Hsome true Hflag) as [Hflag' Hdue'].
          right. split; [done | lia]. }
      specialize (IH _ Hnext). cbn zeta in IH. now rewrite Hb in IH.
    + destruct Hw as [[Hflag Hdue] | [Hflag Hdue]].
      * rewrite Hdue. apply IH. now left.
      * rewrite Hdue.
        set (w1 := _process_changes fs now _).
        destruct (run_frozen actions w1 false eq_refl eq_refl)
          as (_ & Hb & _ & _ & Hflag' & Hdue' & _).
        right; right. split; [done |]. split; [done |].
        rewrite Hb. subst w1. cbn [_process_changes handler].
        apply _process_changes_backups.
Qed.

(** X13: the handler schedules [_process_changes] only while it does not
    have the attribute [_processing_scheduled], and the attribute is never
    removed. So whatever events and timer ticks follow its creation, at most
    one batch is processed and at most one backup is triggered; once the
    callback has run, the configuration, the backups and the prompt database
    no longer change, and every monitored file that is modified from then on
    stays in [pending_changes]. *)
Theorem batch_processed_at_most_once (c : AutoBackupConfig) (db : DbState)
    (files folders patterns : list string) (actions : list action) :
  let w := run actions (new_watcher c db files folders patterns) in
  (length (backups (handler w)) <= 1)%nat
  /\ (due w <= 1)%nat
  /\ (_processing_scheduled w = Some false ->
      forall more : list action,
        let w' := run more w in
        config (handler w') = config (handler w)
        /\ backups (handler w') = backups (handler w)
        /\ prompt_database (handler w') = prompt_database (handler w)
        /\ pending_changes (handler w) ⊆ pending_changes (handler w')
        /\ forall event, Modified event ∈ more ->
             is_directory event = false ->
             _should_monitor_file w (src_path event) = true ->
             src_path event ∈ pending_changes (handler w')).
Proof.
  cbn zeta.
  destruct (run_situations actions (new_watcher c db files folders patterns)
              ltac:(now left))
    as [(Hflag & Hdue & Hb) | [(Hflag & Hdue & Hb) | (Hflag & Hdue & Hb)]].
  - split; [rewrite Hb; cbn; lia |]. split; [lia |]. congruence.
  - split; [rewrite Hb; cbn; lia |]. split; [lia |]. congruence.
  - split; [exact Hb |]. split; [lia |]. intros _ more.
    destruct (run_frozen more _ false Hflag Hdue)
      as (Hc' & Hb' & Hdb' & Hp' & _ & _ & Hlater).
    done.
Qed.

End WatchFacts.

(* ===================================================================== *)
(** * Further properties: what a snapshot gives back *)
(* ===================================================================== *)

Section RestoreFacts.
Import Text Files SnapshotCodec.
Context `{PyStr}.

Lemma blocks_of_plain_lines (ls : list string) :
  Forall (fun l => header_capture l = None) ls -> ls ≠ [] ->
  blocks_of_lines ls = [join_lines ls].
Proof.
  induction 1 as [| l ls Hl Hls IH]; [done |]. intros _.
  destruct ls as [| l' ls].
  - cbn [blocks_of_lines]. now rewrite Hl.
  - specialize (IH ltac:(done)).
    change (blocks_of_lines (l :: l' :: ls))
      with (match header_capture l with
            | Some path => "" :: path :: glue "" (blocks_of_lines (l' :: ls))
            | None => glue l (blocks_of_lines (l' :: ls))
            end).
    rewrite Hl, IH. cbn [glue]. rewrite (join_lines_cons l (l' :: ls)) by done.
    reflexivity.
Qed.

(** The text between a blank line and the next header, or the end. *)
Lemma hd_after_blank (after : list string) :
  Forall (fun l => header_capture l = None) after ->
  hd "" (blocks_of_lines ("" :: after))
  = match after with [] => "" | _ => String LF (join_lines after) end.
Proof.
  intros Hplain. cbn [blocks_of_lines header_capture].
  destruct after as [| l after]; [reflexivity |].
  rewrite blocks_of_plain_lines by done. reflexivity.
Qed.

Lemma hd_before_header (l path : string) (rest : list string) :
  header_capture l = Some path ->
  hd "" (blocks_of_lines ("" :: l :: rest)) = String LF "".
Proof.
  intros Hl. cbn [blocks_of_lines header_capture]. rewrite Hl. reflexivity.
Qed.

Lemma block_after_header_exact (text : string) (more : list string) :
  plain_text text ->
  hd "" (glue "" (blocks_of_lines ("" :: split_lines text ++ "" :: more)))
  = String LF (String LF
      (text +:+ String LF (hd "" (blocks_of_lines ("" :: more))))).
Proof.
  intros Hplain.
  pose proof (first_block_plain (split_lines text) ("" :: more) Hplain
                (split_lines_nonempty text) ltac:(done)) as Hfirst.
  rewrite join_split_lines in Hfirst.
  change (blocks_of_lines ("" :: split_lines text ++ "" :: more))
    with (glue "" (blocks_of_lines (split_lines text ++ "" :: more))).
  pose proof (blocks_of_lines_nonempty (split_lines text ++ "" :: more)) as Hne.
  destruct (blocks_of_lines (split_lines text ++ "" :: more)) as [| b bs].
  { exfalso. apply Hne; [| done]. pose proof (split_lines_nonempty text).
    now destruct (split_lines text). }
  cbn [hd] in Hfirst. cbn [glue hd]. rewrite !app_empty_l. now rewrite Hfirst.
Qed.

(** The pairs decoded from the lines of the files followed by plain lines:
    the paths in order, each with its text, a line feed, and what stands
    between the blank line after the text and the next header. *)
Lemma pairs_of_file_lines_exact (fs : filesystem) (after : list string)
    (files : list string) :
  Forall clean_path files ->
  (forall p, p ∈ files -> plain_text (file_text fs p)) ->
  Forall (fun l => header_capture l = None) after ->
  let pairs :=
    block_pairs (tail (blocks_of_lines
      (flat_map (fun p => ("### " +:+ p) :: "" ::
                            split_lines (file_text fs p) ++ [""]) files
       ++ after))) in
  pairs.*1 = files
  /\ forall i p, files !! i = Some p ->
       pairs !! i
       = Some (p, lstrip_newlines
                    (file_text fs p +:+ String LF
                       (if bool_decide (S i = length files)
                        then hd "" (blocks_of_lines ("" :: after))
                        else String LF ""))).
Proof.
  intros Hclean Hplain Hafter. cbn zeta.
  induction Hclean as [| p files (Hne & Hone & Hstrip) Hrest IH].
  - cbn [flat_map app].
    rewrite <- (app_nil_r after), pairs_plain_app by done.
    split; [reflexivity |]. intros i p Hi. by rewrite lookup_nil in Hi.
  - assert (Hp : plain_text (file_text fs p))
      by (apply Hplain; apply elem_of_cons; now left).
    assert (Hplain' : forall q, q ∈ files -> plain_text (file_text fs q))
      by (intros q Hq; apply Hplain; apply elem_of_cons; now right).
    destruct (IH Hplain') as [IHkeys IHat]. clear IH.
    cbn [flat_map]. rewrite <- !app_assoc. cbn [app].
    rewrite (pairs_header_cons _ p) by now apply header_capture_header.
    rewrite <- app_assoc. cbn [app].
    set (more := flat_map _ files ++ after) in *.
    rewrite (block_after_header_exact (file_text fs p) more Hp).
    rewrite pairs_plain_cons by reflexivity.
    rewrite pairs_plain_app by exact Hp.
    rewrite pairs_plain_cons by reflexivity.
    cbn [lstrip_newlines]. rewrite Ascii.eqb_refl.
    split.
    + cbn [fmap list_fmap fst]. rewrite Hstrip. f_equal. exact IHkeys.
    + intros [| i] q Hq.
      * cbn in Hq. injection Hq as <-. cbn [lookup list_lookup].
        rewrite Hstrip. cbn [length].
        subst more. clear IHkeys IHat. destruct files as [| q files].
        -- now rewrite bool_decide_eq_true_2 by done.
        -- rewrite bool_decide_eq_false_2 by done.
           apply Forall_cons in Hrest as [(Hq & _) _].
           cbn [flat_map app].
           rewrite (hd_before_header _ q) by now apply header_capture_header.
           reflexivity.
      * rewrite lookup_cons in Hq. rewrite lookup_cons, (IHat i q Hq).
        cbn [length].
        rewrite (bool_decide_ext (S i = length files)
                   (S (S i) = S (length files))) by lia.
        reflexivity.
Qed.

Lemma last_binding_absent (pairs : list (string * string)) (k : string) :
  k ∉ pairs.*1 -> last_binding k pairs = None.
Proof.
  induction pairs as [| [k' v] pairs IH]; [done |]. cbn [fmap list_fmap fst].
  intros [Hne Hout]%not_elem_of_cons. cbn [last_binding].
  rewrite (IH Hout). apply String.eqb_neq in Hne. now rewrite Hne.
Qed.

Lemma last_binding_unique (pairs : list (string * string)) :
  NoDup (pairs.*1) ->
  forall i k v, pairs !! i = Some (k, v) -> last_binding k pairs = Some v.
Proof.
  induction pairs as [| [k' v'] pairs IH]; intros Hnd i k v Hi.
  - by rewrite lookup_nil in Hi.
  - cbn [fmap list_fmap fst] in Hnd. apply NoDup_cons in Hnd as [Hout Hnd].
    cbn [last_binding]. destruct i as [| i].
    + cbn in Hi. injection Hi as -> ->.
      rewrite (last_binding_absent pairs k Hout). now rewrite String.eqb_refl.
    + cbn in Hi. now rewrite (IH Hnd i k v Hi).
Qed.

(** The lines of an encoded snapshot of at least one file. *)
Lemma build_combined_text_lines_exact (fs : filesystem) (files : list string)
    (header footer : string) :
  Forall clean_path files -> files ≠ [] ->
  split_lines (build_combined_text fs files header footer)
  = (if truthy header then split_lines header ++ [""] else [])
    ++ flat_map (fun p => ("### " +:+ p) :: "" ::
                            split_lines (file_text fs p) ++ [""]) files
    ++ (if truthy footer then split_lines footer else []).
Proof.
  intros Hclean Hfiles. unfold build_combined_text.
  set (hitems := if truthy header then [header; ""] else []).
  set (fitems := if truthy footer then [footer] else []).
  assert (Hitems : (if truthy footer
                    then (hitems ++ file_items fs files) ++ [footer]
                    else hitems ++ file_items fs files)
                   = hitems ++ file_items fs files ++ fitems).
  { subst fitems. destruct (truthy footer);
      [now rewrite <- app_assoc | now rewrite app_nil_r]. }
  rewrite Hitems.
  assert (Hne : hitems ++ file_items fs files ++ fitems ≠ []).
  { destruct files as [| p files]; [done |]. cbn [file_items].
    intros Hnil. apply app_eq_nil in Hnil as [_ Hnil]. discriminate Hnil. }
  rewrite split_join_lines by exact Hne.
  rewrite !map_app, !concat_app, file_items_lines by exact Hclean.
  f_equal; [| f_equal].
  - subst hitems. destruct (truthy header); [| reflexivity].
    cbn [map concat split_lines]. now rewrite app_nil_r.
  - subst fitems. destruct (truthy footer); [| reflexivity].
    cbn [map concat]. now rewrite app_nil_r.
Qed.

(** X14: what [parse_combined_file] gives back for a file of a snapshot
    written by [build_combined_text] (paths distinct, non-empty, on one
    line and left unchanged by [str.strip]; no line of a text, of the
    header or of the footer of the form [### x]). It is the file's text
    followed by two line feeds when another file follows; for the last
    file it is the text followed by one line feed when there is no footer,
    and by two line feeds and the footer itself otherwise; in each case
    with the leading line feeds removed. *)
Theorem decoded_text_exact (fs : filesystem) (files : list string)
    (header footer : string) (i : nat) (p : string) :
  Forall clean_path files ->
  NoDup files ->
  (forall q, q ∈ files -> plain_text (file_text fs q)) ->
  plain_text header ->
  plain_text footer ->
  files !! i = Some p ->
  parse_content (build_combined_text fs files header footer) !! p
  = Some (lstrip_newlines
            (file_text fs p +:+
               (if bool_decide (S i = length files)
                then (if truthy footer
                      then String LF (String LF footer)
                      else String LF "")
                else String LF (String LF "")))).
Proof.
  intros Hclean Hnd Hplain Hheader Hfooter Hi.
  assert (Hfiles : files ≠ []) by (intros ->; by rewrite lookup_nil in Hi).
  rewrite parse_content_last_binding. unfold re_split_headers.
  rewrite build_combined_text_lines_exact by done.
  set (after := if truthy footer then split_lines footer else []).
  assert (Hafter : Forall (fun l => header_capture l = None) after)
    by (subst after; destruct (truthy footer); [exact Hfooter | constructor]).
  rewrite pairs_plain_app.
  2:{ destruct (truthy header); [| constructor].
      apply Forall_app. split; [exact Hheader | now repeat constructor]. }
  destruct (pairs_of_file_lines_exact fs after files Hclean Hplain Hafter)
    as [Hkeys Hat].
  apply (last_binding_unique _ ltac:(now rewrite Hkeys) i).
  rewrite (Hat i p Hi). do 3 f_equal.
  destruct (bool_decide (S i = length files)); [| reflexivity].
  rewrite hd_after_blank by exact Hafter. subst after.
  destruct (truthy footer); [| reflexivity].
  pose proof (split_lines_nonempty footer) as Hne.
  destruct (split_lines footer) as [| l ls] eqn:Hlines; [done |].
  rewrite <- Hlines. now rewrite join_split_lines.
Qed.

Lemma pairs_keys (lines : list string) :
  (block_pairs (tail (blocks_of_lines lines))).*1
  = strip <$> omap header_capture lines.
Proof.
  induction lines as [| l lines IH]; [reflexivity |].
  cbn [omap list_omap]. destruct (header_capture l) as [path |] eqn:Hl.
  - rewrite (pairs_header_cons l path lines Hl).
    cbn [fmap list_fmap fst]. f_equal. exact IH.
  - now rewrite pairs_plain_cons.
Qed.

Lemma last_binding_is_Some (pairs : list (string * string)) (k : string) :
  is_Some (last_binding k pairs) <-> k ∈ pairs.*1.
Proof.
  split.
  - intros Hsome. destruct (decide (k ∈ pairs.*1)) as [Hin | Hout]; [done |].
    rewrite (last_binding_absent pairs k Hout) in Hsome.
    by destruct Hsome.
  - induction pairs as [| [k' v] pairs IH]; cbn [fmap list_fmap fst].
    + intros Hin. by apply elem_of_nil in Hin.
    + intros Hin. cbn [last_binding].
      destruct (last_binding k pairs) as [w |] eqn:Hlast; [by eexists |].
      apply elem_of_cons in Hin as [-> | Hin].
      * rewrite String.eqb_refl. by eexists.
      * destruct (IH Hin) as [w Hw]. discriminate Hw.
Qed.

(** X15: for any file whatever, the paths [parse_combined_file] returns are
    exactly the captures, after [str.strip], of the lines of the form
    [### x] with [x] not empty. A file that cannot be read, or that
    has no such line, gives the empty dictionary. *)
Theorem decoded_paths_are_header_lines (fs : filesystem)
    (filepath k : string) :
  is_Some (parse_combined_file fs filepath !! k) <->
  exists content line path,
    fs filepath = ReadOk content
    /\ line ∈ split_lines content
    /\ header_capture line = Some path
    /\ strip path = k.
Proof.
  unfold parse_combined_file. destruct (fs filepath) as [content | e].
  - rewrite parse_content_last_binding, last_binding_is_Some.
    unfold re_split_headers. rewrite pairs_keys.
    rewrite list_elem_of_fmap. split.
    + intros (path & -> & Hin). apply list_elem_of_omap in Hin as (line & Hin & Hl).
      exists content, line, path. done.
    + intros (content' & line & path & [= <-] & Hin & Hl & <-).
      exists path. split; [done |]. apply list_elem_of_omap. eauto.
  - rewrite lookup_empty. split.
    + intros Hsome. by destruct Hsome.
    + intros (content & line & path & Hread & _). discriminate Hread.
Qed.

End RestoreFacts.

(* ===================================================================== *)
(** * Further properties: eADR notes *)
(* ===================================================================== *)

Section NotesFacts.
Import Text Notes.

Lemma load_written_notes (notes : list Note) (disk disk' : NotesDisk) :
  write_notes notes disk = Some disk' ->
  load_eadr_notes disk' = notes /\ notes_writable disk' = notes_writable disk.
Proof.
  unfold write_notes. destruct (notes_writable disk) eqn:Hw; [| done].
  intros [= <-]. done.
Qed.

(** X16: a note that was saved can be taken back: on a writable disk
    [save_eadr_note] succeeds and adds the note at the end of what
    [load_eadr_notes] read before (nothing, when the file was absent or not
    parseable); deleting at that index returns the very note and leaves
    the notes as they were read before. *)
Theorem saved_note_can_be_deleted (timestamp note_text project_name : string)
    (disk : NotesDisk) :
  notes_writable disk = true ->
  let note := {| note_timestamp := timestamp; note_project := project_name;
                 note_text := note_text |} in
  let saved := save_eadr_note timestamp note_text project_name disk in
  let index := Z.of_nat (length (load_eadr_notes disk)) in
  saved.1 = true
  /\ load_eadr_notes saved.2 = load_eadr_notes disk ++ [note]
  /\ (delete_eadr_note index saved.2).1 = (true, Some note)
  /\ load_eadr_notes (delete_eadr_note index saved.2).2
     = load_eadr_notes disk.
Proof.
  intros Hw. cbn zeta. unfold save_eadr_note, write_notes. rewrite Hw.
  cbn [fst snd]. set (old := load_eadr_notes disk).
  set (note := {| note_timestamp := timestamp |}).
  unfold delete_eadr_note, write_notes. cbn [load_eadr_notes eadr_notes_json
                                               notes_writable].
  rewrite length_app. cbn [length].
  assert (Hin : (0 <=? Z.of_nat (length old))
                && (Z.of_nat (length old) <? Z.of_nat (length old + 1)) = true).
  { apply andb_true_iff. split; [apply Z.leb_le | apply Z.ltb_lt]; lia. }
  rewrite Hin, Nat2Z.id.
  assert (Hat : (old ++ [note]) !! length old = Some note).
  { rewrite lookup_app_r by lia. now rewrite Nat.sub_diag. }
  rewrite Hat. cbn [fst snd load_eadr_notes eadr_notes_json].
  do 3 (split; [done |]).
  rewrite delete_middle. apply app_nil_r.
Qed.

(** X17: [delete_eadr_note] refuses an index below 0 or not below the
    number of notes (so every index, when the file is absent, unreadable
    or empty) and a disk it cannot write: it returns [(False, None)] and
    the file is as before. Otherwise it returns the note at that index, and
    the file holds the notes before it followed by the notes after it. *)
Theorem delete_eadr_note_bounds (note_index : Z) (disk : NotesDisk) :
  let res := delete_eadr_note note_index disk in
  let notes := load_eadr_notes disk in
  (note_index < 0 \/ Z.of_nat (length notes) <= note_index
   \/ notes_writable disk = false ->
   res = ((false, None), disk))
  /\ (0 <= note_index < Z.of_nat (length notes) ->
      notes_writable disk = true ->
      exists deleted_note,
        notes !! Z.to_nat note_index = Some deleted_note
        /\ res.1 = (true, Some deleted_note)
        /\ load_eadr_notes res.2
           = take (Z.to_nat note_index) notes
             ++ drop (S (Z.to_nat note_index)) notes
        /\ S (length (load_eadr_notes res.2)) = length notes).
Proof.
  cbn zeta. unfold delete_eadr_note. set (notes := load_eadr_notes disk).
  split.
  - intros [Hneg | [Hbig | Hw]].
    + assert ((0 <=? note_index) = false) as -> by (apply Z.leb_gt; lia).
      reflexivity.
    + assert ((note_index <? Z.of_nat (length notes)) = false) as ->
        by (apply Z.ltb_ge; lia).
      now rewrite andb_false_r.
    + destruct ((0 <=? note_index) && (note_index <? Z.of_nat (length notes)));
        [| reflexivity].
      destruct (notes !! Z.to_nat note_index); [| reflexivity].
      unfold write_notes. now rewrite Hw.
  - intros [Hlo Hhi] Hw.
    assert ((0 <=? note_index) && (note_index <? Z.of_nat (length notes))
            = true) as ->.
    { apply andb_true_iff. split; [apply Z.leb_le | apply Z.ltb_lt]; lia. }
    assert (Hlt : (Z.to_nat note_index < length notes)%nat) by lia.
    destruct (lookup_lt_is_Some_2 notes _ Hlt) as [deleted Hat].
    rewrite Hat. unfold write_notes. rewrite Hw.
    cbn [fst snd load_eadr_notes eadr_notes_json].
    exists deleted. split; [done |]. split; [done |].
    split; [apply delete_take_drop |].
    rewrite length_delete by (now exists deleted). lia.
Qed.

End NotesFacts.

(* ===================================================================== *)
(** * Further properties: the recorder of [auto_claude_recorder.py] *)
(* ===================================================================== *)

Section AutoRecorderFacts.
Import Text SourceInference Prompts AutoRecorder.
Context `{PyRuntime} `{PyStr}.

Lemma save_prompt_spec (entry : JsonPrompt) (r : Recorder) :
  let res := save_prompt entry r in
  res.1 = db_writable r
  /\ (db_writable r = true ->
      claude_prompts_json res.2
      = Parsed (entries_read (claude_prompts_json r) ++ [entry]))
  /\ (db_writable r = false -> res.2 = r)
  /\ active_files res.2 = active_files r
  /\ auto_record_enabled res.2 = auto_record_enabled r
  /\ ids_drawn res.2 = ids_drawn r.
Proof.
  cbn zeta. unfold save_prompt, load_prompts.
  destruct r as [f w files enabled n]. cbn.
  destruct f as [| | data]; destruct w; cbn; done.
Qed.

(** X18: [auto_record_prompt] records exactly when recording is enabled,
    the prompt is not empty after [str.strip] and the file can be written.
    When
    it does not record, the file is as before. When it does, the file
    holds the entries [load_prompts] could read before (none, for a file
    that was absent or not parseable) followed by one entry with the
    returned identifier, the text as given, the registered files, the
    model ["Claude"], the source ["Claude Desktop"], and the description
    or, for an empty one, ["Auto-recorded from Claude Desktop"]. *)
Theorem auto_record_prompt_outcome (now : Z)
    (prompt_text description : string) (r : Recorder) :
  let res := auto_record_prompt now prompt_text description r in
  (success res.1 = true <->
   auto_record_enabled r = true /\ strip prompt_text ≠ ""
   /\ db_writable r = true)
  /\ (success res.1 = false ->
      claude_prompts_json res.2 = claude_prompts_json r)
  /\ (forall prompt_id, res.1 = Recorded prompt_id ->
      prompt_id = uuid4 (ids_drawn r)
      /\ claude_prompts_json res.2
         = Parsed (entries_read (claude_prompts_json r)
                   ++ [prompt_data prompt_id now prompt_text description
                                   (active_files r)]))
  /\ active_files res.2 = active_files r
  /\ auto_record_enabled res.2 = auto_record_enabled r.
Proof.
  cbn zeta. unfold auto_record_prompt.
  destruct (auto_record_enabled r) eqn:Hen; cbn [negb].
  2:{ cbn. split; [split; [done | intros (? & _); done] |]. done. }
  destruct (strip prompt_text) as [| c rest] eqn:Hstrip; cbn [truthy negb].
  { cbn. split; [split; [done | intros (_ & ? & _); done] |]. done. }
  set (r1 := {| claude_prompts_json := claude_prompts_json r |}).
  set (entry := prompt_data _ _ _ _ _).
  destruct (save_prompt_spec entry r1) as (Hok & Hfile & Hsame & Hfiles & Hon & _).
  destruct (save_prompt entry r1) as [ok r2]. cbn [fst snd] in *.
  subst ok. subst r1. cbn [db_writable claude_prompts_json active_files
                            auto_record_enabled] in *.
  destruct (db_writable r) eqn:Hw; cbn [success fst snd].
  - split; [split; [done | done] |]. split; [done |].
    split; [| split; [done | congruence]].
    intros prompt_id [= <-]. split; [done |]. now apply Hfile.
  - split; [split; [done | intros (_ & _ & ?); done] |].
    split; [intros _; now rewrite (Hsame eq_refl) |].
    split; [done |]. split; [done | congruence].
Qed.

Lemma auto_record_prompt_recorded (now : Z) (text desc prompt_id : string)
    (r : Recorder) :
  (auto_record_prompt now text desc r).1 = Recorded prompt_id ->
  claude_prompts_json (auto_record_prompt now text desc r).2
  = Parsed (entries_read (claude_prompts_json r)
            ++ [prompt_data prompt_id now text desc (active_files r)]).
Proof.
  unfold auto_record_prompt.
  destruct (auto_record_enabled r); cbn [negb]; [| done].
  destruct (truthy (strip text)); cbn [negb]; [| done].
  set (r1 := {| claude_prompts_json := claude_prompts_json r |}).
  set (entry := prompt_data _ _ _ _ _).
  destruct (save_prompt_spec entry r1) as (Hok & Hfile & _).
  destruct (save_prompt entry r1) as [ok r2]. cbn [fst snd] in *.
  destruct ok; [| done]. intros [= <-]. now apply Hfile.
Qed.

Lemma load_records_entries (now : Z) (claude : json_file) (st : DbState) :
  well_formed st ->
  records (load now claude st).2
  = foldl (merge_step now) (records (load_primary now st).2)
          (entries_read claude).
Proof.
  intros Hwf. destruct (load_spec now claude st Hwf) as (_ & _ & ->).
  now destruct claude.
Qed.

(** X19: a prompt recorded by [auto_record_prompt] reaches the prompt
    database: when [PromptDatabase.load] reads the file that was written,
    the collection is what it would have been with the file as it was
    before, followed by one record with the returned identifier, the
    text, the registered files as associated files, the model ["Claude"]
    and the source ["Unknown"] (the key [source] is not read); with the
    default description the history labels it ["Claude Desktop"]. The
    identifier is assumed not to be in that collection already. *)
Theorem auto_recorded_prompt_is_loaded (now now' : Z)
    (text desc prompt_id : string) (r : Recorder) (st : DbState) :
  well_formed st ->
  (auto_record_prompt now text desc r).1 = Recorded prompt_id ->
  Some prompt_id ∉ record_ids (load now' (claude_prompts_json r) st).2 ->
  let written :=
    claude_prompts_json (auto_record_prompt now text desc r).2 in
  exists record,
    records (load now' written st).2
    = records (load now' (claude_prompts_json r) st).2 ++ [record]
    /\ rec_id record = Some prompt_id
    /\ prompt_text record = text
    /\ llm_used record = "Claude"
    /\ description record
       = (if truthy desc then desc else "Auto-recorded from Claude Desktop")
    /\ associated_files record = active_files r
    /\ file_changes record = ∅
    /\ source record = "Unknown"
    /\ (desc = "" ->
        infer_source (llm_used record) (description record)
        = "Claude Desktop").
Proof.
  intros Hwf Hrec Hfresh. cbn zeta.
  rewrite (auto_record_prompt_recorded now text desc prompt_id r Hrec).
  unfold record_ids in Hfresh.
  rewrite !load_records_entries in * by exact Hwf.
  cbn [entries_read]. rewrite foldl_app. cbn [foldl].
  set (recs := foldl (merge_step now') _ (entries_read (claude_prompts_json r)))
    in *.
  set (entry := prompt_data prompt_id now text desc (active_files r)).
  exists (imported_record now' entry). split.
  - unfold merge_step.
    destruct (existsb _ recs) eqn:Hknown; [| reflexivity].
    apply id_known_iff in Hknown. contradiction.
  - cbn. do 7 (split; [reflexivity |]). intros ->. reflexivity.
Qed.

End AutoRecorderFacts.

(* ===================================================================== *)
(** * Further properties: importing from the extension server *)
(* ===================================================================== *)

Section ImportFacts.
Import Text Prompts Session ExtensionImport.
Context `{PyRuntime}.

Lemma list_find_same_on (P1 P2 : nat -> Prop)
    `{!forall x, Decision (P1 x), !forall x, Decision (P2 x)} (l : list nat) :
  (forall x, x ∈ l -> P1 x <-> P2 x) -> list_find P1 l = list_find P2 l.
Proof.
  induction l as [| a l IH]; intros Hiff; [done |].
  assert (Ha : P1 a <-> P2 a) by (apply Hiff; apply elem_of_cons; now left).
  assert (Hl : list_find P1 l = list_find P2 l).
  { apply IH. intros x Hx. apply Hiff. apply elem_of_cons. now right. }
  cbn [list_find]. rewrite Hl.
  destruct (decide (P1 a)), (decide (P2 a)); tauto.
Qed.

(** The three ways one turn of the loop can go. *)
Lemma import_prompt_spec (now : Z) (counts : ImportCounts) (st : DbState)
    (p : JsonPrompt) :
  let text := default "" (j_prompt_text p) in
  let llm := default "Unknown LLM" (j_llm_used p) in
  let res := import_prompt now (counts, st) p in
  (exists i l existing,
     list_find (fun l => has_id st (get_id p) l = true) (prompts st)
     = Some (i, l)
     /\ heap st !! l = Some existing
     /\ (prompt_text existing ≠ text \/ llm_used existing ≠ llm)
     /\ imported_count res.1 = imported_count counts
     /\ updated_count res.1 = S (updated_count counts)
     /\ unchanged_count res.1 = unchanged_count counts
     /\ res.2 = set_heap
                  (<[l := updated_record text llm
                            (default "Imported from browser extension"
                                     (j_description p)) existing]> (heap st))
                  st)
  \/ (exists i l existing,
        list_find (fun l => has_id st (get_id p) l = true) (prompts st)
        = Some (i, l)
        /\ heap st !! l = Some existing
        /\ prompt_text existing = text /\ llm_used existing = llm
        /\ imported_count res.1 = imported_count counts
        /\ updated_count res.1 = updated_count counts
        /\ unchanged_count res.1 = S (unchanged_count counts)
        /\ res.2 = st)
  \/ (list_find (fun l => has_id st (get_id p) l = true) (prompts st) = None
      /\ exists r,
           rec_id r = get_id p /\ prompt_text r = text /\ llm_used r = llm
           /\ associated_files r = default [] (j_associated_files p)
           /\ file_changes r = ∅
           /\ imported_count res.1 = S (imported_count counts)
           /\ updated_count res.1 = updated_count counts
           /\ unchanged_count res.1 = unchanged_count counts
           /\ heap res.2 = <[fresh (dom (heap st)) := r]> (heap st)
           /\ prompts res.2 = prompts st ++ [fresh (dom (heap st))]
           /\ active_prompt res.2 = active_prompt st
           /\ prompt_database_json res.2 = prompt_database_json st
           /\ writable res.2 = writable st).
Proof.
  cbn zeta. unfold import_prompt.
  destruct (list_find _ (prompts st)) as [[i l] |] eqn:Hfind.
  - pose proof Hfind as Hfound.
    apply list_find_Some in Hfound as (_ & (existing & Hex & _)%has_id_true & _).
    rewrite Hex.
    destruct (bool_decide (prompt_text existing ≠ default "" (j_prompt_text p)))
      eqn:Htext;
      [| destruct (bool_decide (llm_used existing
                                ≠ default "Unknown LLM" (j_llm_used p)))
           eqn:Hllm]; cbn [orb fst snd].
    + left. exists i, l, existing. apply bool_decide_eq_true in Htext.
      do 2 (split; [done |]). split; [now left | done].
    + left. exists i, l, existing. apply bool_decide_eq_true in Hllm.
      do 2 (split; [done |]). split; [now right | done].
    + right; left. exists i, l, existing.
      apply bool_decide_eq_false in Htext, Hllm.
      apply dec_stable in Htext, Hllm. done.
  - right; right. split; [done |].
    unfold new_prompt_record, alloc.
    cbn [heap set_uuid_drawn set_heap prompts fst snd].
    rewrite alter_insert_eq.
    exists (with_id_and_files (get_id p) (default [] (j_associated_files p))
              (init_record (uuid4 (uuid_drawn st)) now
                 (default "" (j_prompt_text p))
                 (default "Unknown LLM" (j_llm_used p))
                 (default "Imported from browser extension"
                          (j_description p)))).
    cbn. do 8 (split; [reflexivity |]). done.
Qed.

(** What one turn does to the database. *)
Lemma import_prompt_effect (now : Z) (counts : ImportCounts) (st : DbState)
    (p : JsonPrompt) :
  well_formed st ->
  let res := import_prompt now (counts, st) p in
  well_formed res.2
  /\ (imported_count res.1 + updated_count res.1 + unchanged_count res.1
      = S (imported_count counts + updated_count counts
           + unchanged_count counts))%nat
  /\ (exists new, prompts res.2 = prompts st ++ new
                  /\ (length new + imported_count counts
                      = imported_count res.1)%nat)
  /\ (updated_count counts <= updated_count res.1)%nat
  /\ active_prompt res.2 = active_prompt st
  /\ (forall l r, heap st !! l = Some r ->
        exists r', heap res.2 !! l = Some r'
                   /\ rec_id r' = rec_id r
                   /\ associated_files r' = associated_files r
                   /\ file_changes r' = file_changes r)
  /\ get_id p ∈ record_ids res.2.
Proof.
  intros Hwf.
  destruct (import_prompt_spec now counts st p)
    as [(i & l & existing & Hfind & Hex & _ & Hi & Hu & Hn & Hst)
       | [(i & l & existing & Hfind & Hex & _ & _ & Hi & Hu & Hn & Hst)
         | (Hfind & r & Hid & _ & _ & _ & _ & Hi & Hu & Hn & Hheap & Hps
            & Hact & _)]];
    cbn zeta; set (res := import_prompt now (counts, st) p) in *.
  - apply list_find_Some in Hfind
      as (Hat & (x & Hx & Hxid)%has_id_true & _).
    assert (x = existing) as -> by congruence.
    rewrite Hst. cbn [prompts heap active_prompt set_heap].
    split; [| split; [lia | split; [| split; [lia | split; [done | split]]]]].
    + intros y Hy. cbn [prompts heap set_heap] in Hy |- *.
      destruct (decide (y = l)) as [-> | Hne].
      * rewrite lookup_insert_eq. by eexists.
      * rewrite lookup_insert_ne by done. now apply Hwf.
    + exists []. rewrite app_nil_r. split; [done | cbn [length]; lia].
    + intros y r Hr. destruct (decide (y = l)) as [-> | Hne].
      * rewrite lookup_insert_eq. eexists. split; [done |].
        assert (r = existing) as -> by congruence. done.
      * rewrite lookup_insert_ne by done. eauto.
    + apply id_recorded_iff. exists l. cbn [prompts set_heap].
      split; [now apply list_elem_of_lookup_2 in Hat |].
      apply has_id_true. cbn [heap set_heap]. rewrite lookup_insert_eq.
      eexists. split; [done |]. exact Hxid.
  - rewrite Hst.
    split; [done | split; [lia | split; [| split; [lia | split; [done | split]]]]].
    + exists []. rewrite app_nil_r. split; [done | cbn [length]; lia].
    + intros y r Hr. eauto.
    + apply list_find_Some in Hfind as (Hat & Hl & _).
      apply id_recorded_iff. exists l.
      split; [now apply list_elem_of_lookup_2 in Hat | done].
  - pose proof (fresh_not_allocated (heap st)) as Hfresh.
    set (l := fresh (dom (heap st))) in *.
    split; [| split; [lia | split; [| split; [lia | split; [done | split]]]]].
    + intros y Hy. rewrite Hps in Hy. rewrite Hheap.
      apply elem_of_app in Hy as [Hy | Hy].
      * destruct (Hwf y Hy) as [x Hx]. exists x.
        rewrite lookup_insert_ne; [done |]. intros <-. congruence.
      * apply list_elem_of_singleton in Hy as ->.
        rewrite lookup_insert_eq. by eexists.
    + exists [l]. split; [done | cbn [length]; lia].
    + intros y x Hx. rewrite Hheap. exists x.
      rewrite lookup_insert_ne; [done |]. intros <-. congruence.
    + apply id_recorded_iff. exists l. rewrite Hps.
      split; [apply elem_of_app; right; now apply list_elem_of_singleton |].
      apply has_id_true. rewrite Hheap, lookup_insert_eq. eauto.
Qed.

(** The whole loop. *)
Lemma import_loop_effect (now : Z) (data : list JsonPrompt) :
  forall (counts : ImportCounts) (st : DbState),
    well_formed st ->
    let res := foldl (import_prompt now) (counts, st) data in
    well_formed res.2
    /\ (imported_count res.1 + updated_count res.1 + unchanged_count res.1
        = imported_count counts + updated_count counts
          + unchanged_count counts + length data)%nat
    /\ (exists new, prompts res.2 = prompts st ++ new
                    /\ (length new + imported_count counts
                        = imported_count res.1)%nat)
    /\ (updated_count counts <= updated_count res.1)%nat
    /\ active_prompt res.2 = active_prompt st
    /\ (forall l r, heap st !! l = Some r ->
          exists r', heap res.2 !! l = Some r'
                     /\ rec_id r' = rec_id r
                     /\ associated_files r' = associated_files r
                     /\ file_changes r' = file_changes r)
    /\ (forall p, p ∈ data -> get_id p ∈ record_ids res.2).
Proof.
  induction data as [| p data IH]; intros counts st Hwf; cbn zeta.
  - cbn [foldl fst snd length]. split; [done |]. split; [lia |].
    split; [exists []; rewrite app_nil_r; split; [done | cbn [length]; lia] |].
    split; [lia |]. split; [done |]. split; [eauto |].
    intros p Hp. by apply elem_of_nil in Hp.
  - cbn [foldl].
    destruct (import_prompt_effect now counts st p Hwf)
      as (Hwf1 & Hsum1 & (new1 & Hps1 & Hlen1) & Hu1 & Hact1 & Hheap1 & Hid1).
    destruct (import_prompt now (counts, st) p) as [counts1 st1].
    cbn [fst snd] in *.
    destruct (IH counts1 st1 Hwf1)
      as (Hwf' & Hsum' & (new' & Hps' & Hlen') & Hu' & Hact' & Hheap' & Hid').
    split; [done |]. split; [cbn [length]; lia |].
    split; [exists (new1 ++ new'); rewrite Hps', Hps1, <- app_assoc;
            split; [done | rewrite length_app; lia] |].
    split; [lia |]. split; [congruence |]. split.
    + intros l r Hr. destruct (Hheap1 l r Hr) as (r1 & Hr1 & Hid & Hf & Hc).
      destruct (Hheap' l r1 Hr1) as (r' & Hr' & Hid2 & Hf2 & Hc2).
      exists r'. split; [done |]. split; [congruence |].
      split; congruence.
    + intros q Hq. apply elem_of_cons in Hq as [-> | Hq]; [| now apply Hid'].
      apply id_recorded_iff in Hid1 as (l & Hl & (r & Hr & Hrid)%has_id_true).
      destruct (Hheap' l r Hr) as (r' & Hr' & Hid2 & _).
      apply id_recorded_iff. exists l. split.
      * rewrite Hps'. apply elem_of_app. now left.
      * apply has_id_true. exists r'. split; [done | congruence].
Qed.

(** X20: [import_all_prompts], given the list of the server's answer. The
    three counts it reports add up to the length of the list. The
    collection keeps its records in place and grows at the end by as many
    records as were counted as imported. No record that existed changes
    its identifier, its associated files or its token deltas, and the
    active prompt stays. Afterwards every identifier of the answer is the
    identifier of a record of the collection. *)
Theorem import_all_prompts_effect (now : Z) (data : list JsonPrompt)
    (st : DbState) :
  well_formed st ->
  let res := import_all_prompts now data st in
  well_formed res.2
  /\ (imported_count res.1 + updated_count res.1 + unchanged_count res.1
      = length data)%nat
  /\ (exists new, prompts res.2 = prompts st ++ new
                  /\ length new = imported_count res.1)
  /\ active_prompt res.2 = active_prompt st
  /\ (forall l r, heap st !! l = Some r ->
        exists r', heap res.2 !! l = Some r'
                   /\ rec_id r' = rec_id r
                   /\ associated_files r' = associated_files r
                   /\ file_changes r' = file_changes r)
  /\ (forall p, p ∈ data -> get_id p ∈ record_ids res.2).
Proof.
  intros Hwf. cbn zeta. unfold import_all_prompts.
  destruct (import_loop_effect now data
              {| imported_count := 0; updated_count := 0;
                 unchanged_count := 0 |} st Hwf)
    as (Hwf' & Hsum & (new & Hps & Hlen) & _ & Hact & Hheap & Hids).
  destruct (foldl _ _ data) as [counts st']. cbn [fst snd] in *.
  cbn [imported_count updated_count unchanged_count] in *.
  destruct ((0 <? imported_count counts)%nat || (0 <? updated_count counts)%nat);
    cbn [fst snd].
  - split; [now apply save_well_formed |]. split; [lia |].
    rewrite save_prompts, save_active_prompt, save_heap.
    split; [exists new; split; [done | lia] |]. split; [done |].
    split; [done |]. intros p Hp. unfold record_ids.
    rewrite save_records. now apply Hids.
  - split; [done |]. split; [lia |].
    split; [exists new; split; [done | lia] |]. done.
Qed.

(** Being in step only depends on the collection and on what its records
    say. *)
Lemma in_step_transfer (st st' : DbState) (q : JsonPrompt)
    (new : list nat) :
  prompts st' = prompts st ++ new ->
  (forall x, x ∈ prompts st ->
             has_id st' (get_id q) x = has_id st (get_id q) x) ->
  (forall x r, x ∈ prompts st -> heap st !! x = Some r ->
               rec_id r = get_id q -> heap st' !! x = Some r) ->
  in_step st q -> in_step st' q.
Proof.
  intros Hps Hids Hheap (j & lq & rq & Hfind & Hrq & Htext & Hllm).
  exists j, lq, rq. rewrite Hps.
  pose proof Hfind as Hfound.
  apply list_find_Some in Hfound as (Hat & (x & Hx & Hxid)%has_id_true & _).
  assert (x = rq) as -> by congruence.
  apply list_elem_of_lookup_2 in Hat.
  split; [| split; [now apply Hheap | done]].
  apply list_find_app_l. rewrite <- Hfind.
  apply list_find_same_on. intros y Hy. now rewrite Hids.
Qed.

Lemma has_id_updated (st : DbState) (l x : nat) (existing r : PromptRecord)
    (prompt_id : option string) :
  heap st !! l = Some existing -> rec_id r = rec_id existing ->
  has_id (set_heap (<[l := r]> (heap st)) st) prompt_id x
  = has_id st prompt_id x.
Proof.
  intros Hex Hid. unfold has_id. cbn [heap set_heap].
  destruct (decide (x = l)) as [-> | Hne].
  - rewrite lookup_insert_eq, Hex. now rewrite Hid.
  - now rewrite lookup_insert_ne.
Qed.

(** After its turn, a prompt of the answer is in step. *)
Lemma import_prompt_in_step (now : Z) (counts : ImportCounts) (st : DbState)
    (p : JsonPrompt) :
  well_formed st -> in_step (import_prompt now (counts, st) p).2 p.
Proof.
  intros Hwf.
  destruct (import_prompt_spec now counts st p)
    as [(i & l & existing & Hfind & Hex & _ & _ & _ & _ & Hst)
       | [(i & l & existing & Hfind & Hex & Htext & Hllm & _ & _ & _ & Hst)
         | (Hfind & r & Hid & Htext & Hllm & _ & _ & _ & _ & _ & Hheap & Hps
            & _)]].
  - rewrite Hst. exists i, l. eexists. cbn [prompts heap set_heap].
    split; [| split; [apply lookup_insert_eq | done]].
    rewrite <- Hfind. apply list_find_ext. intros x.
    now rewrite (has_id_updated st l x existing).
  - rewrite Hst. exists i, l, existing. done.
  - pose proof (fresh_not_allocated (heap st)) as Hfresh.
    set (l := fresh (dom (heap st))) in *.
    exists (length (prompts st)), l, r. rewrite Hps, Hheap.
    split; [| split; [apply lookup_insert_eq | done]].
    apply list_find_Some. split; [| split].
    + rewrite lookup_app_r by lia. now rewrite Nat.sub_diag.
    + apply has_id_true. rewrite Hheap, lookup_insert_eq. eauto.
    + intros j y Hy Hj. rewrite lookup_app_l in Hy by lia.
      apply list_find_None in Hfind. rewrite Forall_forall in Hfind.
      apply list_elem_of_lookup_2 in Hy.
      intros Hyes. apply (Hfind y Hy).
      assert (Hne : y ≠ l).
      { intros ->. destruct (Hwf l Hy) as [z Hz]. congruence. }
      unfold has_id in Hyes |- *. rewrite Hheap in Hyes.
      now rewrite lookup_insert_ne in Hyes.
Qed.

(** The turn of a prompt with another identifier does not change that. *)
Lemma import_prompt_keeps_in_step (now : Z) (counts : ImportCounts)
    (st : DbState) (p q : JsonPrompt) :
  well_formed st -> get_id q ≠ get_id p ->
  in_step st q -> in_step (import_prompt now (counts, st) p).2 q.
Proof.
  intros Hwf Hne Hq.
  destruct (import_prompt_spec now counts st p)
    as [(i & l & existing & Hfind & Hex & _ & _ & _ & _ & Hst)
       | [(i & l & existing & Hfind & Hex & _ & _ & _ & _ & _ & Hst)
         | (Hfind & r & Hid & _ & _ & _ & _ & _ & _ & _ & Hheap & Hps & _)]].
  - rewrite Hst. apply (in_step_transfer st _ q []); [| | | exact Hq].
    + cbn [prompts set_heap]. now rewrite app_nil_r.
    + intros x _. now rewrite (has_id_updated st l x existing).
    + intros x rx _ Hrx Hrid. cbn [heap set_heap].
      rewrite lookup_insert_ne; [done |]. intros <-.
      apply list_find_Some in Hfind
        as (_ & (z & Hz & Hzid)%has_id_true & _).
      congruence.
  - now rewrite Hst.
  - pose proof (fresh_not_allocated (heap st)) as Hfresh.
    set (l := fresh (dom (heap st))) in *.
    apply (in_step_transfer st _ q [l]); [exact Hps | | | exact Hq].
    + intros x Hx. unfold has_id. rewrite Hheap.
      rewrite lookup_insert_ne; [done |].
      intros <-. destruct (Hwf l Hx) as [z Hz]. congruence.
    + intros x rx _ Hrx _. rewrite Hheap.
      rewrite lookup_insert_ne; [done |]. intros <-. congruence.
Qed.

Lemma import_loop_in_step (now : Z) (data : list JsonPrompt) :
  NoDup (get_id <$> data) ->
  forall (counts : ImportCounts) (st : DbState) (q : JsonPrompt),
    well_formed st ->
    q ∈ data \/ (in_step st q /\ get_id q ∉ get_id <$> data) ->
    in_step (foldl (import_prompt now) (counts, st) data).2 q.
Proof.
  induction data as [| p data IH]; intros Hnd counts st q Hwf Hq.
  - destruct Hq as [Hq | [Hq _]]; [by apply elem_of_nil in Hq | done].
  - rewrite fmap_cons in Hnd. apply NoDup_cons in Hnd as [Hp Hnd].
    cbn [foldl].
    pose proof (import_prompt_effect now counts st p Hwf) as (Hwf1 & _).
    pose proof (import_prompt_in_step now counts st p Hwf) as Hin.
    pose proof (import_prompt_keeps_in_step now counts st p) as Hkeep.
    destruct (import_prompt now (counts, st) p) as [counts1 st1].
    cbn [fst snd] in *. apply (IH Hnd counts1 st1 q Hwf1).
    destruct Hq as [Hq | [Hq Hout]].
    + apply elem_of_cons in Hq as [-> | Hq]; [right | now left]. done.
    + rewrite fmap_cons in Hout. apply not_elem_of_cons in Hout as [Hne Hout].
      right. split; [| done]. now apply Hkeep.
Qed.

(** A prompt that is in step is counted as unchanged, and nothing is
    written. *)
Lemma import_prompt_unchanged (now : Z) (counts : ImportCounts) (st : DbState)
    (p : JsonPrompt) :
  in_step st p ->
  import_prompt now (counts, st) p
  = ({| imported_count := imported_count counts;
        updated_count := updated_count counts;
        unchanged_count := S (unchanged_count counts) |}, st).
Proof.
  intros (i & l & existing & Hfind & Hex & Htext & Hllm).
  unfold import_prompt. rewrite Hfind, Hex.
  rewrite (bool_decide_eq_false_2 _ (fun Hne => Hne Htext)).
  rewrite (bool_decide_eq_false_2 _ (fun Hne => Hne Hllm)).
  reflexivity.
Qed.

Lemma import_loop_unchanged (now : Z) (data : list JsonPrompt) (st : DbState) :
  (forall p, p ∈ data -> in_step st p) ->
  forall counts,
    foldl (import_prompt now) (counts, st) data
    = ({| imported_count := imported_count counts;
          updated_count := updated_count counts;
          unchanged_count := unchanged_count counts + length data |}, st).
Proof.
  induction data as [| p data IH]; intros Hall counts; cbn [foldl length].
  - rewrite Nat.add_0_r. now destruct counts.
  - rewrite import_prompt_unchanged by (apply Hall; apply elem_of_cons; now left).
    rewrite IH by (intros q Hq; apply Hall; apply elem_of_cons; now right).
    cbn [imported_count updated_count unchanged_count]. do 2 f_equal. lia.
Qed.

Lemma in_step_save (st : DbState) (p : JsonPrompt) :
  in_step st p -> in_step (save st).2 p.
Proof.
  intros (i & l & existing & Hfind & Hex & Htext & Hllm).
  exists i, l, existing. rewrite save_prompts, save_heap.
  split; [| done]. rewrite <- Hfind. apply list_find_ext. intros x.
  now rewrite has_id_save.
Qed.

(** X21: when the identifiers of the server's answer are pairwise
    distinct, one import brings the database in step with the answer: for
    every prompt of the answer, the first record with its identifier has
    its text and its model name. Importing the same answer again then
    counts every prompt as unchanged, imports and updates nothing, and
    leaves the database, the file included, exactly as it is. *)
Theorem import_all_prompts_settles (now now' : Z) (data : list JsonPrompt)
    (st : DbState) :
  well_formed st ->
  NoDup (get_id <$> data) ->
  let st1 := (import_all_prompts now data st).2 in
  (forall p, p ∈ data -> in_step st1 p)
  /\ import_all_prompts now' data st1
     = ({| imported_count := 0; updated_count := 0;
           unchanged_count := length data |}, st1).
Proof.
  intros Hwf Hnd. cbn zeta.
  assert (Hsync : forall p, p ∈ data ->
                    in_step (import_all_prompts now data st).2 p).
  { intros p Hp. unfold import_all_prompts.
    pose proof (import_loop_in_step now data Hnd
                  {| imported_count := 0; updated_count := 0;
                     unchanged_count := 0 |} st p Hwf (or_introl Hp)) as Hin.
    destruct (foldl _ _ data) as [counts st']. cbn [fst snd] in *.
    destruct ((0 <? imported_count counts)%nat
              || (0 <? updated_count counts)%nat); cbn [snd];
      [now apply in_step_save | done]. }
  split; [exact Hsync |].
  unfold import_all_prompts at 1.
  rewrite (import_loop_unchanged now' data _ Hsync). reflexivity.
Qed.

End ImportFacts.

(* ===================================================================== *)
(** * Further properties: associating files by hand *)
(* ===================================================================== *)

Section ManualFacts.
Import Text Prompts Session Manual.
Context `{PyRuntime}.

(** The loop over the selected files, on a record that exists. *)
Lemma add_file_loop (l : nat) (d : Z) (files : list string) :
  forall (n : nat) (st : DbState) (r : PromptRecord),
    heap st !! l = Some r ->
    let res := foldl (add_file l d) (n, st) files in
    prompts res.2 = prompts st
    /\ active_prompt res.2 = active_prompt st
    /\ (forall l', l' ≠ l -> heap res.2 !! l' = heap st !! l')
    /\ exists r',
         heap res.2 !! l = Some r'
         /\ extends r r'
         /\ rec_id r' = rec_id r
         /\ retroactive_notes r' = retroactive_notes r
         /\ (forall f, f ∈ files -> f ∈ associated_files r')
         /\ (forall f, f ∈ files -> f ∉ associated_files r ->
               file_changes r' !! f = Some d)
         /\ (forall f, f ∈ associated_files r' ->
               f ∈ associated_files r \/ f ∈ files)
         /\ (length (associated_files r') + n
             = length (associated_files r) + res.1)%nat
         /\ (res.1 <= n + length files)%nat
         /\ (NoDup (associated_files r) -> NoDup (associated_files r')).
Proof.
  induction files as [| f files IH]; intros n st r Hr; cbn [foldl].
  - cbn zeta. cbn [fst snd length]. do 3 (split; [done |]). exists r.
    split; [done |]. split; [apply extends_refl |]. do 2 (split; [done |]).
    split; [intros f Hf; by apply elem_of_nil in Hf |].
    split; [intros f Hf; by apply elem_of_nil in Hf |].
    split; [auto |]. split; [lia |]. split; [lia | done].
  - assert (Hstep : add_file l d (n, st) f
                    = if bool_decide (f ∉ associated_files r)
                      then (S n, set_heap (<[l := with_association f d r]>
                                             (heap st)) st)
                      else (n, st))
      by (unfold add_file; now rewrite Hr).
    rewrite Hstep. clear Hstep. case_bool_decide as Hnew.
    + destruct (IH (S n) (set_heap (<[l := with_association f d r]> (heap st)) st)
                   (with_association f d r))
        as (Hps & Hact & Hoth & r' & Hr' & Hext & Hid & Hnotes & Hall & Hval
            & Hfrom & Hlen & Hle & Hnd).
      { cbn. apply lookup_insert_eq. }
      cbn zeta. split; [exact Hps |]. split; [exact Hact |]. split.
      { intros l' Hne. rewrite Hoth by done. cbn. now apply lookup_insert_ne. }
      exists r'. split; [exact Hr' |].
      assert (Hext1 : extends r (with_association f d r))
        by now apply extends_with_association.
      split; [now apply (extends_trans _ _ _ Hext1) |].
      split; [exact Hid |]. split; [exact Hnotes |].
      split; [| split; [| split; [| split; [| split]]]].
      * intros g Hg. apply elem_of_cons in Hg as [-> | Hg]; [| now apply Hall].
        apply Hext. cbn. apply elem_of_app. right.
        now apply list_elem_of_singleton.
      * intros g Hg Hgnew. destruct (decide (g = f)) as [-> | Hne].
        -- destruct Hext as [_ Hkeep]. rewrite Hkeep.
           ++ cbn. apply lookup_insert_eq.
           ++ cbn. apply elem_of_app. right. now apply list_elem_of_singleton.
        -- apply elem_of_cons in Hg as [-> | Hg]; [done |].
           apply Hval; [done |]. cbn. intros [Hin | Hin]%elem_of_app; [done |].
           apply list_elem_of_singleton in Hin. done.
      * intros g Hg. destruct (Hfrom g Hg) as [Hin | Hin].
        -- cbn in Hin. apply elem_of_app in Hin as [Hin | Hin]; [now left |].
           apply list_elem_of_singleton in Hin as ->. right.
           apply elem_of_cons. now left.
        -- right. apply elem_of_cons. now right.
      * cbn [associated_files with_association] in Hlen.
        rewrite length_app in Hlen. cbn [length] in Hlen. lia.
      * cbn [length]. lia.
      * intros Hnd0. apply Hnd. cbn. apply NoDup_app.
        split; [done |]. split; [| apply NoDup_singleton].
        intros x Hx Hx'. apply list_elem_of_singleton in Hx' as ->. done.
    + assert (Hold : f ∈ associated_files r)
        by (destruct (decide (f ∈ associated_files r)); [done | contradiction]).
      clear Hnew. rename Hold into Hnew.
      destruct (IH n st r Hr)
        as (Hps & Hact & Hoth & r' & Hr' & Hext & Hid & Hnotes & Hall & Hval
            & Hfrom & Hlen & Hle & Hnd).
      cbn zeta. do 3 (split; [done |]). exists r'.
      do 4 (split; [done |]).
      split; [| split; [| split; [| split; [| split]]]].
      * intros g Hg. apply elem_of_cons in Hg as [-> | Hg]; [| now apply Hall].
        now apply Hext.
      * intros g Hg Hgnew. apply elem_of_cons in Hg as [-> | Hg]; [done |].
        now apply Hval.
      * intros g Hg. destruct (Hfrom g Hg) as [Hin | Hin]; [now left |].
        right. apply elem_of_cons. now right.
      * exact Hlen.
      * cbn [length]. lia.
      * exact Hnd.
Qed.

(** Files that are all associated already: the loop does nothing. *)
Lemma add_file_loop_present (l : nat) (d : Z) (files : list string)
    (n : nat) (st : DbState) (r : PromptRecord) :
  heap st !! l = Some r ->
  (forall f, f ∈ files -> f ∈ associated_files r) ->
  foldl (add_file l d) (n, st) files = (n, st).
Proof.
  intros Hr. induction files as [| f files IH]; intros Hall; [done |].
  cbn [foldl]. unfold add_file at 2. rewrite Hr.
  rewrite bool_decide_eq_false_2.
  - apply IH. intros g Hg. apply Hall. apply elem_of_cons. now right.
  - intros Hnot. apply Hnot. apply Hall. apply elem_of_cons. now left.
Qed.

(** X22: [perform_retroactive_association] does nothing for an index
    outside the collection or an empty selection. Otherwise every selected
    file is associated with the chosen record afterwards; a file that was
    new gets the token change of the chosen option; the files and deltas
    the record had stay as they were; the count it reports is the number
    of files the record gained; with notes, a note is stored under the
    timestamp. The other records, the collection and the active prompt are
    not touched. *)
Theorem retroactive_association_effect (prompt_index : Z)
    (selected_files : list string) (token_option : string) (custom_token : Z)
    (notes stamp : string) (st : DbState) :
  let res := perform_retroactive_association prompt_index selected_files
               token_option custom_token notes stamp st in
  let token_change := token_change_of token_option custom_token in
  (prompt_index < 0 \/ Z.of_nat (length (prompts st)) <= prompt_index
   \/ selected_files = [] -> res = (None, st))
  /\ (forall l r,
        0 <= prompt_index ->
        prompts st !! Z.to_nat prompt_index = Some l ->
        heap st !! l = Some r ->
        selected_files ≠ [] ->
        exists newly_added r',
          res.1 = Some newly_added
          /\ heap res.2 !! l = Some r'
          /\ extends r r'
          /\ (forall f, f ∈ selected_files -> f ∈ associated_files r')
          /\ (forall f, f ∈ selected_files -> f ∉ associated_files r ->
                file_changes r' !! f = Some token_change)
          /\ (forall f, f ∈ associated_files r' ->
                f ∈ associated_files r \/ f ∈ selected_files)
          /\ length (associated_files r')
             = (length (associated_files r) + newly_added)%nat
          /\ (truthy notes = true ->
              retroactive_notes r' !! stamp
              = Some {| note_files := selected_files;
                        note_token_change := token_change;
                        note_notes := notes |})
          /\ (truthy notes = false ->
              retroactive_notes r' = retroactive_notes r)
          /\ prompts res.2 = prompts st
          /\ active_prompt res.2 = active_prompt st
          /\ (forall l', l' ≠ l -> heap res.2 !! l' = heap st !! l')).
Proof.
  cbn zeta. unfold perform_retroactive_association. split.
  - intros [Hneg | [Hbig | ->]].
    + assert ((prompt_index <? 0) = true) as -> by (apply Z.ltb_lt; lia).
      reflexivity.
    + assert ((Z.of_nat (length (prompts st)) <=? prompt_index) = true) as ->
        by (apply Z.leb_le; lia).
      now rewrite orb_true_r.
    + destruct ((prompt_index <? 0)
                || (Z.of_nat (length (prompts st)) <=? prompt_index));
        [reflexivity |].
      now destruct (prompts st !! Z.to_nat prompt_index).
  - intros l r Hlo Hl Hr Hfiles.
    assert (Hlt : (Z.to_nat prompt_index < length (prompts st))%nat)
      by (apply lookup_lt_is_Some; eauto).
    assert ((prompt_index <? 0)
            || (Z.of_nat (length (prompts st)) <=? prompt_index) = false) as ->.
    { apply orb_false_iff. split; [apply Z.ltb_ge | apply Z.leb_gt]; lia. }
    rewrite Hl. destruct selected_files as [| f0 files0] eqn:Hsel; [done |].
    rewrite <- Hsel in *. clear Hsel Hfiles.
    destruct (add_file_loop l (token_change_of token_option custom_token)
                selected_files 0%nat st r Hr)
      as (Hps & Hact & Hoth & r' & Hr' & Hext & _ & Hnotes & Hall & Hval
          & Hfrom & Hlen & _ & _).
    destruct (foldl _ (0%nat, st) selected_files) as [newly_added st1].
    cbn [fst snd] in *.
    destruct (truthy notes) eqn:Hnotesq; cbn [fst snd].
    + rewrite !save_heap, !save_prompts, !save_active_prompt.
      cbn [heap prompts active_prompt set_heap].
      rewrite ?save_heap, ?save_prompts, ?save_active_prompt.
      set (note := {| note_files := selected_files |}).
      exists newly_added, (with_note stamp note r'). split; [reflexivity |].
      split; [now rewrite lookup_alter_eq, Hr' |].
      cbn [associated_files file_changes retroactive_notes with_note].
      split; [exact Hext |]. do 3 (split; [done |]). split; [lia |].
      split; [intros _; apply lookup_insert_eq |]. split; [done |].
      do 2 (split; [done |]).
      intros l' Hne. rewrite lookup_alter_ne by done. now apply Hoth.
    + rewrite !save_heap, !save_prompts, !save_active_prompt.
      exists newly_added, r'. split; [reflexivity |]. split; [exact Hr' |].
      split; [exact Hext |]. do 3 (split; [done |]). split; [lia |].
      split; [done |]. split; [done |]. done.
Qed.

Lemma associate_files_with_prompt_found (prompt_id : string)
    (selected_files : list string) (st : DbState) (l : nat) :
  get_prompt prompt_id st = Some l -> selected_files ≠ [] ->
  associate_files_with_prompt prompt_id selected_files st
  = (save (foldl (add_file l 0) (0%nat, st) selected_files).2).2.
Proof.
  intros Hget Hne. unfold associate_files_with_prompt. rewrite Hget.
  now destruct selected_files.
Qed.

Lemma save_twice (st : DbState) : (save (save st).2).2 = (save st).2.
Proof. unfold save. destruct (writable st) eqn:Hw; cbn; now rewrite ?Hw. Qed.

(** X23: after [associate_files_with_prompt], [get_prompts_for_file] lists
    the prompt for every file that was chosen, the prompt is still found
    under its identifier, the files and deltas it had are kept, and a new
    file has delta 0. Doing the same association again changes nothing. *)
Theorem associated_files_are_listed (prompt_id : string)
    (selected_files : list string) (st : DbState) (l : nat) (r : PromptRecord) :
  get_prompt prompt_id st = Some l ->
  heap st !! l = Some r ->
  let st' := associate_files_with_prompt prompt_id selected_files st in
  (forall f, f ∈ selected_files -> l ∈ get_prompts_for_file f st')
  /\ get_prompt prompt_id st' = Some l
  /\ (exists r', heap st' !! l = Some r' /\ extends r r'
                 /\ forall f, f ∈ selected_files -> f ∉ associated_files r ->
                      file_changes r' !! f = Some 0)
  /\ associate_files_with_prompt prompt_id selected_files st' = st'.
Proof.
  intros Hget Hr. cbn zeta.
  destruct (get_prompt_found prompt_id st l Hget) as (i & r0 & Hi & Hr0 & _).
  destruct selected_files as [| f0 files0] eqn:Hsel.
  { assert (Hst : associate_files_with_prompt prompt_id [] st = st)
      by (unfold associate_files_with_prompt; now rewrite Hget).
    rewrite !Hst.
    split; [intros f Hf; by apply elem_of_nil in Hf |]. split; [done |].
    split; [| done]. exists r. split; [done |]. split; [apply extends_refl |].
    intros f Hf. by apply elem_of_nil in Hf. }
  rewrite <- Hsel in *.
  assert (Hne : selected_files ≠ []) by now rewrite Hsel.
  clear Hsel.
  destruct (add_file_loop l 0 selected_files 0%nat st r Hr)
    as (Hps & Hact & Hoth & r' & Hr' & Hext & Hid & _ & Hall & Hval & _).
  rewrite !(associate_files_with_prompt_found prompt_id selected_files st l
              Hget Hne).
  set (st1 := (foldl (add_file l 0) (0%nat, st) selected_files).2) in *.
  assert (Hget' : get_prompt prompt_id (save st1).2 = Some l).
  { rewrite <- Hget. apply get_prompt_same_ids.
    - now rewrite save_prompts.
    - intros x. rewrite has_id_save. unfold has_id.
      destruct (decide (x = l)) as [-> | Hx].
      + rewrite Hr', Hr. now rewrite Hid.
      + now rewrite Hoth. }
  split; [| split; [exact Hget' | split]].
  - intros f Hf. unfold get_prompts_for_file.
    apply list_elem_of_filter. rewrite save_prompts, Hps.
    split; [| now apply list_elem_of_lookup_2 in Hi].
    unfold mentions. rewrite save_heap, Hr'.
    apply bool_decide_eq_true. now apply Hall.
  - exists r'. rewrite save_heap. done.
  - rewrite (associate_files_with_prompt_found prompt_id selected_files _ l
               Hget' Hne).
    rewrite (add_file_loop_present l 0 selected_files 0%nat (save st1).2 r').
    + cbn [snd]. apply save_twice.
    + now rewrite save_heap.
    + exact Hall.
Qed.

End ManualFacts.

(* ===================================================================== *)
(** * Further properties: more evaluations on concrete inputs *)
(* ===================================================================== *)

Section ChannelExamples.
Import Text Files SnapshotCodec Prompts Session Notes AutoRecorder.
Import ExtensionImport Manual Sample SessionSample ChannelSample.

Lemma two_files_clean : Forall clean_path ["/a.py"; "/b/c.txt"].
Proof. repeat constructor; discriminate. Defined.

Lemma two_files_distinct : NoDup ["/a.py"; "/b/c.txt"].
Proof.
  apply NoDup_cons. split; [| apply NoDup_singleton].
  intros Hin. apply list_elem_of_singleton in Hin. discriminate Hin.
Defined.

Lemma two_files_plain (q : string) :
  q ∈ ["/a.py"; "/b/c.txt"] -> plain_text (file_text snapshot_fs q).
Proof.
  intros Hq. apply elem_of_cons in Hq as [-> | Hq];
    [| apply elem_of_cons in Hq as [-> | Hq]].
  - repeat constructor.
  - repeat constructor.
  - by apply elem_of_nil in Hq.
Defined.

(** The last file of a snapshot with footer ["F"]: its text, two line
    feeds and the footer. *)
Lemma decoded_text_exact_witness :
  parse_content (build_combined_text snapshot_fs ["/a.py"; "/b/c.txt"] "H" "F")
    !! "/b/c.txt"
  = Some ("hello" +:+ String LF (String LF "F")).
Proof.
  exact (decoded_text_exact snapshot_fs ["/a.py"; "/b/c.txt"] "H" "F"
           1%nat "/b/c.txt" two_files_clean two_files_distinct two_files_plain
           ltac:(repeat constructor) ltac:(repeat constructor) eq_refl).
Defined.

(** The first note of a project, saved and deleted again. *)
Lemma saved_note_can_be_deleted_witness :
  load_eadr_notes
    (delete_eadr_note 0
       (save_eadr_note "2025-05-09 23:15:44" "note" "Origin" no_notes).2).2
  = [].
Proof.
  exact (proj2 (proj2 (proj2
           (saved_note_can_be_deleted "2025-05-09 23:15:44" "note" "Origin"
              no_notes eq_refl)))).
Defined.

Lemma nothing_loaded_yet :
  Some "u" ∉ record_ids
               (load 0 (claude_prompts_json fresh_recorder) (empty_db Missing)).2.
Proof.
  assert (Hids : record_ids
                   (load 0 (claude_prompts_json fresh_recorder)
                         (empty_db Missing)).2 = [])
    by (vm_compute; reflexivity).
  rewrite Hids. intros Hin. by apply elem_of_nil in Hin.
Defined.

Lemma first_prompt_recorded :
  (auto_record_prompt 0 "hello" "" fresh_recorder).1 = Recorded "u".
Proof. vm_compute. reflexivity. Defined.

(** The first prompt the recorder is handed, then loaded by the prompt
    database. *)
Lemma auto_recorded_prompt_is_loaded_witness :
  exists record,
    records (load 0 (claude_prompts_json
                       (auto_record_prompt 0 "hello" "" fresh_recorder).2)
                  (empty_db Missing)).2
    = records (load 0 (claude_prompts_json fresh_recorder)
                    (empty_db Missing)).2 ++ [record]
    /\ rec_id record = Some "u"
    /\ associated_files record = ["/a.py"].
Proof.
  destruct (auto_recorded_prompt_is_loaded 0 0 "hello" "" "u" fresh_recorder
              (empty_db Missing) (empty_db_well_formed Missing)
              first_prompt_recorded nothing_loaded_yet)
    as (record & Hrecs & Hid & _ & _ & _ & Hfiles & _).
  exists record. split; [exact Hrecs |]. split; [exact Hid | exact Hfiles].
Defined.

(** The server holds ["A"] with another text than the database. *)
Lemma import_all_prompts_effect_witness :
  (imported_count
     (import_all_prompts 0 server_answer (db_with sample_record None)).1
   + updated_count
       (import_all_prompts 0 server_answer (db_with sample_record None)).1
   + unchanged_count
       (import_all_prompts 0 server_answer (db_with sample_record None)).1
   = length server_answer)%nat.
Proof.
  exact (proj1 (proj2 (import_all_prompts_effect 0 server_answer
                         (db_with sample_record None)
                         (db_with_well_formed _ _)))).
Defined.

Lemma server_answer_distinct : NoDup (get_id <$> server_answer).
Proof.
  assert (Hids : get_id <$> server_answer = [Some "A"])
    by (vm_compute; reflexivity).
  rewrite Hids. apply NoDup_singleton.
Defined.

(** Importing that answer a second time. *)
Lemma import_all_prompts_settles_witness :
  import_all_prompts 1 server_answer
    (import_all_prompts 0 server_answer (db_with sample_record None)).2
  = ({| imported_count := 0; updated_count := 0;
        unchanged_count := length server_answer |},
     (import_all_prompts 0 server_answer (db_with sample_record None)).2).
Proof.
  exact (proj2 (import_all_prompts_settles 0 1 server_answer
                  (db_with sample_record None) (db_with_well_formed _ _)
                  server_answer_distinct)).
Defined.

(** A file associated by hand with ["B"]. *)
Lemma associated_files_are_listed_witness :
  1%nat ∈ get_prompts_for_file "/x.py"
            (associate_files_with_prompt "B" ["/x.py"] two_prompts).
Proof.
  refine (proj1 (associated_files_are_listed "B" ["/x.py"] two_prompts
                   1%nat blank_record _ _) "/x.py" _).
  - vm_compute. reflexivity.
  - vm_compute. reflexivity.
  - apply elem_of_cons. now left.
Defined.

End ChannelExamples.

(* ===================================================================== *)
(** * Further properties: the paths a snapshot decodes to *)
(* ===================================================================== *)

Section SnapshotPathsFacts.
Import Text Files SnapshotCodec.
Context `{PyStr}.

Lemma parse_content_keys (content k : string) :
  is_Some (parse_content content !! k) <->
  exists line path,
    line ∈ split_lines content /\ header_capture line = Some path
    /\ strip path = k.
Proof.
  rewrite parse_content_last_binding, last_binding_is_Some.
  unfold re_split_headers. rewrite pairs_keys, list_elem_of_fmap. split.
  - intros (path & -> & Hin).
    apply list_elem_of_omap in Hin as (line & Hin & Hl). eauto.
  - intros (line & path & Hin & Hl & <-). exists path. split; [done |].
    apply list_elem_of_omap. eauto.
Qed.

Lemma elem_of_concat_lines (line : string) (items : list string) :
  line ∈ concat (map split_lines items) <->
  exists item, item ∈ items /\ line ∈ split_lines item.
Proof.
  induction items as [| x items IH]; cbn [map concat].
  - split; [intros Hin; by apply elem_of_nil in Hin |].
    intros (item & Hin & _). by apply elem_of_nil in Hin.
  - rewrite elem_of_app, IH. split.
    + intros [Hx | (item & Hin & Hline)].
      * exists x. split; [apply elem_of_cons; now left | done].
      * exists item. split; [apply elem_of_cons; now right | done].
    + intros (item & Hin & Hline).
      apply elem_of_cons in Hin as [-> | Hin]; [now left | right; eauto].
Qed.

Lemma elem_of_file_items (fs : filesystem) (files : list string)
    (item : string) :
  item ∈ file_items fs files <->
  exists p, p ∈ files
            /\ (item = "### " +:+ p \/ item = "" \/ item = file_text fs p).
Proof.
  induction files as [| p files IH]; cbn [file_items].
  - split; [intros Hin; by apply elem_of_nil in Hin |].
    intros (p & Hin & _). by apply elem_of_nil in Hin.
  - rewrite !elem_of_cons, IH. split.
    + intros [-> | [-> | [-> | [-> | (q & Hq & Hitem)]]]].
      * exists p. split; [apply elem_of_cons; now left | auto].
      * exists p. split; [apply elem_of_cons; now left | auto].
      * exists p. split; [apply elem_of_cons; now left | auto].
      * exists p. split; [apply elem_of_cons; now left | auto].
      * exists q. split; [apply elem_of_cons; now right | done].
    + intros (q & Hq & Hitem). apply elem_of_cons in Hq as [-> | Hq].
      * destruct Hitem as [-> | [-> | ->]]; auto.
      * do 4 right. eauto.
Qed.

Lemma split_lines_empty_line (line : string) :
  line ∈ split_lines "" -> line = "".
Proof. cbn. intros Hin. now apply list_elem_of_singleton in Hin. Qed.

(** The lines of a snapshot that are not empty. *)
Lemma snapshot_lines (fs : filesystem) (files : list string)
    (header footer line : string) :
  line ≠ "" ->
  line ∈ split_lines (build_combined_text fs files header footer) <->
  line ∈ split_lines header \/ line ∈ split_lines footer
  \/ exists p, p ∈ files
               /\ (line ∈ split_lines ("### " +:+ p)
                   \/ line ∈ split_lines (file_text fs p)).
Proof.
  intros Hline. unfold build_combined_text.
  set (hitems := if truthy header then [header; ""] else []).
  set (fitems := if truthy footer then [footer] else []).
  assert (Hitems : (if truthy footer
                    then (hitems ++ file_items fs files) ++ [footer]
                    else hitems ++ file_items fs files)
                   = hitems ++ file_items fs files ++ fitems).
  { subst fitems. destruct (truthy footer);
      [now rewrite <- app_assoc | now rewrite app_nil_r]. }
  rewrite Hitems. clear Hitems.
  assert (Hh : (exists item, item ∈ hitems /\ line ∈ split_lines item)
               <-> line ∈ split_lines header).
  { subst hitems. destruct header as [| c header]; cbn [truthy].
    - split; [intros (item & Hin & _); by apply elem_of_nil in Hin |].
      intros Hin. apply split_lines_empty_line in Hin. contradiction.
    - split.
      + intros (item & Hin & Hl). apply elem_of_cons in Hin as [-> | Hin];
          [done |].
        apply list_elem_of_singleton in Hin as ->.
        apply split_lines_empty_line in Hl. contradiction.
      + intros Hin. eexists. split; [apply elem_of_cons; now left | done]. }
  assert (Hf : (exists item, item ∈ fitems /\ line ∈ split_lines item)
               <-> line ∈ split_lines footer).
  { subst fitems. destruct footer as [| c footer]; cbn [truthy].
    - split; [intros (item & Hin & _); by apply elem_of_nil in Hin |].
      intros Hin. apply split_lines_empty_line in Hin. contradiction.
    - split.
      + intros (item & Hin & Hl). now apply list_elem_of_singleton in Hin as ->.
      + intros Hin. eexists. split; [now apply list_elem_of_singleton | done]. }
  assert (Hm : (exists item, item ∈ file_items fs files
                             /\ line ∈ split_lines item)
               <-> exists p, p ∈ files
                             /\ (line ∈ split_lines ("### " +:+ p)
                                 \/ line ∈ split_lines (file_text fs p))).
  { split.
    - intros (item & Hin & Hl).
      apply elem_of_file_items in Hin as (p & Hp & [-> | [-> | ->]]).
      + eauto.
      + apply split_lines_empty_line in Hl. contradiction.
      + eauto.
    - intros (p & Hp & [Hl | Hl]).
      + exists ("### " +:+ p). split; [| done].
        apply elem_of_file_items. eauto.
      + exists (file_text fs p). split; [| done].
        apply elem_of_file_items. eauto 6. }
  rewrite <- Hh, <- Hf, <- Hm.
  destruct (hitems ++ file_items fs files ++ fitems) as [| x items] eqn:Hall.
  - apply app_eq_nil in Hall as [-> Hall].
    apply app_eq_nil in Hall as [-> ->]. cbn [join_lines]. split.
    + intros Hin. apply split_lines_empty_line in Hin. contradiction.
    + intros [(item & Hin & _) | [(item & Hin & _) | (item & Hin & _)]];
        by apply elem_of_nil in Hin.
  - rewrite <- Hall. rewrite split_join_lines by (rewrite Hall; done).
    rewrite elem_of_concat_lines. split.
    + intros (item & Hin & Hl).
      apply elem_of_app in Hin as [Hin | Hin]; [left; eauto |].
      apply elem_of_app in Hin as [Hin | Hin]; [right; right | right; left];
        eauto.
    + intros [(item & Hin & Hl) | [(item & Hin & Hl) | (item & Hin & Hl)]];
        exists item; (split; [| done]); rewrite !elem_of_app; auto.
Qed.

(** X24: the paths decoded from a snapshot, whatever it was built from,
    are exactly the captures, after [str.strip], of the lines [### x] found in the
    header, in the footer, in the header line written for a file, or in a
    file's text (or in the message written for a file that could not be
    read). So a line [### x] in the header, for instance in the text of
    the active prompt that an auto-backup puts there, comes back as a
    file [x]. *)
Theorem snapshot_paths (fs : filesystem) (files : list string)
    (header footer k : string) :
  is_Some (parse_content (build_combined_text fs files header footer) !! k)
  <->
  exists line path,
    header_capture line = Some path /\ strip path = k
    /\ (line ∈ split_lines header \/ line ∈ split_lines footer
        \/ exists p, p ∈ files
                     /\ (line ∈ split_lines ("### " +:+ p)
                         \/ line ∈ split_lines (file_text fs p))).
Proof.
  rewrite parse_content_keys. split.
  - intros (line & path & Hin & Hl & Hk). exists line, path.
    do 2 (split; [done |]). apply snapshot_lines; [| done].
    intros ->. discriminate Hl.
  - intros (line & path & Hl & Hk & Hin). exists line, path.
    split; [| done]. apply snapshot_lines; [| done].
    intros ->. discriminate Hl.
Qed.

End SnapshotPathsFacts.

(* ===================================================================== *)
(** * Further properties: pruning old auto-backups *)
(* ===================================================================== *)

Section RetentionFacts.
Import Text Retention.

Lemma insert_newest_first_perm (x : string * Z) (l : list (string * Z)) :
  insert_newest_first x l ≡ₚ x :: l.
Proof.
  induction l as [| y l IH]; cbn [insert_newest_first]; [done |].
  destruct (x.2 <? y.2); [| done]. rewrite IH. apply Permutation_swap.
Qed.

Lemma sort_newest_first_perm (l : list (string * Z)) :
  sort_newest_first l ≡ₚ l.
Proof.
  induction l as [| x l IH]; [done |]. cbn [sort_newest_first foldr].
  rewrite insert_newest_first_perm. now apply Permutation_skip.
Qed.

Lemma insert_newest_first_sorted (x : string * Z) (l : list (string * Z)) :
  newest_first l -> newest_first (insert_newest_first x l).
Proof.
  induction l as [| y l IH]; cbn [insert_newest_first newest_first].
  - intros _. split; [constructor | done].
  - intros [Hall Hl]. destruct (x.2 <? y.2) eqn:Hlt; cbn [newest_first].
    + apply Z.ltb_lt in Hlt. split; [| now apply IH].
      rewrite insert_newest_first_perm. constructor; [lia | done].
    + apply Z.ltb_ge in Hlt. split; [| done].
      constructor; [done |].
      eapply Forall_impl; [exact Hall |]. cbn. intros z Hz. lia.
Qed.

Lemma sort_newest_first_sorted (l : list (string * Z)) :
  newest_first (sort_newest_first l).
Proof.
  induction l as [| x l IH]; [done |]. cbn [sort_newest_first foldr].
  now apply insert_newest_first_sorted.
Qed.

Lemma newest_first_app (l1 l2 : list (string * Z)) (a b : string * Z) :
  newest_first (l1 ++ l2) -> a ∈ l1 -> b ∈ l2 -> b.2 <= a.2.
Proof.
  induction l1 as [| x l1 IH]; intros Hs Ha Hb.
  - by apply elem_of_nil in Ha.
  - cbn [app newest_first] in Hs. destruct Hs as [Hall Hs].
    apply elem_of_cons in Ha as [-> | Ha]; [| now apply IH].
    rewrite Forall_forall in Hall. apply Hall.
    apply elem_of_app. now right.
Qed.

Lemma names_injective (listing : list BackupFile) (f g : BackupFile) :
  NoDup (filename <$> listing) -> f ∈ listing -> g ∈ listing ->
  filename f = filename g -> f = g.
Proof.
  induction listing as [| x l IH]; intros Hnd Hf Hg Hfg.
  - by apply elem_of_nil in Hf.
  - rewrite fmap_cons in Hnd. apply NoDup_cons in Hnd as [Hx Hnd].
    apply elem_of_cons in Hf as [-> | Hf];
      apply elem_of_cons in Hg as [-> | Hg].
    + done.
    + exfalso. apply Hx. rewrite Hfg. now apply list_elem_of_fmap_2.
    + exfalso. apply Hx. rewrite <- Hfg. now apply list_elem_of_fmap_2.
    + now apply IH.
Qed.

(** Whatever can be removed, a removal only takes files away, and only
    files with the name it was given. *)
Lemma remove_file_general (listing : list BackupFile) (entry : string * Z) :
  remove_file listing entry `sublist_of` listing
  /\ forall f, f ∈ listing -> filename f ≠ entry.1 ->
               f ∈ remove_file listing entry.
Proof.
  unfold remove_file. destruct (existsb _ listing).
  - split; [apply sublist_filter |]. intros f Hf Hne.
    now apply list_elem_of_filter.
  - done.
Qed.

Lemma prune_loop_general (doomed : list (string * Z)) :
  forall listing : list BackupFile,
    foldl remove_file listing doomed `sublist_of` listing
    /\ forall f, f ∈ listing -> filename f ∉ doomed.*1 ->
                 f ∈ foldl remove_file listing doomed.
Proof.
  induction doomed as [| e doomed IH]; intros listing; cbn [foldl].
  - done.
  - destruct (remove_file_general listing e) as [Hsub Hkeep].
    destruct (IH (remove_file listing e)) as [Hsub' Hkeep'].
    split; [exact (transitivity Hsub' Hsub) |]. intros f Hf Hout.
    rewrite fmap_cons in Hout. apply not_elem_of_cons in Hout as [Hne Hout].
    apply Hkeep'; [| done]. now apply Hkeep.
Qed.

Lemma remove_file_exact (listing : list BackupFile) (entry : string * Z) :
  (forall f, f ∈ listing -> filename f = entry.1 -> removable f = true) ->
  remove_file listing entry = filter (fun f => filename f ≠ entry.1) listing.
Proof.
  intros Hrem. unfold remove_file.
  destruct (existsb _ listing) eqn:Hex; [done |].
  induction listing as [| x l IH]; [done |].
  cbn [existsb] in Hex. apply orb_false_iff in Hex as [Hx Hl].
  assert (Hne : filename x ≠ entry.1).
  { intros Heq. rewrite (Hrem x) in Hx by (done || (apply elem_of_cons; now left)).
    apply String.eqb_eq in Heq. rewrite Heq in Hx. discriminate Hx. }
  rewrite filter_cons_True by done. f_equal. apply IH; [| done].
  intros f Hf. apply Hrem. apply elem_of_cons. now right.
Qed.

Lemma prune_loop_exact (doomed : list (string * Z)) :
  forall listing : list BackupFile,
    (forall f, f ∈ listing -> filename f ∈ doomed.*1 -> removable f = true) ->
    foldl remove_file listing doomed
    = filter (fun f => filename f ∉ doomed.*1) listing.
Proof.
  induction doomed as [| e doomed IH]; intros listing Hrem; cbn [foldl].
  - symmetry. induction listing as [| x l IHl]; [done |].
    rewrite filter_cons_True by apply not_elem_of_nil. f_equal. apply IHl.
    intros f Hf Hin. by apply elem_of_nil in Hin.
  - rewrite remove_file_exact.
    2:{ intros f Hf Hname. apply Hrem; [done |]. rewrite fmap_cons.
        apply elem_of_cons. now left. }
    rewrite IH.
    2:{ intros f Hf Hin. apply list_elem_of_filter in Hf as [_ Hf].
        apply Hrem; [done |]. rewrite fmap_cons. apply elem_of_cons.
        now right. }
    rewrite list_filter_filter. apply list_filter_iff. intros f.
    rewrite fmap_cons, not_elem_of_cons. tauto.
Qed.

Lemma names_of_filter_NoDup (P : BackupFile -> Prop)
    `{!forall f, Decision (P f)} (listing : list BackupFile) :
  NoDup (filename <$> listing) -> NoDup (filename <$> filter P listing).
Proof.
  intros Hnd. eapply sublist_NoDup; [exact Hnd |].
  apply fmap_sublist, sublist_filter.
Qed.

(** X25: [prune_old_auto_backups] never removes a file whose name is not
    [auto_backup_*.md] and never adds or reorders one. When the names in
    the directory are distinct, the auto-backups can be removed and
    [max_backups] is not negative, it leaves exactly
    [min(number of auto-backups, max_backups)] auto-backups, and none of
    the files it removed is newer than an auto-backup it kept. *)
Theorem prune_keeps_the_newest (max_backups : Z)
    (listing : list BackupFile) :
  exists kept,
    prune_old_auto_backups max_backups (Some listing) = Some kept
    /\ kept `sublist_of` listing
    /\ (forall f, f ∈ listing -> is_auto_backup (filename f) = false ->
                  f ∈ kept)
    /\ (NoDup (filename <$> listing) ->
        (forall f, f ∈ listing -> is_auto_backup (filename f) = true ->
                   removable f = true) ->
        0 <= max_backups ->
        length (filter (fun f => is_auto_backup (filename f) = true) kept)
        = (length (filter (fun f => is_auto_backup (filename f) = true)
                          listing)
           `min` Z.to_nat max_backups)%nat
        /\ forall f g, f ∈ kept -> is_auto_backup (filename f) = true ->
                       g ∈ listing -> g ∉ kept ->
                       mod_time g <= mod_time f).
Proof.
  unfold prune_old_auto_backups.
  set (autos := filter (fun f => is_auto_backup (filename f) = true) listing).
  set (pairs := map (fun f => (filename f, mod_time f)) autos).
  set (sorted := sort_newest_first pairs).
  assert (Hperm : sorted ≡ₚ pairs) by apply sort_newest_first_perm.
  assert (Hlen : length sorted = length autos).
  { rewrite Hperm. subst pairs. apply length_map. }
  assert (Hauto : forall e, e ∈ sorted ->
            exists f, f ∈ listing /\ is_auto_backup (filename f) = true
                      /\ e = (filename f, mod_time f)).
  { intros e He. rewrite Hperm in He. subst pairs.
    apply list_elem_of_fmap in He as (f & -> & Hf).
    apply list_elem_of_filter in Hf as [Hf Hin]. eauto. }
  destruct (max_backups <? Z.of_nat (length sorted)) eqn:Hover.
  2:{ apply Z.ltb_ge in Hover. exists listing. split; [done |].
      split; [done |]. split; [done |]. intros _ _ Hmax.
      split; [| intros f g _ _ Hg Hout; contradiction].
      fold autos. lia. }
  apply Z.ltb_lt in Hover.
  set (doomed := slice_from max_backups sorted).
  destruct (prune_loop_general doomed listing) as [Hsub Hkeep].
  assert (Hdoomed : forall e, e ∈ doomed -> e ∈ sorted).
  { intros e He. subst doomed. unfold slice_from in He.
    destruct (0 <=? max_backups);
      (eapply elem_of_sublist; [exact He | apply sublist_drop]). }
  assert (Hnames : forall f, filename f ∈ doomed.*1 ->
                             is_auto_backup (filename f) = true).
  { intros f Hin. apply list_elem_of_fmap in Hin as (e & Hname & He).
    destruct (Hauto e (Hdoomed e He)) as (g & _ & Hg & ->).
    cbn in Hname. now rewrite Hname. }
  exists (foldl remove_file listing doomed). split; [done |].
  split; [exact Hsub |]. split.
  { intros f Hf Hno. apply Hkeep; [done |]. intros Hin.
    rewrite (Hnames f Hin) in Hno. discriminate Hno. }
  intros Hnd Hrem Hmax.
  rewrite prune_loop_exact.
  2:{ intros f Hf Hin. apply Hrem; [done |]. now apply Hnames. }
  set (k := Z.to_nat max_backups).
  assert (Hk : (k < length sorted)%nat) by lia.
  assert (Hdrop : doomed = drop k sorted).
  { subst doomed. unfold slice_from.
    assert ((0 <=? max_backups) = true) as -> by (apply Z.leb_le; lia). done. }
  assert (Hsplit : sorted = take k sorted ++ doomed)
    by (rewrite Hdrop; symmetry; apply take_drop).
  assert (Hnd_autos : NoDup (filename <$> autos))
    by (subst autos; now apply names_of_filter_NoDup).
  assert (Hsorted_names : sorted.*1 ≡ₚ filename <$> autos).
  { rewrite Hperm. subst pairs. rewrite <- list_fmap_compose. done. }
  assert (Hnd_sorted : NoDup (sorted.*1)) by now rewrite Hsorted_names.
  assert (Hnd_doomed : NoDup (doomed.*1)).
  { eapply sublist_NoDup; [exact Hnd_sorted |].
    rewrite Hdrop. apply fmap_sublist, sublist_drop. }
  split.
  - rewrite list_filter_filter.
    rewrite (list_filter_iff _
               (fun f => (filename f ∉ doomed.*1)
                         /\ is_auto_backup (filename f) = true)) by tauto.
    rewrite <- list_filter_filter. fold autos.
    pose proof (filter_app_complement
                  (fun f => filename f ∉ doomed.*1) autos) as Hcomp.
    apply Permutation_length in Hcomp. rewrite length_app in Hcomp.
    assert (Hgone : length (filter (fun f => ¬ (filename f ∉ doomed.*1)) autos)
                    = length doomed).
    { rewrite <- (length_fmap filename), <- (length_fmap fst doomed).
      apply Permutation_length. apply NoDup_Permutation.
      - now apply names_of_filter_NoDup.
      - exact Hnd_doomed.
      - intros x. split.
        + intros (f & -> & Hf)%list_elem_of_fmap.
          apply list_elem_of_filter in Hf as [Hin _].
          now apply dec_stable in Hin.
        + intros Hx. pose proof Hx as Hx'.
          apply list_elem_of_fmap in Hx' as (e & -> & He).
          destruct (Hauto e (Hdoomed e He)) as (f & Hf & Hfa & ->).
          apply list_elem_of_fmap. exists f. split; [done |].
          apply list_elem_of_filter. split; [cbn in Hx; tauto |].
          subst autos. now apply list_elem_of_filter. }
    assert (Hd : length doomed = (length sorted - k)%nat)
      by (rewrite Hdrop; apply length_drop).
    lia.
  - intros f g Hf Hfa Hg Hgone.
    apply list_elem_of_filter in Hf as [Hfkept Hfin].
    assert (Hgname : filename g ∈ doomed.*1).
    { destruct (decide (filename g ∈ doomed.*1)) as [Hin | Hout]; [done |].
      exfalso. apply Hgone. now apply list_elem_of_filter. }
    apply list_elem_of_fmap in Hgname as (e & Hname & He).
    destruct (Hauto e (Hdoomed e He)) as (g' & Hg' & _ & ->).
    cbn in Hname. assert (g' = g) as ->
      by (symmetry in Hname; now apply (names_injective listing)).
    assert (Hpair : (filename f, mod_time f) ∈ sorted).
    { rewrite Hperm. subst pairs. apply list_elem_of_fmap. exists f.
      split; [done |]. subst autos. now apply list_elem_of_filter. }
    rewrite Hsplit in Hpair. apply elem_of_app in Hpair as [Hpair | Hpair].
    + exact (newest_first_app (take k sorted) doomed _ _
               ltac:(rewrite <- Hsplit; apply sort_newest_first_sorted)
               Hpair He).
    + exfalso. apply Hfkept. apply list_elem_of_fmap.
      exists (filename f, mod_time f). done.
Qed.

End RetentionFacts.

(* ===================================================================== *)
(** * Properties: in which database a recorded prompt becomes active *)
(* ===================================================================== *)

Section FocusFacts.
Import Text Files Prompts Monitor ExtensionImport ExtensionServer.
Context `{PyRuntime} `{PyStr}.









End FocusFacts.

Section FocusExamples.
Import Text Files Prompts Monitor ExtensionImport ExtensionServer Sample
  FocusSample.




End FocusExamples.
